(** * MudaeTracker: the debt ledger and the pending-action correlator

    The repository holds four revisions of one Discord bot:

    - [src/index.js]: one table [pendingActions], keyed by the id of the
      trigger message; loans and repayments are both confirmed by a
      reaction of the Mudae bot (module [IndexJs]);
    - [src/unnamed/part_000]: two tables, [pendingLoans] keyed by message
      id and [pendingRepayments] keyed by channel id; a repayment is
      confirmed by a Mudae message that matches [mudaeRegex]
      (module [Part000]);
    - [src/unnamed/part_001], first document: the same two tables, the
      repayment confirmed by "loose parsing" of a Mudae message
      (module [Part001]);
    - [src/unnamed/part_001], second document: no pending table at all,
      the trigger message is applied to the ledger at once
      (module [Legacy]).

    The ledger functions [applyInterest], [logDebt] and [payDebt] are the
    same text in the four revisions (module [Ledger]); the trigger and
    reaction listeners that [part_000] and [part_001] share are in module
    [Split].

    Conventions of the embedding.
    - A [Date] is its number of milliseconds since the epoch, in [Z]; the
      host is taken to run in UTC, where [setDate(getDate() + n)] adds
      [n * 86400000] ms and the [TIMESTAMP] column round-trips.
    - JavaScript numbers that only hold integers (ids, amounts read from
      the [INTEGER] columns, differences of dates) are in [Z]; this is
      exact below 2^53.  The one product with a non-integer constant,
      [newAmount * 1.05], is computed in IEEE binary64 with the Standard
      Library's [SpecFloat].
    - A string is a [string] of UTF-8 bytes.
    - [await]ed calls that can reject ([pool.connect], [client.query],
      [message.reply], [reaction.fetch]) consult a fault oracle, a list of
      booleans of which each call consumes the head ([true]: the call
      throws).  An exhausted oracle never throws.
    - A statement that writes an amount outside the range of the
      [INTEGER] columns, or one that is no integer, is rejected by the
      server, whatever the oracle says.  The other column types are not
      modelled as failures: ids are taken to fit [VARCHAR(255)], dates to
      stay in the range of [Date] and of [TIMESTAMP], and the sequence
      not to run out.
    - [ORDER BY] leaves the order of rows with equal keys to the server;
      the embedding keeps them in table order, and no statement below
      rests on the order of such rows.
    - Handlers run to completion one after the other (section 5 of the
      specification); [console] output is not modelled. *)

From Stdlib Require Import ZArith String Ascii List Lia.
From Stdlib Require Import Floats.SpecFloat.
From Stdlib Require Import Sorting.Sorted.
From stdpp Require Import gmap strings list pretty.

Open Scope Z_scope.

(** ** JavaScript values *)

Module JS.

(** *** Numbers: IEEE 754 binary64 *)

Definition prec : Z := 53.
Definition emax : Z := 1024.
Definition number : Type := spec_float.

(** An integer as a number (exact below 2^53). *)
Definition of_int (z : Z) : number := binary_normalize prec emax z 0 false.

(** The literal [1.05]: the binary64 nearest to 105/100. *)
Definition lit_1_05 : number := SFdiv prec emax (of_int 105) (of_int 100).

Definition mul (x y : number) : number := SFmul prec emax x y.

(** [Math.ceil]. *)
Definition Math_ceil (x : number) : number :=
  match x with
  | S754_finite s m e =>
      if 0 <=? e then x
      else
        let d := 2 ^ (- e) in
        let q := Z.pos m / d in
        if s then binary_normalize prec emax (- q) 0 true
        else binary_normalize prec emax
               (if Z.pos m mod d =? 0 then q else q + 1) 0 false
  | _ => x
  end.

(** The integer a number stands for, when it is one ([None] for a
    fraction, an infinity or NaN). *)
Definition to_int (x : number) : option Z :=
  match x with
  | S754_zero _ => Some 0
  | S754_finite s m e =>
      let v :=
        if 0 <=? e then Some (Z.pos m * 2 ^ e)
        else if Z.pos m mod 2 ^ (- e) =? 0 then Some (Z.pos m / 2 ^ (- e))
        else None in
      (fun z => if s then - z else z) <$> v
  | _ => None
  end.

(** *** Strings *)

Definition code (c : ascii) : nat := nat_of_ascii c.

Definition is_digit (c : ascii) : bool :=
  ((48 <=? code c) && (code c <=? 57))%nat.

Definition lower (c : ascii) : ascii :=
  if ((65 <=? code c) && (code c <=? 90))%nat
  then ascii_of_nat (code c + 32) else c.

(** [String.prototype.toLowerCase], on the ASCII letters.  (Outside
    ASCII only U+212A and U+0130 lower to an ASCII letter, [k] and
    [i]; no keyword searched for below has either.) *)
Fixpoint toLowerCase (s : string) : string :=
  match s with
  | EmptyString => EmptyString
  | String c r => String (lower c) (toLowerCase r)
  end.

(** [String.prototype.includes]. *)
Fixpoint includes (s pat : string) : bool :=
  String.prefix pat s ||
  match s with
  | EmptyString => false
  | String _ r => includes r pat
  end.

(** [Number.prototype.toString] of an integer (below 10^21). *)
Definition toString (n : Z) : string := pretty n.

Fixpoint digits_value (acc : Z) (s : string) : Z :=
  match s with
  | EmptyString => acc
  | String c r => digits_value (10 * acc + (Z.of_nat (code c) - 48)) r
  end.

Fixpoint span (p : ascii -> bool) (s : string) : string * string :=
  match s with
  | EmptyString => (EmptyString, EmptyString)
  | String c r =>
      if p c then let '(a, b) := span p r in (String c a, b)
      else (EmptyString, s)
  end.

(** [parseInt] of a string that starts with decimal digits or is empty
    (the only arguments it gets here): the value of the leading digits,
    [None] for NaN.  JavaScript yields the binary64 nearest to that
    value, which is the value itself below 2^53; longer amounts are
    outside the embedding (none fits an [INTEGER] column). *)
Definition parseInt (s : string) : option Z :=
  match fst (span is_digit s) with
  | EmptyString => None
  | ds => Some (digits_value 0 ds)
  end.

(** *** The pieces of the regular expressions *)

(** A literal, compared without case (flag [i]). *)
Fixpoint lit (pat s : string) : option string :=
  match pat, s with
  | EmptyString, _ => Some s
  | String p pat', String c r =>
      if Ascii.eqb (lower p) (lower c) then lit pat' r else None
  | String _ _, EmptyString => None
  end.

(** An alternation of literals, tried from left to right. *)
Fixpoint alt (pats : list string) (s : string) : option string :=
  match pats with
  | [] => None
  | p :: ps => match lit p s with Some r => Some r | None => alt ps s end
  end.

(** One character of the class [\s], in UTF-8: TAB, LF, VT, FF, CR,
    SP, U+00A0, U+1680, U+2000..U+200A, U+2028, U+2029, U+202F, U+205F,
    U+3000, U+FEFF. *)
Definition space1 (s : string) : option string :=
  match s with
  | EmptyString => None
  | String c r =>
      let n := code c in
      if ((9 <=? n) && (n <=? 13) || (n =? 32))%nat then Some r
      else
        match r with
        | String c2 r2 =>
            let n2 := code c2 in
            if ((n =? 194) && (n2 =? 160))%nat then Some r2
            else
              match r2 with
              | String c3 r3 =>
                  let n3 := code c3 in
                  if ((n =? 225) && (n2 =? 154) && (n3 =? 128)
                      || (n =? 226) && (n2 =? 128) &&
                           ((128 <=? n3) && (n3 <=? 138) || (n3 =? 168)
                            || (n3 =? 169) || (n3 =? 175))
                      || (n =? 226) && (n2 =? 129) && (n3 =? 159)
                      || (n =? 227) && (n2 =? 128) && (n3 =? 128)
                      || (n =? 239) && (n2 =? 187) && (n3 =? 191))%nat
                  then Some r3 else None
              | EmptyString => None
              end
        | EmptyString => None
        end
  end.

Fixpoint spaces0 (fuel : nat) (s : string) : string :=
  match fuel with
  | O => s
  | S f => match space1 s with Some r => spaces0 f r | None => s end
  end.

(** [\s+], greedy. *)
Definition spaces (s : string) : option string :=
  r ← space1 s; Some (spaces0 (String.length r) r).

(** [(\d+)], greedy: the capture and the rest. *)
Definition digits (s : string) : option (string * string) :=
  match span is_digit s with
  | (EmptyString, _) => None
  | (ds, r) => Some (ds, r)
  end.

(** [/^\$(verb1|verb2)\s+<@!?(\d+)>\s+(\d+)/i]: captures 2 and 3.
    Every quantifier is followed by a character outside its class, so
    the greedy match is the only one. *)
Definition trigger (verbs : list string) (content : string)
  : option (string * string) :=
  s1 ← lit "$" content;
  s2 ← alt verbs s1;
  s3 ← spaces s2;
  s4 ← lit "<@" s3;
  let s5 := default s4 (lit "!" s4) in
  '(user, s6) ← digits s5;
  s7 ← lit ">" s6;
  s8 ← spaces s7;
  '(amount, _) ← digits s8;
  Some (user, amount).

End JS.

(** ** Control: state, exceptions and the fault oracle *)

Inductive outcome (A : Type) : Type :=
| Ok (a : A)
| Throw.
Arguments Ok {A} a.
Arguments Throw {A}.

(** A computation over a state [S] that returns or throws; the state
    reached when it throws is kept, as in JavaScript. *)
Definition M (S A : Type) : Type := S -> outcome A * S.

#[global] Instance M_ret {S} : MRet (M S) := fun A a s => (Ok a, s).

#[global] Instance M_bind {S} : MBind (M S) := fun A B f m s =>
  match m s with
  | (Ok a, s') => f a s'
  | (Throw, s') => (Throw, s')
  end.

Definition throw {S A} : M S A := fun s => (Throw, s).

(** [try { body } catch (e) { handler }] *)
Definition try_catch {S A} (body handler : M S A) : M S A := fun s =>
  match body s with
  | (Throw, s') => handler s'
  | r => r
  end.

(** [try { body } finally { fin }], for a [fin] that does not throw. *)
Definition try_finally {S A} (body : M S A) (fin : S -> S) : M S A := fun s =>
  let '(r, s') := body s in (r, fin s').

(** [for (const x of xs) body(x)] *)
Fixpoint for_each {S A} (xs : list A) (body : A -> M S unit) : M S unit :=
  match xs with
  | [] => mret tt
  | x :: rest => body x;; for_each rest body
  end.

Definition exec {S A} (m : M S A) (s : S) : S := snd (m s).
Definition result {S A} (m : M S A) (s : S) : outcome A := fst (m s).

(** ** The ledger: section 5 of each revision *)

Module Ledger.

Inductive status : Type := Open | Paid.

#[global] Instance status_eq_dec : EqDecision status.
Proof. solve_decision. Defined.

(** A row of the table [debts]. *)
Record debt : Type := Debt {
  debt_id : Z;
  borrower_id : string;
  admin_id : string;
  amount_initial : Z;
  amount_remaining : Z;
  created_at : Z;
  last_interest_at : Z;
  debt_status : status;
  note : string
}.

(** What lies outside the process: the table, its [SERIAL] sequence and
    the fault oracle. *)
Record env : Type := Env {
  table : list debt;
  serial : Z;
  faults : list bool
}.

Abbreviation Db := (M env).

(** The persistent part: the rows and the sequence. *)
Definition contents (s : env) : list debt * Z := (table s, serial s).

Definition refault (fs : list bool) (s : env) : env :=
  {| table := table s; serial := serial s; faults := fs |}.

(** One call that may reject. *)
Definition call : Db unit := fun s =>
  match faults s with
  | [] => (Ok tt, s)
  | b :: fs =>
      (if b then Throw else Ok tt,
       {| table := table s; serial := serial s; faults := fs |})
  end.

Definition pool_connect : Db unit := call.

Definition is_open (d : debt) : bool := bool_decide (debt_status d = Open).

(** [SELECT * FROM debts WHERE p] *)
Definition query_select (p : debt -> bool) : Db (list debt) :=
  call;; ((fun s => (Ok (filter (fun d => p d = true) (table s)), s))
          : Db (list debt)).

(** [UPDATE debts SET ... WHERE id=$i] *)
Definition query_update (f : debt -> debt) (i : Z) : Db unit :=
  call;; ((fun s =>
    (Ok tt,
     {| table := map (fun d => if debt_id d =? i then f d else d) (table s);
        serial := serial s; faults := faults s |})) : Db unit).

(** The values that an [INTEGER] column holds. *)
Definition in_integer (z : Z) : bool :=
  (-2147483648 <=? z) && (z <=? 2147483647).

(** [INSERT INTO debts (...) VALUES (...) RETURNING id]; an amount
    outside [INTEGER] is rejected, and the sequence is not drawn from. *)
Definition query_insert (row : Z -> debt) : Db Z :=
  call;; ((fun s =>
    let r := row (serial s) in
    if in_integer (amount_initial r) && in_integer (amount_remaining r)
    then (Ok (serial s),
          {| table := table s ++ [r];
             serial := serial s + 1; faults := faults s |})
    else (Throw, s)) : Db Z).

(** [ORDER BY created_at ASC].  The server may return rows with equal
    dates in any order; here they keep the order of the table. *)
Fixpoint insert_by_created_at (d : debt) (l : list debt) : list debt :=
  match l with
  | [] => [d]
  | x :: r =>
      if created_at x <=? created_at d then x :: insert_by_created_at d r
      else d :: l
  end.

Definition order_by_created_at (l : list debt) : list debt :=
  foldr insert_by_created_at [] (reverse l).

Definition set_interest (amount date : Z) (d : debt) : debt :=
  {| debt_id := debt_id d; borrower_id := borrower_id d;
     admin_id := admin_id d; amount_initial := amount_initial d;
     amount_remaining := amount; created_at := created_at d;
     last_interest_at := date; debt_status := debt_status d;
     note := note d |}.

Definition set_paid (d : debt) : debt :=
  {| debt_id := debt_id d; borrower_id := borrower_id d;
     admin_id := admin_id d; amount_initial := amount_initial d;
     amount_remaining := 0; created_at := created_at d;
     last_interest_at := last_interest_at d; debt_status := Paid;
     note := note d |}.

Definition set_remaining (amount : Z) (d : debt) : debt :=
  {| debt_id := debt_id d; borrower_id := borrower_id d;
     admin_id := admin_id d; amount_initial := amount_initial d;
     amount_remaining := amount; created_at := created_at d;
     last_interest_at := last_interest_at d; debt_status := debt_status d;
     note := note d |}.

Definition MS_PER_DAY : Z := 1000 * 60 * 60 * 24.

(** The locals of the loop body of [applyInterest]. *)
Definition weeksPassed (now : Z) (d : debt) : Z :=
  let lastInterest := last_interest_at d in
  let diffTime := Z.abs (now - lastInterest) in
  let diffDays := diffTime / MS_PER_DAY in
  diffDays / 7.

(** [for (let i = 0; i < weeks; i++) newAmount = Math.ceil(newAmount *
    1.05)], from [newAmount = amount]. *)
Definition compound (weeks : nat) (amount : Z) : JS.number :=
  Nat.iter weeks
    (fun newAmount => JS.Math_ceil (JS.mul newAmount JS.lit_1_05))
    (JS.of_int amount).

Definition newAmount (now : Z) (d : debt) : JS.number :=
  compound (Z.to_nat (weeksPassed now d)) (amount_remaining d).

Definition newDate (now : Z) (d : debt) : Z :=
  last_interest_at d + weeksPassed now d * 7 * MS_PER_DAY.

(** [UPDATE debts SET amount_remaining=$1, last_interest_at=$2 WHERE
    id=$3]; an amount that is not an integer ([Infinity]), or one
    outside [INTEGER], is rejected. *)
Definition update_interest (amount : JS.number) (date i : Z) : Db unit :=
  match JS.to_int amount with
  | Some a =>
      if in_integer a then query_update (set_interest a date) i
      else call;; throw
  | None => call;; throw
  end.

Definition accrue (now : Z) (d : debt) : Db unit :=
  if 0 <? weeksPassed now d
  then update_interest (newAmount now d) (newDate now d) (debt_id d)
  else mret tt.

Definition applyInterest (now : Z) : Db unit :=
  pool_connect;;
  try_catch
    (res ← query_select is_open;
     for_each res (accrue now))
    (mret tt).

Definition logDebt (now : Z) (borrowerId adminId : string) (amount : Z)
    (note : string) : Db Z :=
  pool_connect;;
  query_insert (fun i =>
    {| debt_id := i; borrower_id := borrowerId; admin_id := adminId;
       amount_initial := amount; amount_remaining := amount;
       created_at := now; last_interest_at := now; debt_status := Open;
       note := note |}).

Definition log_paid (d : debt) : string :=
  "✅ Debt #" +:+ JS.toString (debt_id d) +:+ " paid fully (" +:+
  JS.toString (amount_remaining d) +:+ "k).".

Definition log_reduced (d : debt) (remaining newAmt : Z) : string :=
  "📉 Debt #" +:+ JS.toString (debt_id d) +:+ " reduced by " +:+
  JS.toString remaining +:+ "k (Remaining: " +:+ JS.toString newAmt +:+
  "k).".

(** The loop of [payDebt], with its locals [remaining] and [logs]. *)
Fixpoint pay_loop (rows : list debt) (remaining : Z) (logs : list string)
  : Db (list string) :=
  match rows with
  | [] => mret logs
  | d :: rest =>
      if remaining <=? 0 then mret logs
      else if amount_remaining d <=? remaining then
        query_update set_paid (debt_id d);;
        pay_loop rest (remaining - amount_remaining d)
          (logs ++ [log_paid d])
      else
        let newAmt := amount_remaining d - remaining in
        query_update (set_remaining newAmt) (debt_id d);;
        pay_loop rest 0 (logs ++ [log_reduced d remaining newAmt])
  end.

Definition owes (borrowerId : string) (d : debt) : bool :=
  bool_decide (borrower_id d = borrowerId) && is_open d.

Definition payDebt (borrowerId : string) (amount : Z) : Db (list string) :=
  pool_connect;;
  res ← query_select (owes borrowerId);
  pay_loop (order_by_created_at res) amount [].

(** [DELETE FROM debts WHERE id=$1] *)
Definition query_delete (i : Z) : Db unit :=
  call;; ((fun s =>
    (Ok tt,
     {| table := filter (fun d => debt_id d <> i) (table s);
        serial := serial s; faults := faults s |})) : Db unit).

(** [ORDER BY borrower_id], the ids compared byte by byte (rows of one
    borrower keep the order of the table). *)
Fixpoint insert_by_borrower_id (d : debt) (l : list debt) : list debt :=
  match l with
  | [] => [d]
  | x :: r =>
      if String.leb (borrower_id x) (borrower_id d)
      then x :: insert_by_borrower_id d r
      else d :: l
  end.

Definition order_by_borrower_id (l : list debt) : list debt :=
  foldr insert_by_borrower_id [] (reverse l).

End Ledger.

(** ** What the platform delivers, and the constants of the revisions *)

Module Discord.

Record message : Type := Message {
  message_id : string;
  author_id : string;
  author_bot : bool;
  channel_id : string;
  content : string
}.

(** A [messageReactionAdd] event: the reaction (possibly partial), the
    message it sits on, and the user who reacted. *)
Record reaction : Type := Reaction {
  partial : bool;
  emoji_name : string;
  on_message : string;
  user_id : string
}.

Definition MUDAE_ID : string := "432610292342587392".
Definition CHECKMARK : string := "✅".

Definition giveVerbs : list string := ["givescrap"; "givekakera"].
Definition takeVerbs : list string := ["kakeraremove"; "takekakera"].

(** [/^\$(givescrap|givekakera)\s+<@!?(\d+)>\s+(\d+)/i] *)
Definition giveRegex : string -> option (string * string) :=
  JS.trigger giveVerbs.

(** [/^\$(kakeraremove|takekakera)\s+<@!?(\d+)>\s+(\d+)/i] *)
Definition takeRegex : string -> option (string * string) :=
  JS.trigger takeVerbs.

Definition newline : string := String (ascii_of_nat 10) EmptyString.

(** [Array.prototype.join] *)
Fixpoint join (sep : string) (l : list string) : string :=
  match l with
  | [] => EmptyString
  | [x] => x
  | x :: r => x +:+ sep +:+ join sep r
  end.

Definition is_checkmark (name : string) : bool :=
  String.eqb name CHECKMARK || String.eqb name "white_check_mark".

Definition loan_reply (userId : string) (amount debtId : Z) : string :=
  "📉 **Confirmed:** Loan recorded. <@" +:+ userId +:+ "> borrowed **" +:+
  JS.toString amount +:+ "k** (ID: " +:+ JS.toString debtId +:+ ").".

Definition no_debts_reply (userId : string) : string :=
  "❓ <@" +:+ userId +:+ "> has no active debts.".

End Discord.

(** ** src/index.js: one pending table, confirmation by reaction *)

Module IndexJs.
Import Ledger Discord.

Inductive action_type : Type := LOAN | REPAY.

Record action : Type := Action {
  type : action_type;
  adminId : string;
  userId : string;
  amount : Z;
  timestamp : Z
}.

Record world : Type := World {
  outside : env;
  isTrackingEnabled : bool;
  pendingActions : gmap string action;
  replies : list (string * string)
}.

Definition ledger (w : world) : list debt * Z := contents (outside w).

Definition with_faults (fs : list bool) (w : world) : world :=
  {| outside := refault fs (outside w);
     isTrackingEnabled := isTrackingEnabled w;
     pendingActions := pendingActions w; replies := replies w |}.

(** A ledger computation run from a handler. *)
Definition db {A} (m : Db A) : M world A := fun w =>
  let '(r, e) := m (outside w) in
  (r, {| outside := e; isTrackingEnabled := isTrackingEnabled w;
         pendingActions := pendingActions w; replies := replies w |}).

Definition pending_set (k : string) (a : action) : M world unit := fun w =>
  (Ok tt, {| outside := outside w; isTrackingEnabled := isTrackingEnabled w;
             pendingActions := <[k := a]> (pendingActions w);
             replies := replies w |}).

Definition pending_delete (k : string) (w : world) : world :=
  {| outside := outside w; isTrackingEnabled := isTrackingEnabled w;
     pendingActions := delete k (pendingActions w); replies := replies w |}.

Definition set_tracking (b : bool) (w : world) : world :=
  {| outside := outside w; isTrackingEnabled := b;
     pendingActions := pendingActions w; replies := replies w |}.

(** [message.reply(text)] *)
Definition reply (to text : string) : M world unit :=
  db call;; ((fun w =>
    (Ok tt, {| outside := outside w;
               isTrackingEnabled := isTrackingEnabled w;
               pendingActions := pendingActions w;
               replies := replies w ++ [(to, text)] |})) : M world unit).

(** [if (reaction.partial) { try { await reaction.fetch(); } catch (e) {
    return; } }]: whether the handler goes on. *)
Definition fetch (r : reaction) : M world bool :=
  if partial r then try_catch (db call;; mret true) (mret false)
  else mret true.

Section Listeners.
Variable ADMIN_IDS : list string.

(** Listener 1.  The capture [(\d+)] is never empty, so [parseInt]
    never yields NaN there (lemma [trigger_amount] below). *)
Definition register (kind : action_type) (now : Z) (m : message)
    (captures : string * string) : M world unit :=
  match JS.parseInt captures.2 with
  | Some n =>
      pending_set (message_id m)
        {| type := kind; adminId := author_id m; userId := captures.1;
           amount := n; timestamp := now |}
  | None => mret tt
  end.

Definition messageCreate (now : Z) (m : message) : M world unit := fun w =>
  if author_bot m then (Ok tt, w)
  else if negb (bool_decide (author_id m ∈ ADMIN_IDS)) then (Ok tt, w)
  else if negb (isTrackingEnabled w) then (Ok tt, w)
  else if JS.includes (JS.toLowerCase (content m)) "#exempt" then (Ok tt, w)
  else
    match giveRegex (content m) with
    | Some giveMatch => register LOAN now m giveMatch w
    | None =>
        match takeRegex (content m) with
        | Some takeMatch => register REPAY now m takeMatch w
        | None => (Ok tt, w)
        end
    end.

(** The [try] block of listener 2. *)
Definition execute (now : Z) (r : reaction) (a : action) : M world unit :=
  match type a with
  | LOAN =>
      db (applyInterest now);;
      debtId ← db (logDebt now (userId a) (adminId a) (amount a)
                     "Verified by Mudae");
      reply (on_message r) (loan_reply (userId a) (amount a) debtId)
  | REPAY =>
      db (applyInterest now);;
      logs ← db (payDebt (userId a) (amount a));
      if (0 <? length logs)%nat
      then reply (on_message r)
             ("💸 **Confirmed:**" +:+ newline +:+ join newline logs)
      else reply (on_message r) (no_debts_reply (userId a))
  end.

(** Listener 2. *)
Definition messageReactionAdd (now : Z) (r : reaction) : M world unit :=
  fetched ← fetch r;
  if negb fetched : bool then mret tt
  else if negb (String.eqb (user_id r) MUDAE_ID) then mret tt
  else if negb (is_checkmark (emoji_name r)) then mret tt
  else fun w =>
    if negb (isTrackingEnabled w) then (Ok tt, w)
    else
      match pendingActions w !! on_message r with
      | None => (Ok tt, w)
      | Some a =>
          try_finally (try_catch (execute now r a) (mret tt))
            (pending_delete (on_message r)) w
      end.

(** Listener 3, command [debt_toggle]. *)
Definition debt_toggle (user mode : string) : M world unit :=
  if negb (bool_decide (user ∈ ADMIN_IDS))
  then db call
  else (fun w => (Ok tt, set_tracking (String.eqb mode "on") w));; db call.

End Listeners.

(** The cleanup timer that the [ready] listener sets: every minute, each
    entry older than 300000 ms is deleted. *)
Definition sweep (now : Z) (w : world) : world :=
  {| outside := outside w; isTrackingEnabled := isTrackingEnabled w;
     pendingActions :=
       map_fold
         (fun msgId data pending =>
            if 300000 <? now - timestamp data then delete msgId pending
            else pending)
         (pendingActions w) (pendingActions w);
     replies := replies w |}.

(** The slash commands, with their options. *)
Inductive command : Type :=
| Status
| Toggle (mode : string)
| Add (user : string) (amount : Z) (note : option string)
| Delete (id : Z).

(** [Math.ceil((next - new Date()) / (1000 * 60 * 60 * 24))], with
    [next] seven days after [last_interest_at]. *)
Definition daysUntil (now : Z) (row : debt) : Z :=
  let next := last_interest_at row + 7 * MS_PER_DAY in
  - ((- (next - now)) / MS_PER_DAY).

Definition status_line (now : Z) (row : debt) : string :=
  "🆔 `" +:+ JS.toString (debt_id row) +:+ "` | <@" +:+ borrower_id row +:+
  ">: **" +:+ JS.toString (amount_remaining row) +:+ "k** | Interest in " +:+
  JS.toString (daysUntil now row) +:+ "d" +:+ newline.

Section Commands.
Variable ADMIN_IDS : list string.

(** Command [debt_status]; the reply goes to the invoking user. *)
Definition debt_status (now : Z) (invoker : string) : M world unit :=
  db (applyInterest now);;
  db pool_connect;;
  res ← db (query_select is_open);
  ((fun w =>
    let rows := order_by_borrower_id res in
    let statusHeader :=
      if isTrackingEnabled w then "🟢 **System Status: ONLINE**"
      else "🔴 **System Status: PAUSED**" in
    if (length rows =? 0)%nat
    then reply invoker (statusHeader +:+ newline +:+ "No active debts.") w
    else
      reply invoker
        (foldl (fun report row => report +:+ status_line now row)
           (statusHeader +:+ newline +:+ "**Active Debts:**" +:+ newline)
           rows) w) : M world unit).

(** Command [debt_add]: [note] is [getString('note') || "Manual Entry"]. *)
Definition debt_add (now : Z) (invoker user : string) (amount : Z)
    (note : option string) : M world unit :=
  let note :=
    match note with
    | Some n => if String.eqb n "" then "Manual Entry" else n
    | None => "Manual Entry"
    end in
  id ← db (logDebt now user invoker amount note);
  reply invoker
    ("✅ Manually created Debt #" +:+ JS.toString id +:+ " for <@" +:+ user +:+
     ">: " +:+ JS.toString amount +:+ "k").

(** Command [debt_delete]. *)
Definition debt_delete (invoker : string) (id : Z) : M world unit :=
  db pool_connect;;
  db (query_delete id);;
  reply invoker ("🗑️ Deleted Debt #" +:+ JS.toString id +:+ ".").

(** Listener 3.  ([debt_toggle] above does not record the text of its
    reply.) *)
Definition interactionCreate (now : Z) (invoker : string) (c : command)
  : M world unit :=
  if negb (bool_decide (invoker ∈ ADMIN_IDS))
  then reply invoker "❌ Unauthorized."
  else
    match c with
    | Toggle mode => debt_toggle ADMIN_IDS invoker mode
    | Status => debt_status now invoker
    | Add user amount note => debt_add now invoker user amount note
    | Delete id => debt_delete invoker id
    end.

End Commands.

End IndexJs.

(** ** The two revisions with two pending tables

    Listeners 1 and 3 are the same text in [src/unnamed/part_000] and in
    the first document of [src/unnamed/part_001]; listener 2 differs. *)

Module Split.
Import Ledger Discord.

Record pending : Type := Pending {
  adminId : string;
  userId : string;
  amount : Z;
  timestamp : Z
}.

Record world : Type := World {
  outside : env;
  isTrackingEnabled : bool;
  pendingLoans : gmap string pending;
  pendingRepayments : gmap string pending;
  replies : list (string * string)
}.

Definition ledger (w : world) : list debt * Z := contents (outside w).

Definition with_faults (fs : list bool) (w : world) : world :=
  {| outside := refault fs (outside w);
     isTrackingEnabled := isTrackingEnabled w;
     pendingLoans := pendingLoans w;
     pendingRepayments := pendingRepayments w; replies := replies w |}.

Definition db {A} (m : Db A) : M world A := fun w =>
  let '(r, e) := m (outside w) in
  (r, {| outside := e; isTrackingEnabled := isTrackingEnabled w;
         pendingLoans := pendingLoans w;
         pendingRepayments := pendingRepayments w; replies := replies w |}).

Definition loans_set (k : string) (p : pending) : M world unit := fun w =>
  (Ok tt, {| outside := outside w; isTrackingEnabled := isTrackingEnabled w;
             pendingLoans := <[k := p]> (pendingLoans w);
             pendingRepayments := pendingRepayments w;
             replies := replies w |}).

Definition repayments_set (k : string) (p : pending) : M world unit :=
  fun w =>
  (Ok tt, {| outside := outside w; isTrackingEnabled := isTrackingEnabled w;
             pendingLoans := pendingLoans w;
             pendingRepayments := <[k := p]> (pendingRepayments w);
             replies := replies w |}).

Definition loans_delete (k : string) (w : world) : world :=
  {| outside := outside w; isTrackingEnabled := isTrackingEnabled w;
     pendingLoans := delete k (pendingLoans w);
     pendingRepayments := pendingRepayments w; replies := replies w |}.

Definition repayments_delete (k : string) (w : world) : world :=
  {| outside := outside w; isTrackingEnabled := isTrackingEnabled w;
     pendingLoans := pendingLoans w;
     pendingRepayments := delete k (pendingRepayments w);
     replies := replies w |}.

Definition set_tracking (b : bool) (w : world) : world :=
  {| outside := outside w; isTrackingEnabled := b;
     pendingLoans := pendingLoans w;
     pendingRepayments := pendingRepayments w; replies := replies w |}.

Definition reply (to text : string) : M world unit :=
  db call;; ((fun w =>
    (Ok tt, {| outside := outside w;
               isTrackingEnabled := isTrackingEnabled w;
               pendingLoans := pendingLoans w;
               pendingRepayments := pendingRepayments w;
               replies := replies w ++ [(to, text)] |})) : M world unit).

Definition fetch (r : reaction) : M world bool :=
  if partial r then try_catch (db call;; mret true) (mret false)
  else mret true.

Section Listeners.
Variable ADMIN_IDS : list string.

Definition entry (now : Z) (m : message) (captures : string * string)
  : option pending :=
  n ← JS.parseInt captures.2;
  Some {| adminId := author_id m; userId := captures.1; amount := n;
          timestamp := now |}.

(** Listener 1: administrator messages. *)
Definition onAdminMessage (now : Z) (m : message) : M world unit :=
  fun w =>
  if author_bot m then (Ok tt, w)
  else if bool_decide (author_id m ∈ ADMIN_IDS) then
    if negb (isTrackingEnabled w) then (Ok tt, w)
    else if JS.includes (content m) "#exempt" then (Ok tt, w)
    else
      match giveRegex (content m) with
      | Some giveMatch =>
          match entry now m giveMatch with
          | Some p => loans_set (message_id m) p w
          | None => (Ok tt, w)
          end
      | None =>
          match takeRegex (content m) with
          | Some takeMatch =>
              match entry now m takeMatch with
              | Some p => repayments_set (channel_id m) p w
              | None => (Ok tt, w)
              end
          | None => (Ok tt, w)
          end
      end
  else (Ok tt, w).

(** The [try] block of listener 3. *)
Definition record_loan (now : Z) (r : reaction) (a : pending) : M world unit :=
  db (applyInterest now);;
  debtId ← db (logDebt now (userId a) (adminId a) (amount a)
                 "Verified by Mudae");
  reply (on_message r) (loan_reply (userId a) (amount a) debtId).

(** Listener 3: Mudae reactions confirm loans. *)
Definition messageReactionAdd (now : Z) (r : reaction) : M world unit :=
  fetched ← fetch r;
  if negb fetched : bool then mret tt
  else if negb (String.eqb (user_id r) MUDAE_ID) then mret tt
  else fun w =>
    if negb (isTrackingEnabled w) then (Ok tt, w)
    else if negb (is_checkmark (emoji_name r)) then (Ok tt, w)
    else
      match pendingLoans w !! on_message r with
      | None => (Ok tt, w)
      | Some a =>
          try_finally (try_catch (record_loan now r a) (mret tt))
            (loans_delete (on_message r)) w
      end.

(** Listener 4, command [debt_toggle]. *)
Definition debt_toggle (user mode : string) : M world unit :=
  if negb (bool_decide (user ∈ ADMIN_IDS))
  then db call
  else (fun w => (Ok tt, set_tracking (String.eqb mode "on") w));; db call.

End Listeners.

(** The cleanup timer: both tables lose their entries older than
    300000 ms. *)
Definition sweep (now : Z) (w : world) : world :=
  let expire (table : gmap string pending) :=
    map_fold
      (fun key data pending =>
         if 300000 <? now - timestamp data then delete key pending
         else pending)
      table table in
  {| outside := outside w; isTrackingEnabled := isTrackingEnabled w;
     pendingLoans := expire (pendingLoans w);
     pendingRepayments := expire (pendingRepayments w);
     replies := replies w |}.

End Split.

(** ** src/unnamed/part_000: repayment confirmed through [mudaeRegex] *)

Module Part000.
Import Ledger Discord Split.

Definition is_star (c : ascii) : bool := Ascii.eqb c "*".
Definition is_digit_or_comma (c : ascii) : bool :=
  JS.is_digit c || Ascii.eqb c ",".

Definition utf8 (bytes : list nat) : string :=
  foldr (fun b s => String (ascii_of_nat b) s) EmptyString bytes.

Definition U2028 : string := utf8 [226; 128; 168]%nat.
Definition U2029 : string := utf8 [226; 128; 169]%nat.

(** The characters that [.] matches: up to the first line terminator
    (LF, CR, U+2028, U+2029). *)
Fixpoint first_line (s : string) : string :=
  match s with
  | EmptyString => EmptyString
  | String c r =>
      if ((JS.code c =? 10) || (JS.code c =? 13))%nat then EmptyString
      else if String.prefix U2028 s || String.prefix U2029 s then EmptyString
      else String c (first_line r)
  end.

(** What follows the first occurrence of [pat]. *)
Fixpoint after_first (pat s : string) : option string :=
  match JS.lit pat s with
  | Some r => Some r
  | None =>
      match s with
      | EmptyString => None
      | String _ r => after_first pat r
      end
  end.

(** [/^\**([\d,]+)\**.*removed.*\(added/i]: capture 1.  A shorter run
    of digits or stars leaves a digit, a comma or a star to [.*], which
    takes it, so the greedy capture decides the match. *)
Definition mudaeRegex (content : string) : option string :=
  let s1 := snd (JS.span is_star content) in
  match JS.span is_digit_or_comma s1 with
  | (EmptyString, _) => None
  | (capture, s2) =>
      let s3 := snd (JS.span is_star s2) in
      rest ← after_first "removed" (first_line s3);
      _ ← after_first "(added" rest;
      Some capture
  end.

(** [s.replace(/,/g, '')] *)
Fixpoint remove_commas (s : string) : string :=
  match s with
  | EmptyString => EmptyString
  | String c r =>
      if Ascii.eqb c "," then remove_commas r else String c (remove_commas r)
  end.

(** The body of the innermost [if] of listener 2: no [try] around the
    ledger calls, the entry is deleted on the last line only. *)
Definition repay (now : Z) (m : message) (p : pending) : M world unit :=
  db (applyInterest now);;
  logs ← db (payDebt (userId p) (amount p));
  (if (0 <? length logs)%nat
   then reply (message_id m)
          ("💸 **Confirmed:**" +:+ newline +:+ join newline logs)
   else reply (message_id m) (no_debts_reply (userId p)));;
  ((fun w => (Ok tt, repayments_delete (channel_id m) w)) : M world unit).

(** Listener 2. *)
Definition onMudaeMessage (now : Z) (m : message) : M world unit :=
  fun w =>
  if negb (String.eqb (author_id m) MUDAE_ID) then (Ok tt, w)
  else if negb (isTrackingEnabled w) then (Ok tt, w)
  else
    match pendingRepayments w !! channel_id m with
    | None => (Ok tt, w)
    | Some p =>
        match mudaeRegex (content m) with
        | Some capture =>
            let removedAmount := JS.parseInt (remove_commas capture) in
            if bool_decide (removedAmount = Some (amount p)) then repay now m p w
            else (Ok tt, w)
        | None => (Ok tt, w)
        end
    end.

(** The two [messageCreate] listeners, in the order of registration. *)
Definition messageCreate (ADMIN_IDS : list string) (now : Z) (m : message)
  : M world unit :=
  onAdminMessage ADMIN_IDS now m;; onMudaeMessage now m.

End Part000.

(** ** src/unnamed/part_001, first document: loose parsing *)

Module Part001.
Import Ledger Discord Split.

(** The [try] block of listener 2. *)
Definition repay (now : Z) (m : message) (p : pending) : M world unit :=
  db (applyInterest now);;
  logs ← db (payDebt (userId p) (amount p));
  if (0 <? length logs)%nat
  then reply (message_id m)
         ("💸 **Repayment Confirmed:**" +:+ newline +:+ join newline logs)
  else reply (message_id m) (no_debts_reply (userId p)).

(** Listener 2: no test of [isTrackingEnabled]. *)
Definition onMudaeMessage (now : Z) (m : message) : M world unit :=
  fun w =>
  if negb (String.eqb (author_id m) MUDAE_ID) then (Ok tt, w)
  else
    match pendingRepayments w !! channel_id m with
    | None => (Ok tt, w)
    | Some p =>
        let content := JS.toLowerCase (content m) in
        let hasAmount := JS.includes content (JS.toString (amount p)) in
        let hasKeyword := JS.includes content "removed" in
        if hasAmount && hasKeyword then
          try_finally (try_catch (repay now m p) (mret tt))
            (repayments_delete (channel_id m)) w
        else (Ok tt, w)
    end.

Definition messageCreate (ADMIN_IDS : list string) (now : Z) (m : message)
  : M world unit :=
  onAdminMessage ADMIN_IDS now m;; onMudaeMessage now m.

End Part001.

(** ** src/unnamed/part_001, second document: the trigger is applied at once *)

Module Legacy.
Import Ledger Discord.

Record world : Type := World {
  outside : env;
  sent : list (string * string)
}.

Definition ledger (w : world) : list debt * Z := contents (outside w).

Definition db {A} (m : Db A) : M world A := fun w =>
  let '(r, e) := m (outside w) in (r, {| outside := e; sent := sent w |}).

(** [message.react(emoji)] *)
Definition react : M world unit := db call.

(** [message.channel.send(text)] *)
Definition send (channel text : string) : M world unit :=
  db call;; ((fun w =>
    (Ok tt, {| outside := outside w;
               sent := sent w ++ [(channel, text)] |})) : M world unit).

Definition messageCreate (adminIds : list string) (now : Z) (m : message)
  : M world unit :=
  if author_bot m || negb (bool_decide (author_id m ∈ adminIds))
  then mret tt
  else if JS.includes (JS.toLowerCase (content m)) "#exempt" then mret tt
  else
    match giveRegex (content m) with
    | Some (userId, digits) =>
        match JS.parseInt digits with
        | Some amount =>
            db (applyInterest now);;
            debtId ← db (logDebt now userId (author_id m) amount
                           "Auto-detected");
            react;;
            send (channel_id m)
              ("📉 **Debt Recorded:** <@" +:+ userId +:+ "> borrowed **" +:+
               JS.toString amount +:+ "k** (ID: " +:+ JS.toString debtId
               +:+ ").")
        | None => mret tt
        end
    | None =>
        match takeRegex (content m) with
        | Some (userId, digits) =>
            match JS.parseInt digits with
            | Some amount =>
                db (applyInterest now);;
                logs ← db (payDebt userId amount);
                react;;
                if (0 <? length logs)%nat
                then send (channel_id m)
                       ("**Repayment Recorded:**" +:+ newline +:+
                        join newline logs)
                else send (channel_id m) (no_debts_reply userId)
            | None => mret tt
            end
        | None => mret tt
        end
    end.

End Legacy.

(** ** Vocabulary of the statements *)

Module Spec.
Import Ledger Discord.

(** The row that the loop body of [applyInterest] leaves for [d]. *)
Definition accrued (now : Z) (d : debt) : debt :=
  if is_open d && (0 <? weeksPassed now d) then
    match JS.to_int (newAmount now d) with
    | Some a => if in_integer a then set_interest a (newDate now d) d else d
    | None => d
    end
  else d.

(** The compounded amount of [d] is an integer of the range of
    [INTEGER], so that its [UPDATE] is accepted. *)
Definition accruable (now : Z) (d : debt) : Prop :=
  is_open d = true -> 0 < weeksPassed now d ->
  exists a, JS.to_int (newAmount now d) = Some a /\ in_integer a = true.

Definition total_remaining (l : list debt) : Z :=
  foldr (fun d acc => amount_remaining d + acc) 0 l.

(** A number that is the integer [v]: zero, or a positive normal
    binary64 of that value. *)
Definition holds (y : JS.number) (v : Z) : Prop :=
  match y with
  | S754_zero false => v = 0
  | S754_finite false m e =>
      Z.pos (digits2_pos m) = 53 /\ -52 <= e <= 971 /\
      Z.pos m * 2 ^ (e + 52) = v * 2 ^ 52
  | _ => False
  end.

(** A positive normal binary64 that is not below the integer [v]. *)
Definition reaches (y : JS.number) (v : Z) : Prop :=
  match y with
  | S754_finite false m e =>
      Z.pos (digits2_pos m) = 53 /\ -52 <= e <= 971 /\
      v * 2 ^ 52 <= Z.pos m * 2 ^ (e + 52)
  | _ => False
  end.

(** [reaction.fetch()] is called and rejects. *)
Definition fetch_rejects (r : reaction) (s : env) : bool :=
  partial r && default false (head (faults s)).

End Spec.

(** ** Ledgers and events used as instances *)

Module Scenario.
Import Ledger.

Definition c3_debt : debt :=
  Debt 7 "1001" "9" 1000 1000 0 0 Open "Verified by Mudae".

Definition c3_other : debt :=
  Debt 8 "1002" "9" 40 40 (3 * MS_PER_DAY) (3 * MS_PER_DAY) Open "".

Definition c3_env : env := Env [c3_other; c3_debt] 9 [].

(** A debt dated eight days after the clock reading [c4_now]. *)
Definition c4_now : Z := 100 * MS_PER_DAY.

Definition c4_debt : debt :=
  Debt 1 "1001" "9" 1000 1000 (108 * MS_PER_DAY) (108 * MS_PER_DAY) Open "".

Definition c4_env : env := Env [c4_debt] 2 [].

(** A debt that is four days old on day 16, between two debts that are
    due then. *)
Definition c4_idle : debt :=
  Debt 9 "1003" "9" 200 200 (12 * MS_PER_DAY) (12 * MS_PER_DAY) Open "".

Definition c4_mixed : env := Env [c3_other; c4_idle; c3_debt] 10 [].

(** A borrower with two open debts, stored newest first, a debt of
    someone else and a settled debt of the borrower. *)
Definition c5_A : debt := Debt 1 "1001" "9" 500 500 1000 1000 Open "".
Definition c5_B : debt := Debt 2 "1001" "9" 800 800 2000 2000 Open "".
Definition c5_other : debt := Debt 3 "1002" "9" 70 70 1500 1500 Open "".
Definition c5_settled : debt := Debt 4 "1001" "9" 30 0 500 500 Paid "".

Definition c5_env : env := Env [c5_B; c5_other; c5_A; c5_settled] 5 [].

End Scenario.

Module IndexScenario.
Import Ledger Discord IndexJs.

Definition admins : list string := ["9"].

(** Two loan triggers under one message id, and Mudae's checkmark. *)
Definition first_trigger : message :=
  Message "900" "9" false "77" "$givescrap <@1001> 100".

Definition second_trigger : message :=
  Message "900" "9" false "77" "$GiveKakera  <@!1001> 250 thanks".

Definition checkmark : reaction := Reaction false "✅" "900" MUDAE_ID.

Definition start : world := World (Env [] 1 []) true ∅ [].

(** A repayment trigger under the same message id, and a ledger with
    one debt of that borrower. *)
Definition take_trigger : message :=
  Message "900" "9" false "77" "$takekakera <@1001> 120".

Definition owing : world :=
  World (Env [Debt 1 "1001" "9" 500 500 0 0 Open ""] 2 []) true ∅ [].

(** One loan awaiting its confirmation. *)
Definition awaiting : world :=
  World (Env [] 1 []) true {[ "900" := Action LOAN "9" "1001" 100 5000 ]} [].

(** The same, with an oracle that lets [pool.connect], the [SELECT] and
    the second [pool.connect] through and rejects the [INSERT]. *)
Definition awaiting_insert_fails : world :=
  with_faults [false; false; false; true] awaiting.

End IndexScenario.

Module SplitScenario.
Import Ledger Discord Split.

Definition admins : list string := ["9"].

Definition owed : debt := Debt 1 "1001" "9" 500 500 0 0 Open "".

Definition start : world := World (Env [owed] 2 []) true ∅ ∅ [].

Definition take_trigger : message :=
  Message "900" "9" false "77" "$takekakera <@1001> 100".

(** Mudae's message for a removal of 100, and one for a removal of 1000. *)
Definition removed_100 : message :=
  Message "901" MUDAE_ID true "77" "**100** removed (added to $)".

Definition removed_1000 : message :=
  Message "902" MUDAE_ID true "77" "**1000** removed (added to $)".

(** The trigger is registered by the [messageCreate] listeners of a
    revision, then [/debt_toggle mode:off] is run. *)
Definition switched_off
    (messageCreate : list string -> Z -> message -> M world unit) : world :=
  exec (debt_toggle admins "9" "off")
    (exec (messageCreate admins 1000 take_trigger) start).

(** A repayment of 100 awaiting its confirmation in channel 77. *)
Definition awaiting : world :=
  World (Env [owed] 2 []) true ∅ {[ "77" := Pending "9" "1001" 100 1000 ]} [].

(** The same, with an oracle that lets [pool.connect] and the [SELECT] of
    [applyInterest] through and rejects the [pool.connect] of [payDebt]. *)
Definition awaiting_connect_fails : world :=
  with_faults [false; false; true] awaiting.

End SplitScenario.

Module LegacyScenario.
Import Ledger Discord Legacy.

Definition start : world := World (Env [] 1 []) [].

Definition give_trigger : message :=
  Message "900" "9" false "77" "$givescrap <@1001> 100".

End LegacyScenario.

(** ** Vocabulary of the further properties *)

Module Laws.
Import Ledger Discord.

(** The primary key and the sequence: ids are unique and were all drawn
    from the sequence. *)
Definition well_formed (s : env) : Prop :=
  NoDup (map debt_id (table s)) /\
  Forall (fun d => debt_id d < serial s) (table s).

(** The columns that no statement of the ledger functions writes. *)
Definition same_identity (r r' : debt) : Prop :=
  debt_id r' = debt_id r /\ borrower_id r' = borrower_id r /\
  admin_id r' = admin_id r /\ amount_initial r' = amount_initial r /\
  created_at r' = created_at r /\ note r' = note r.

(** What the loop of [payDebt] leaves of a row [r] of the table, when it
    walks the list [l] with [remaining] in hand. *)
Fixpoint settle (l : list debt) (remaining : Z) (r : debt) : debt :=
  match l with
  | [] => r
  | d :: rest =>
      if remaining <=? 0 then r
      else if amount_remaining d <=? remaining then
        settle rest (remaining - amount_remaining d)
          (if debt_id r =? debt_id d then set_paid r else r)
      else
        if debt_id r =? debt_id d
        then set_remaining (amount_remaining d - remaining) r else r
  end.

(** The outcomes that the loop pushes. *)
Fixpoint outcomes (l : list debt) (remaining : Z) : list string :=
  match l with
  | [] => []
  | d :: rest =>
      if remaining <=? 0 then []
      else if amount_remaining d <=? remaining then
        log_paid d :: outcomes rest (remaining - amount_remaining d)
      else
        [log_reduced d remaining (amount_remaining d - remaining)]
  end.

(** The rows of [s'] are those of [s], each rewritten by one function
    that respects [Q]; the sequence is the same. *)
Definition remapped (Q : debt -> debt -> Prop) (s s' : env) : Prop :=
  serial s' = serial s /\
  exists g, table s' = map g (table s) /\ forall r, Q r (g r).

(** What [applyInterest] may do to a row when it walks the ids [ids]. *)
Definition accrual_step (ids : list Z) (r r' : debt) : Prop :=
  same_identity r r' /\ debt_status r' = debt_status r /\
  (debt_id r ∉ ids -> r' = r).

(** What [payDebt] may do to a row when it walks the ids [ids]. *)
Definition payment_step (ids : list Z) (r r' : debt) : Prop :=
  same_identity r r' /\ last_interest_at r' = last_interest_at r /\
  (debt_id r ∉ ids -> r' = r).

Definition by_created_at (x y : debt) : Prop := created_at x <= created_at y.

(** An entry is older than the retention window of the cleanup timer. *)
Definition expired (now timestamp : Z) : Prop := 300000 < now - timestamp.

(** The ledger functions as the handlers come to call them, one after
    another, each call under an oracle of its own. *)
Inductive operation : Type :=
| Accrue (now : Z)
| Lend (now : Z) (borrowerId adminId : string) (amount : Z) (note : string)
| Repay (borrowerId : string) (amount : Z)
| Remove (id : Z).

Definition perform (o : operation) (s : env) : env :=
  match o with
  | Accrue now => exec (applyInterest now) s
  | Lend now borrowerId adminId amount note =>
      exec (logDebt now borrowerId adminId amount note) s
  | Repay borrowerId amount => exec (payDebt borrowerId amount) s
  | Remove id => exec (pool_connect;; query_delete id) s
  end.

Definition history (steps : list (list bool * operation)) (s : env) : env :=
  foldl (fun s step => perform step.2 (refault step.1 s)) s steps.

End Laws.

Module LawScenario.
Import Ledger Discord.

(** [part_000] and [part_001]: one loan awaiting Mudae's checkmark. *)
Definition awaiting_loan : Split.world :=
  Split.World (Env [] 1 []) true
    {[ "900" := Split.Pending "9" "1001" 100 5000 ]} ∅ [].

(** A repayment awaiting its confirmation, under an oracle that lets the
    five ledger calls through and rejects [message.reply]. *)
Definition awaiting_reply_fails : Split.world :=
  Split.with_faults [false; false; false; false; false; true]
    SplitScenario.awaiting.

(** What a borrower can send: a trigger, a checkmark, Mudae's text. *)
Definition borrower_trigger : message :=
  Message "903" "1001" false "77" "$takekakera <@1001> 500".

Definition borrower_checkmark : reaction := Reaction true "✅" "900" "1001".

Definition borrower_removed : message :=
  Message "904" "1001" false "77" "**100** removed (added to $)".

(** [src/index.js] with the ledger of [Scenario.c5_env]. *)
Definition five_debts : IndexJs.world :=
  IndexJs.World Scenario.c5_env true ∅ [].

End LawScenario.

(** * Properties *)

(** ** Control *)

Lemma bind_run {S A B} (m : M S A) (f : A -> M S B) (s : S) :
  (m ≫= f) s =
  match m s with
  | (Ok a, s') => f a s'
  | (Throw, s') => (Throw, s')
  end.
Proof. reflexivity. Qed.


(** ** Binary64: [Math.ceil(x * 1.05)] never goes down *)

Section Binary64.
Import Ledger Spec.

Lemma digits2_bounds (p : positive) :
  2 ^ (Z.pos (digits2_pos p) - 1) <= Z.pos p < 2 ^ Z.pos (digits2_pos p).
Proof.
  induction p as [p IH|p IH|]; simpl digits2_pos.
  - rewrite Pos2Z.inj_succ, (Pos2Z.inj_xI p).
    replace (Z.succ (Z.pos (digits2_pos p)) - 1)
      with (Z.succ (Z.pos (digits2_pos p) - 1)) by lia.
    rewrite !Z.pow_succ_r by lia.
    set (A := 2 ^ (Z.pos (digits2_pos p) - 1)) in *.
    set (B := 2 ^ Z.pos (digits2_pos p)) in *. clearbody A B. lia.
  - rewrite Pos2Z.inj_succ, (Pos2Z.inj_xO p).
    replace (Z.succ (Z.pos (digits2_pos p)) - 1)
      with (Z.succ (Z.pos (digits2_pos p) - 1)) by lia.
    rewrite !Z.pow_succ_r by lia.
    set (A := 2 ^ (Z.pos (digits2_pos p) - 1)) in *.
    set (B := 2 ^ Z.pos (digits2_pos p)) in *. clearbody A B. lia.
  - simpl. lia.
Qed.

Lemma digits2_unique (p : positive) (d : Z) :
  2 ^ (d - 1) <= Z.pos p < 2 ^ d -> Z.pos (digits2_pos p) = d.
Proof.
  intros [Hlo Hhi]. pose proof (digits2_bounds p) as [Hlo' Hhi'].
  assert (0 < d).
  { destruct (Z_lt_le_dec 0 d) as [?|Hd]; [done|].
    assert (2 ^ d <= 1); [|lia].
    destruct (Z.eq_dec d 0) as [->|?]; [simpl; lia|].
    rewrite Z.pow_neg_r by lia. lia. }
  assert (d - 1 < Z.pos (digits2_pos p)).
  { apply (Z.pow_lt_mono_r_iff 2); lia. }
  assert (Z.pos (digits2_pos p) - 1 < d).
  { apply (Z.pow_lt_mono_r_iff 2); lia. }
  lia.
Qed.

Lemma iter_xO_value (p k : positive) :
  Z.pos (Pos.iter xO p k) = Z.pos p * 2 ^ Z.pos k.
Proof.
  induction k as [|k IH] using Pos.peano_ind.
  - simpl. lia.
  - rewrite Pos.iter_succ, Pos2Z.inj_xO, IH, Pos2Z.inj_succ.
    rewrite Z.pow_succ_r by lia. lia.
Qed.

Lemma iter_xO_digits (p k : positive) :
  Z.pos (digits2_pos (Pos.iter xO p k)) = Z.pos (digits2_pos p) + Z.pos k.
Proof.
  induction k as [|k IH] using Pos.peano_ind.
  - simpl. lia.
  - rewrite Pos.iter_succ. simpl digits2_pos.
    rewrite Pos2Z.inj_succ, IH. lia.
Qed.

Lemma shr_1_m (r : shr_record) :
  0 <= shr_m r -> shr_m (shr_1 r) = shr_m r / 2.
Proof.
  destruct r as [m r s]. simpl. intros Hm.
  destruct m as [|[p|p|]|p]; simpl shr_m; [reflexivity| | |reflexivity|lia].
  - apply Z.div_unique with 1; lia.
  - apply Z.div_unique with 0; lia.
Qed.

Lemma shr_iter_m (p : positive) :
  forall r, 0 <= shr_m r ->
  shr_m (SpecFloat.iter_pos shr_1 p r) = shr_m r / 2 ^ Z.pos p.
Proof.
  induction p as [p IH|p IH|]; intros r Hr; simpl SpecFloat.iter_pos.
  - assert (H1 : 0 <= shr_m (shr_1 r))
      by (rewrite shr_1_m by done; apply Z.div_pos; lia).
    assert (H2 : 0 <= shr_m (SpecFloat.iter_pos shr_1 p (shr_1 r)))
      by (rewrite IH by done; apply Z.div_pos; [done|apply Z.pow_pos_nonneg; lia]).
    rewrite IH, IH, shr_1_m by done.
    rewrite !Z.div_div by (try apply Z.pow_pos_nonneg; lia).
    f_equal. rewrite Pos2Z.inj_xI, <- Z.pow_add_r by lia.
    replace (2 * Z.pos p + 1) with (Z.succ (Z.pos p + Z.pos p)) by lia.
    rewrite Z.pow_succ_r by lia. done.
  - assert (H2 : 0 <= shr_m (SpecFloat.iter_pos shr_1 p r))
      by (rewrite IH by done; apply Z.div_pos; [done|apply Z.pow_pos_nonneg; lia]).
    rewrite IH, IH by done.
    rewrite !Z.div_div by (try apply Z.pow_pos_nonneg; lia).
    f_equal. rewrite Pos2Z.inj_xO, <- Z.pow_add_r by lia.
    f_equal. lia.
  - rewrite shr_1_m by done. done.
Qed.

Lemma round_nearest_even_bounds (m : Z) (l : location) :
  m <= round_nearest_even m l <= m + 1.
Proof.
  destruct l as [|[]]; simpl; try lia. destruct (Z.even m); lia.
Qed.

Lemma lit_1_05_value :
  JS.lit_1_05 = S754_finite false 4728779608739021 (-52).
Proof. vm_compute. reflexivity. Qed.

(** A mantissa of 53 digits under an exponent in range is left as it is
    by the rounding. *)
Lemma round_aux_exact (m : positive) (e : Z) :
  Z.pos (digits2_pos m) = 53 -> -1074 <= e <= 971 ->
  binary_round_aux 53 1024 false (Z.pos m) e loc_Exact = S754_finite false m e.
Proof.
  intros Hd He. unfold binary_round_aux, shr_fexp.
  assert (H0 : fexp 53 1024 (Zdigits2 (Z.pos m) + e) - e = 0)
    by (unfold fexp, emin; simpl Zdigits2; lia).
  rewrite H0. cbn [shr shr_record_of_loc loc_of_shr_record
                   round_nearest_even shr_m].
  rewrite H0. cbn [shr shr_record_of_loc shr_m].
  replace (e <=? 1024 - 53) with true; [done|].
  symmetry. apply Z.leb_le. lia.
Qed.

(** An integer below 2^53 is its own binary64. *)
Lemma of_int_holds (z : Z) : 0 <= z < 2 ^ 53 -> holds (JS.of_int z) z.
Proof.
  intros Hz. destruct z as [|p|p]; [done| |lia].
  unfold JS.of_int, JS.prec, JS.emax, binary_normalize, binary_round.
  pose proof (digits2_bounds p) as [Hlo Hhi].
  set (d := Z.pos (digits2_pos p)) in *.
  assert (Hd : 1 <= d <= 53).
  { split; [unfold d; lia|].
    assert (d - 1 < 53); [|lia]. apply (Z.pow_lt_mono_r_iff 2); lia. }
  assert (Hf : fexp 53 1024 (d + 0) = d - 53)
    by (unfold fexp, emin; lia).
  rewrite Hf. unfold shl_align.
  destruct (d - 53 - 0) as [|k|k] eqn:Ek; [|lia|].
  - assert (d = 53) by lia.
    rewrite round_aux_exact by (fold d; lia).
    simpl. fold d. split; [done|]. split; [lia|]. done.
  - assert (Hk : Z.pos k = 53 - d) by lia.
    rewrite round_aux_exact
      by (rewrite ?iter_xO_digits; fold d; lia).
    simpl. rewrite iter_xO_digits, iter_xO_value. fold d.
    split; [lia|]. split; [lia|].
    rewrite <- Z.mul_assoc, <- Z.pow_add_r by lia.
    do 2 f_equal. lia.
Qed.

(** The rounding of a mantissa of [53 + n] digits: its [n] low digits
    are dropped, and the result is the quotient or the next number. *)
Lemma round_aux_drops (M : positive) (E : Z) (n : positive) :
  Z.pos (digits2_pos M) = 53 + Z.pos n ->
  -1074 <= E + Z.pos n ->
  let y := binary_round_aux 53 1024 false (Z.pos M) E loc_Exact in
  y = S754_infinity false \/
  exists m e,
    y = S754_finite false m e /\ Z.pos (digits2_pos m) = 53 /\ e <= 971 /\
    (e = E + Z.pos n /\ Z.pos M / 2 ^ Z.pos n <= Z.pos m \/
     e = E + Z.pos n + 1 /\ Z.pos m = 2 ^ 52).
Proof.
  intros Hd HE y. unfold y, binary_round_aux, shr_fexp.
  assert (Hn : fexp 53 1024 (Zdigits2 (Z.pos M) + E) - E = Z.pos n)
    by (unfold fexp, emin; simpl Zdigits2; lia).
  rewrite Hn. cbn [shr shr_record_of_loc].
  set (R := SpecFloat.iter_pos shr_1 n _).
  assert (HR : shr_m R = Z.pos M / 2 ^ Z.pos n)
    by (unfold R; by rewrite shr_iter_m).
  pose proof (round_nearest_even_bounds (shr_m R) (loc_of_shr_record R))
    as Hround.
  set (m1 := round_nearest_even (shr_m R) (loc_of_shr_record R)) in *.
  clearbody m1. rewrite HR in Hround. clear HR R.
  pose proof (digits2_bounds M) as [Hlo Hhi]. rewrite Hd in Hlo, Hhi.
  replace (53 + Z.pos n - 1) with (52 + Z.pos n) in Hlo by lia.
  rewrite Z.pow_add_r in Hlo, Hhi by lia.
  assert (Hp : 0 < 2 ^ Z.pos n) by (apply Z.pow_pos_nonneg; lia).
  set (q := Z.pos M / 2 ^ Z.pos n) in *.
  assert (Hq : 2 ^ 52 <= q < 2 ^ 53).
  { unfold q. split.
    - apply Z.div_le_lower_bound; lia.
    - apply Z.div_lt_upper_bound; lia. }
  destruct m1 as [|p1|p1]; [lia| |lia].
  destruct (Z_lt_le_dec (Z.pos p1) (2 ^ 53)) as [Hsmall|Hbig].
  - assert (Hd1 : Z.pos (digits2_pos p1) = 53)
      by (apply digits2_unique; lia).
    assert (H0 : fexp 53 1024 (Zdigits2 (Z.pos p1) + (E + Z.pos n))
                 - (E + Z.pos n) = 0)
      by (unfold fexp, emin; simpl Zdigits2; lia).
    rewrite H0. cbn [shr shr_record_of_loc shr_m].
    destruct (E + Z.pos n <=? 1024 - 53) eqn:Hfit; [|by left].
    apply Z.leb_le in Hfit. right. exists p1, (E + Z.pos n).
    split; [done|]. split; [done|]. split; [lia|]. left. lia.
  - assert (Hp1 : Z.pos p1 = 2 ^ 53) by lia.
    assert (Hd1 : Z.pos (digits2_pos p1) = 54)
      by (apply digits2_unique; rewrite Hp1; simpl; lia).
    assert (H1 : fexp 53 1024 (Zdigits2 (Z.pos p1) + (E + Z.pos n))
                 - (E + Z.pos n) = 1)
      by (unfold fexp, emin; simpl Zdigits2; lia).
    rewrite H1. cbn [shr shr_record_of_loc SpecFloat.iter_pos].
    assert (Hhalf : shr_m (shr_1 (Build_shr_record (Z.pos p1) false false))
                    = 2 ^ 52).
    { rewrite shr_1_m by (simpl; lia). simpl shr_m. rewrite Hp1. done. }
    destruct (shr_m (shr_1 _)) as [|p2|p2]; [done| |done].
    destruct (E + Z.pos n + 1 <=? 1024 - 53) eqn:Hfit; [|by left].
    apply Z.leb_le in Hfit. right. exists p2, (E + Z.pos n + 1).
    split; [done|]. split; [|split; [lia|right; done]].
    apply digits2_unique. rewrite Hhalf. simpl. lia.
Qed.

(** The product with 1.05 of a number that is the integer [v] is not
    below [v]. *)
Lemma mul_reaches (y : JS.number) (v : Z) :
  holds y v -> 1 <= v ->
  JS.mul y JS.lit_1_05 = S754_infinity false \/
  reaches (JS.mul y JS.lit_1_05) v.
Proof.
  intros Hy Hv. rewrite lit_1_05_value.
  destruct y as [[]|[]| |[] m e]; simpl in Hy; try done; [lia|].
  destruct Hy as (Hd & He & Hval).
  unfold JS.mul, JS.prec, JS.emax, SFmul. cbn [xorb].
  pose proof (digits2_bounds m) as [Hlo Hhi]. rewrite Hd in Hlo, Hhi.
  change (2 ^ (53 - 1)) with 4503599627370496 in Hlo.
  change (2 ^ 53) with 9007199254740992 in Hhi.
  set (M := (m * 4728779608739021)%positive).
  assert (HM : Z.pos M = Z.pos m * 4728779608739021)
    by (unfold M; by rewrite Pos2Z.inj_mul).
  assert (Hpow : 0 < 2 ^ (e + 52)) by (apply Z.pow_pos_nonneg; lia).
  assert (Hcases :
    Z.pos (digits2_pos M) = 53 + 52 /\
    Z.pos m <= Z.pos M / 2 ^ 52 \/
    Z.pos (digits2_pos M) = 53 + 53).
  { destruct (Z_lt_le_dec (Z.pos M) (2 ^ 105)) as [Hsmall|Hbig].
    - left. split.
      + apply digits2_unique. split; [|done].
        change (2 ^ (53 + 52 - 1)) with 20282409603651670423947251286016.
        lia.
      + apply Z.div_le_lower_bound; [done|].
        change (2 ^ 52) with 4503599627370496. lia.
    - right. apply digits2_unique. split; [done|].
      change (2 ^ (53 + 53)) with 81129638414606681695789005144064. lia. }
  destruct Hcases as [[HdM Hq]|HdM].
  - destruct (round_aux_drops M (e + -52) 52 HdM ltac:(lia))
      as [Hinf|(m' & e' & Hfin & Hd' & He' & Hshape)]; [by left|].
    right. rewrite Hfin. simpl.
    split; [done|]. destruct Hshape as [[-> Hm']|[-> Hm']].
    + split; [lia|]. replace (e + -52 + 52 + 52) with (e + 52) by lia.
      rewrite <- Hval. apply Z.mul_le_mono_nonneg_r; lia.
    + split; [lia|]. replace (e + -52 + 52 + 1 + 52) with (Z.succ (e + 52))
        by lia.
      rewrite Z.pow_succ_r, Hm', <- Hval by lia.
      change (2 ^ 52) with 4503599627370496. nia.
  - destruct (round_aux_drops M (e + -52) 53 HdM ltac:(lia))
      as [Hinf|(m' & e' & Hfin & Hd' & He' & Hshape)]; [by left|].
    right. rewrite Hfin. simpl.
    pose proof (digits2_bounds m') as [Hlo' Hhi']. rewrite Hd' in Hlo', Hhi'.
    change (2 ^ (53 - 1)) with 4503599627370496 in Hlo'.
    split; [done|]. destruct Hshape as [[-> Hm']|[-> Hm']].
    + split; [lia|]. replace (e + -52 + 53 + 52) with (Z.succ (e + 52))
        by lia.
      rewrite Z.pow_succ_r, <- Hval by lia. nia.
    + split; [lia|].
      replace (e + -52 + 53 + 1 + 52) with (Z.succ (Z.succ (e + 52)))
        by lia.
      rewrite !Z.pow_succ_r, <- Hval by lia. nia.
Qed.

(** [Math.ceil] of a number that is not below the integer [v] is an
    integer that is not below [v]. *)
Lemma ceil_holds (y : JS.number) (v : Z) :
  reaches y v -> exists v', holds (JS.Math_ceil y) v' /\ v <= v'.
Proof.
  destruct y as [[]|[]| |[] m e]; simpl; try done.
  intros (Hd & He & Hval).
  pose proof (digits2_bounds m) as [Hlo Hhi]. rewrite Hd in Hlo, Hhi.
  change (2 ^ (53 - 1)) with (2 ^ 52) in Hlo.
  destruct (0 <=? e) eqn:Hsign.
  - apply Z.leb_le in Hsign. exists (Z.pos m * 2 ^ e). simpl.
    rewrite Z.pow_add_r in * by lia.
    assert (0 < 2 ^ e) by (apply Z.pow_pos_nonneg; lia).
    split; [split; [done|split; [lia|lia]]|].
    change (2 ^ 52) with 4503599627370496 in *. nia.
  - apply Z.leb_gt in Hsign.
    set (d := 2 ^ (- e)).
    assert (Hd2 : 2 <= d <= 2 ^ 52).
    { unfold d. split.
      - change 2 with (2 ^ 1) at 1. apply Z.pow_le_mono_r; lia.
      - apply Z.pow_le_mono_r; lia. }
    assert (Hsplit : 2 ^ 52 = 2 ^ (e + 52) * d).
    { unfold d. rewrite <- Z.pow_add_r by lia. f_equal. lia. }
    assert (Hpow : 0 < 2 ^ (e + 52)) by (apply Z.pow_pos_nonneg; lia).
    assert (Hv : v * d <= Z.pos m).
    { rewrite Hsplit in Hval. nia. }
    set (z := if Z.pos m mod d =? 0 then Z.pos m / d else Z.pos m / d + 1).
    assert (Hq : v <= Z.pos m / d /\ 1 <= Z.pos m / d /\
                 2 * (Z.pos m / d) <= Z.pos m).
    { split; [apply Z.div_le_lower_bound; lia|].
      assert (1 <= Z.pos m / d) by (apply Z.div_le_lower_bound; lia).
      split; [done|].
      pose proof (Z.mul_div_le (Z.pos m) d ltac:(lia)). nia. }
    assert (Hz : 1 <= z < 2 ^ 53 /\ v <= z).
    { change (2 ^ 53) with 9007199254740992 in *.
      unfold z. set (q := Z.pos m / d) in *. clearbody q.
      clear -Hq Hhi. destruct (_ =? 0); lia. }
    exists z. split; [|lia].
    apply (of_int_holds z). lia.
Qed.

Lemma to_int_holds (y : JS.number) (v : Z) :
  holds y v -> JS.to_int y = Some v.
Proof.
  destruct y as [[]|[]| |[] m e]; simpl; try done; [by intros ->|].
  intros (Hd & He & Hval).
  destruct (0 <=? e) eqn:Hsign.
  - apply Z.leb_le in Hsign. simpl. f_equal.
    rewrite Z.pow_add_r in Hval by lia.
    change (2 ^ 52) with 4503599627370496 in Hval. lia.
  - apply Z.leb_gt in Hsign.
    assert (Hsplit : 2 ^ 52 = 2 ^ (e + 52) * 2 ^ (- e)).
    { rewrite <- Z.pow_add_r by lia. f_equal. lia. }
    assert (Hpow : 0 < 2 ^ (e + 52)) by (apply Z.pow_pos_nonneg; lia).
    assert (Hd2 : 0 < 2 ^ (- e)) by (apply Z.pow_pos_nonneg; lia).
    assert (Hm : Z.pos m = v * 2 ^ (- e)).
    { rewrite Hsplit in Hval. nia. }
    rewrite Hm, Z.mod_mul, Z.div_mul by lia. done.
Qed.

(** The loop of [applyInterest]: from an amount that is not negative
    (and below 2^53) the compounded amount is infinite or an integer
    that is not below it. *)
Lemma compound_grows (x : Z) (weeks : nat) :
  0 <= x < 2 ^ 53 ->
  compound weeks x = S754_infinity false \/
  exists v, holds (compound weeks x) v /\ x <= v.
Proof.
  intros Hx. unfold compound.
  induction weeks as [|k IH]; simpl.
  - right. exists x. split; [by apply of_int_holds|lia].
  - destruct IH as [-> | (v & Hv & Hle)].
    + left. by rewrite lit_1_05_value.
    + destruct (Z.eq_dec v 0) as [-> | Hne].
      * right. exists 0. split; [|lia].
        destruct (Nat.iter k _ _) as [[]|[]| |[] m e]; simpl in Hv;
          try done; try (by rewrite lit_1_05_value).
        destruct Hv as (_ & He & Hval).
        assert (0 < 2 ^ (e + 52)) by (apply Z.pow_pos_nonneg; lia). nia.
      * destruct (mul_reaches _ v Hv ltac:(lia)) as [-> | Hreach];
          [by left|].
        right. destruct (ceil_holds _ v Hreach) as (v' & Hv' & Hle').
        exists v'. split; [done|lia].
Qed.

(** An accepted amount is not below the balance it was compounded
    from. *)
Lemma compound_not_below (x a : Z) (weeks : nat) :
  0 <= x < 2 ^ 53 -> JS.to_int (compound weeks x) = Some a -> x <= a.
Proof.
  intros Hx Ha. destruct (compound_grows x weeks Hx) as [Hinf | (v & Hv & Hle)].
  - by rewrite Hinf in Ha.
  - rewrite (to_int_holds _ _ Hv) in Ha. by injection Ha as <-.
Qed.

End Binary64.

(** ** The ledger *)

Section LedgerFacts.
Import Ledger.

Lemma exec_bind {S A B} (m : M S A) (f : A -> M S B) (s : S) :
  exec (m ≫= f) s =
  match m s with
  | (Ok a, s') => exec (f a) s'
  | (Throw, s') => s'
  end.
Proof. unfold exec. rewrite bind_run. by destruct (m s) as [[a|] s']. Qed.

Lemma exec_try_catch_skip {S} (body : M S unit) (s : S) :
  try_catch body (mret tt) s = (Ok tt, exec body s).
Proof.
  unfold try_catch, exec. by destruct (body s) as [[[]|] s'].
Qed.

Lemma call_cases (s : env) :
  exists fs, call s = (Ok tt, refault fs s) \/ call s = (Throw, refault fs s).
Proof.
  unfold call, refault. destruct s as [t n [|[] fs]]; simpl; eauto.
Qed.

Lemma Forall2_map_in {A B} (P : A -> B -> Prop) (g : A -> B) (l : list A) :
  (forall x, x ∈ l -> P x (g x)) -> Forall2 P l (map g l).
Proof.
  induction l as [|x l IH]; intros H; simpl; constructor.
  - apply H. by left.
  - apply IH. intros y Hy. apply H. by right.
Qed.

Lemma Forall2_diag {A} (P : A -> A -> Prop) (l : list A) :
  (forall x, P x x) -> Forall2 P l l.
Proof. intros H. induction l; by constructor. Qed.

Lemma unique_by_id (t : list debt) (x y : debt) :
  NoDup (map debt_id t) -> x ∈ t -> y ∈ t -> debt_id x = debt_id y -> x = y.
Proof.
  intros Hnd Hx Hy Hid.
  apply list_elem_of_lookup in Hx as [i Hi], Hy as [j Hj].
  assert (i = j) as ->; [|congruence].
  eapply NoDup_lookup; [exact Hnd| |]; rewrite list_lookup_fmap.
  - by rewrite Hi.
  - by rewrite Hj, Hid.
Qed.

Lemma weeksPassed_nonneg (now : Z) (d : debt) : 0 <= weeksPassed now d.
Proof.
  unfold weeksPassed, MS_PER_DAY.
  apply Z.div_pos; [|lia]. apply Z.div_pos; lia.
Qed.

Lemma weeksPassed_zero (now : Z) (d : debt) :
  Z.abs (now - last_interest_at d) < 7 * MS_PER_DAY ->
  weeksPassed now d = 0.
Proof.
  unfold weeksPassed, MS_PER_DAY. intros H.
  rewrite Z.div_div by lia. apply Z.div_small. lia.
Qed.

Lemma weeksPassed_forward (now : Z) (d : debt) :
  last_interest_at d <= now ->
  weeksPassed now d = (now - last_interest_at d) / (7 * MS_PER_DAY).
Proof.
  intros H. unfold weeksPassed, MS_PER_DAY.
  rewrite Z.abs_eq by lia. rewrite Z.div_div by lia. f_equal.
Qed.



End LedgerFacts.

Section AccrualFacts.
Import Ledger Spec.

Lemma accrued_id (now : Z) (d : debt) : debt_id (accrued now d) = debt_id d.
Proof.
  unfold accrued. destruct (is_open d && _); [|reflexivity].
  destruct (JS.to_int _) as [a|]; [|reflexivity]. by destruct (in_integer a).
Qed.

Lemma accrued_status (now : Z) (d : debt) :
  debt_status (accrued now d) = debt_status d.
Proof.
  unfold accrued. destruct (is_open d && _); [|reflexivity].
  destruct (JS.to_int _) as [a|]; [|reflexivity]. by destruct (in_integer a).
Qed.

(** The row that the loop body leaves depends on the clock through the
    number of whole weeks only. *)
Lemma accrued_same_weeks (now1 now2 : Z) (d : debt) :
  weeksPassed now2 d = weeksPassed now1 d -> accrued now2 d = accrued now1 d.
Proof. intros H. unfold accrued, newAmount, newDate. by rewrite H. Qed.

Lemma accrued_idle (now : Z) (d : debt) :
  weeksPassed now d = 0 -> accrued now d = d.
Proof. intros H. unfold accrued. by rewrite H, andb_false_r. Qed.

(** Whatever the clock reads, the date written for a debt is not before
    the date it had. *)
Lemma accrued_date_forward (now : Z) (d : debt) :
  last_interest_at d <= last_interest_at (accrued now d).
Proof.
  unfold accrued. destruct (is_open d && _); [|lia].
  destruct (JS.to_int _) as [a|]; [|lia]. destruct (in_integer a); [|lia].
  simpl. unfold newDate.
  pose proof (weeksPassed_nonneg now d). unfold MS_PER_DAY. lia.
Qed.

(** Whatever the clock reads, the amount written for a balance that is
    not negative is not below it. *)
Lemma accrued_amount_grows (now : Z) (d : debt) :
  0 <= amount_remaining d < 2 ^ 53 ->
  amount_remaining d <= amount_remaining (accrued now d).
Proof.
  intros Hd. unfold accrued. destruct (is_open d && _); [|lia].
  destruct (JS.to_int _) as [a|] eqn:Ha; [|lia].
  destruct (in_integer a); [|lia]. simpl.
  by eapply compound_not_below.
Qed.

(** After the row was written, the clock is less than a week past its
    date until the next week of the debt begins. *)
Lemma accrued_again (now1 now2 : Z) (d : debt) :
  last_interest_at d <= now1 <= now2 ->
  (now1 - last_interest_at d) / (7 * MS_PER_DAY) =
  (now2 - last_interest_at d) / (7 * MS_PER_DAY) ->
  accrued now2 (accrued now1 d) = accrued now1 d.
Proof.
  intros Hle Hweek.
  pose proof (weeksPassed_forward now1 d (proj1 Hle)) as Hw1.
  pose proof (weeksPassed_forward now2 d ltac:(lia)) as Hw2.
  assert (Hsame : accrued now2 d = accrued now1 d)
    by (apply accrued_same_weeks; congruence).
  assert (Hday : 0 < 7 * MS_PER_DAY) by (unfold MS_PER_DAY; lia).
  pose proof (Z.mul_div_le (now2 - last_interest_at d) _ Hday) as Hlo.
  pose proof (Z.mul_succ_div_gt (now2 - last_interest_at d) _ Hday) as Hhi.
  rewrite <- Hweek, <- Hw1 in Hlo, Hhi.
  unfold accrued at 2 3.
  destruct (is_open d && (0 <? weeksPassed now1 d)) eqn:Hdue;
    [|by rewrite Hsame; unfold accrued; rewrite Hdue].
  destruct (JS.to_int (newAmount now1 d)) as [a|] eqn:Ha;
    [|by rewrite Hsame; unfold accrued; rewrite Hdue, Ha].
  destruct (in_integer a) eqn:Hr;
    [|by rewrite Hsame; unfold accrued; rewrite Hdue, Ha, Hr].
  apply accrued_idle, weeksPassed_zero. simpl. unfold newDate. lia.
Qed.

Lemma query_update_nil (f : debt -> debt) (i : Z) (t : list debt) (n : Z) :
  query_update f i (Env t n []) =
  (Ok tt, Env (map (fun d => if debt_id d =? i then f d else d) t) n []).
Proof. reflexivity. Qed.

(** One turn of the loop under any oracle: it throws and writes nothing,
    or returns and writes nothing, or writes the row of its debt. *)
Lemma accrue_cases (now : Z) (x : debt) (s : env) :
  is_open x = true ->
  (forall r, r ∈ table s -> debt_id r = debt_id x -> r = x) ->
  exists fs,
    accrue now x s = (Throw, refault fs s) \/
    accrue now x s = (Ok tt, refault fs s) \/
    accrue now x s =
      (Ok tt,
       Env (map (fun r => if debt_id r =? debt_id x then accrued now r else r)
              (table s)) (serial s) fs).
Proof.
  intros Hopen Hsnap. unfold accrue.
  destruct (0 <? weeksPassed now x) eqn:Hw;
    [|exists (faults s); right; left; by destruct s].
  assert (Hthrow : exists fs,
    ((call;; throw) : Db unit) s = (Throw, refault fs s)).
  { rewrite bind_run.
    destruct (call_cases s) as [fs [-> | ->]]; by exists fs. }
  unfold update_interest.
  destruct (JS.to_int (newAmount now x)) as [a|] eqn:Ha;
    [|destruct Hthrow as [fs ->]; eauto].
  destruct (in_integer a) eqn:Hr; [|destruct Hthrow as [fs ->]; eauto].
  unfold query_update. rewrite bind_run.
  destruct (call_cases s) as [fs [-> | ->]]; exists fs; [|by left].
  right. right. simpl. do 2 f_equal. apply map_ext_in.
  intros r Hr'%list_elem_of_In.
  destruct (debt_id r =? debt_id x) eqn:E; [|reflexivity].
  apply Z.eqb_eq in E. rewrite (Hsnap r Hr' E).
  unfold accrued. by rewrite Hopen, Hw, Ha, Hr.
Qed.

(** The loop under any oracle: every row is left as it is, or is the
    row of a listed debt and is written as the loop body computes it. *)
Lemma for_each_accrue_rows (now : Z) (l : list debt) :
  forall s,
  NoDup (map debt_id l) ->
  (forall x r, x ∈ l -> r ∈ table s -> debt_id r = debt_id x -> r = x) ->
  (forall x, x ∈ l -> is_open x = true) ->
  serial (exec (for_each l (accrue now)) s) = serial s /\
  Forall2 (fun r r' => r' = r \/
                       debt_id r ∈ map debt_id l /\ r' = accrued now r)
    (table s) (table (exec (for_each l (accrue now)) s)).
Proof.
  induction l as [|x l IH]; intros s Hnd Hsnap Hopen.
  - split; [done|]. apply Forall2_diag. by left.
  - simpl in Hnd. apply NoDup_cons in Hnd as [Hx Hnd].
    simpl for_each. rewrite exec_bind.
    assert (Hweaken : forall r r' : debt,
      r' = r \/ debt_id r ∈ map debt_id l /\ r' = accrued now r ->
      r' = r \/ debt_id r ∈ map debt_id (x :: l) /\ r' = accrued now r).
    { intros r r' [->|[Hin ->]]; [by left|right]. split; [by right|done]. }
    destruct (accrue_cases now x s) as [fs [-> | [-> | ->]]].
    + apply Hopen. by left.
    + intros r Hr. apply Hsnap; [by left|done].
    + split; [done|]. apply Forall2_diag. by left.
    + destruct (IH (refault fs s) Hnd) as [Hn Hrows].
      * intros y r Hy. apply Hsnap. by right.
      * intros y Hy. apply Hopen. by right.
      * split; [done|]. eapply Forall2_impl; [exact Hrows|exact Hweaken].
    + set (g := fun r => if debt_id r =? debt_id x then accrued now r else r).
      destruct (IH (Env (map g (table s)) (serial s) fs) Hnd) as [Hn Hrows].
      * intros y r1 Hy Hr1 Hid. simpl in Hr1.
        apply list_elem_of_In, in_map_iff in Hr1 as [r [Hr1 Hr]].
        apply list_elem_of_In in Hr. unfold g in Hr1.
        destruct (debt_id r =? debt_id x) eqn:E.
        -- apply Z.eqb_eq in E. exfalso. apply Hx.
           subst r1. rewrite accrued_id, E in Hid. rewrite Hid.
           apply list_elem_of_In, in_map, list_elem_of_In, Hy.
        -- subst r1. apply Hsnap; [by right|done|done].
      * intros y Hy. apply Hopen. by right.
      * split; [done|]. simpl in Hrows.
        change (map g (table s)) with (g <$> table s) in Hrows.
        apply Forall2_fmap_l in Hrows.
        eapply Forall2_impl; [exact Hrows|]. simpl.
        intros r r' Hstep. unfold g in Hstep.
        destruct (debt_id r =? debt_id x) eqn:E.
        -- apply Z.eqb_eq in E.
           destruct Hstep as [->|[Hin _]].
           ++ right. split; [rewrite E; by left|done].
           ++ exfalso. apply Hx. by rewrite accrued_id, E in Hin.
        -- by apply Hweaken.
Qed.

(** [applyInterest] under any oracle: the sequence does not move, and
    every row is left as it is or written as the loop body computes
    it. *)
Lemma applyInterest_rows (now : Z) (s : env) :
  NoDup (map debt_id (table s)) ->
  serial (exec (applyInterest now) s) = serial s /\
  Forall2 (fun r r' => r' = r \/ r' = accrued now r)
    (table s) (table (exec (applyInterest now) s)).
Proof.
  intros Hnd.
  assert (Hsame : forall fs,
    serial (refault fs s) = serial s /\
    Forall2 (fun r r' => r' = r \/ r' = accrued now r)
      (table s) (table (refault fs s))).
  { intros fs. split; [done|]. apply Forall2_diag. by left. }
  unfold applyInterest, pool_connect. rewrite exec_bind.
  destruct (call_cases s) as [fs [-> | ->]]; [|apply Hsame].
  unfold exec. rewrite exec_try_catch_skip. cbn [snd].
  unfold query_select. rewrite exec_bind, bind_run.
  destruct (call_cases (refault fs s)) as [fs' [-> | ->]]; [|apply Hsame].
  change (table (refault fs s)) with (table s).
  destruct (for_each_accrue_rows now
              (filter (fun d => is_open d = true) (table s))
              (refault fs' (refault fs s))) as [Hn Hrows].
  - apply NoDup_fmap_2_strong; [|eapply NoDup_filter, NoDup_fmap_1, Hnd].
    intros x y Hx%list_elem_of_filter Hy%list_elem_of_filter Hid.
    destruct Hx as [_ Hx], Hy as [_ Hy]. by eapply unique_by_id.
  - intros x r [_ Hx]%list_elem_of_filter Hr Hid.
    by eapply unique_by_id.
  - by intros x [Hopen _]%list_elem_of_filter.
  - split; [exact Hn|].
    eapply Forall2_impl; [exact Hrows|]. simpl.
    intros r r' [->|[_ ->]]; auto.
Qed.

Lemma Forall2_ids (l k : list debt) :
  Forall2 (fun r r' => debt_id r' = debt_id r) l k ->
  map debt_id k = map debt_id l.
Proof. induction 1; simpl; congruence. Qed.

(** The ids stay where they are. *)
Lemma applyInterest_ids (now : Z) (s : env) :
  NoDup (map debt_id (table s)) ->
  map debt_id (table (exec (applyInterest now) s)) = map debt_id (table s).
Proof.
  intros Hnd. destruct (applyInterest_rows now s Hnd) as [_ Hrows].
  apply Forall2_ids. eapply Forall2_impl; [exact Hrows|]. simpl.
  intros r r' [->| ->]; [done|apply accrued_id].
Qed.

(** The row at a position, under any oracle. *)
Lemma applyInterest_at (now : Z) (s : env) (i : nat) (d : debt) :
  NoDup (map debt_id (table s)) ->
  table s !! i = Some d ->
  table (exec (applyInterest now) s) !! i = Some d \/
  table (exec (applyInterest now) s) !! i = Some (accrued now d).
Proof.
  intros Hnd Hi. destruct (applyInterest_rows now s Hnd) as [_ Hrows].
  destruct (Forall2_lookup_l _ _ _ _ _ Hrows Hi) as (d' & Hi' & [->| ->]);
    auto.
Qed.

Lemma accrue_nil (now : Z) (x : debt) (t : list debt) (n : Z) :
  is_open x = true -> accruable now x ->
  (forall r, r ∈ t -> debt_id r = debt_id x -> r = x) ->
  accrue now x (Env t n []) =
  (Ok tt,
   Env (map (fun r => if debt_id r =? debt_id x then accrued now r else r) t)
       n []).
Proof.
  intros Hopen Hacc Hsnap. unfold accrue.
  destruct (0 <? weeksPassed now x) eqn:Hw.
  - apply Z.ltb_lt in Hw. destruct (Hacc Hopen Hw) as (a & Ha & Hr).
    unfold update_interest. rewrite Ha, Hr, query_update_nil.
    do 2 f_equal. apply map_ext_in. intros r Hr'%list_elem_of_In.
    destruct (debt_id r =? debt_id x) eqn:E; [|reflexivity].
    apply Z.eqb_eq in E. rewrite (Hsnap r Hr' E).
    unfold accrued. rewrite Hopen. apply Z.ltb_lt in Hw. rewrite Hw. simpl.
    by rewrite Ha, Hr.
  - simpl. do 2 f_equal. rewrite <- (map_id t) at 1.
    apply map_ext_in. intros r Hr%list_elem_of_In.
    destruct (debt_id r =? debt_id x) eqn:E; [|reflexivity].
    apply Z.eqb_eq in E. rewrite (Hsnap r Hr E).
    unfold accrued. by rewrite Hw, andb_false_r.
Qed.

Lemma for_each_accrue (now : Z) (l : list debt) :
  forall (t : list debt) (n : Z),
  NoDup (map debt_id l) ->
  (forall x r, x ∈ l -> r ∈ t -> debt_id r = debt_id x -> r = x) ->
  (forall x, x ∈ l -> is_open x = true /\ accruable now x) ->
  for_each l (accrue now) (Env t n []) =
  (Ok tt,
   Env (map (fun r => if bool_decide (debt_id r ∈ map debt_id l)
                      then accrued now r else r) t) n []).
Proof.
  induction l as [|x l IH]; intros t n Hnd Hsnap Hok.
  - simpl. do 2 f_equal. rewrite <- (map_id t) at 1.
    apply map_ext_in. by intros r _.
  - simpl in Hnd. apply NoDup_cons in Hnd as [Hx Hnd].
    simpl. rewrite bind_run.
    destruct (Hok x) as [Hopen Hacc]; [by left|].
    rewrite accrue_nil; [|done|done|intros r Hr; apply Hsnap; [by left|done]].
    rewrite IH; [|done| |intros y Hy; apply Hok; by right].
    + do 2 f_equal. rewrite map_map. apply map_ext_in.
      intros r Hr%list_elem_of_In.
      destruct (debt_id r =? debt_id x) eqn:E.
      * apply Z.eqb_eq in E. rewrite accrued_id.
        rewrite bool_decide_eq_false_2 by (by rewrite E).
        rewrite bool_decide_eq_true_2; [done|]. rewrite E. by left.
      * apply Z.eqb_neq in E.
        destruct (bool_decide (debt_id r ∈ map debt_id l)) eqn:B.
        -- apply bool_decide_eq_true in B.
           rewrite bool_decide_eq_true_2; [done|]. by right.
        -- apply bool_decide_eq_false in B.
           rewrite bool_decide_eq_false_2; [done|].
           intros [?|?]%elem_of_cons; done.
    + intros y r1 Hy Hr1 Hid.
      apply list_elem_of_In, in_map_iff in Hr1 as [r [Hr1 Hr]].
      apply list_elem_of_In in Hr.
      destruct (debt_id r =? debt_id x) eqn:E.
      * apply Z.eqb_eq in E. exfalso. apply Hx.
        subst r1. rewrite accrued_id, E in Hid. rewrite Hid.
        apply list_elem_of_In, in_map, list_elem_of_In, Hy.
      * subst r1. apply Hsnap; [by right|done|done].
Qed.

(** A run of [applyInterest] that meets no fault leaves, for every row,
    the row that the loop body computes for it. *)
Lemma applyInterest_nil (now : Z) (s : env) :
  NoDup (map debt_id (table s)) ->
  faults s = [] ->
  (forall d, d ∈ table s -> accruable now d) ->
  applyInterest now s =
  (Ok tt, Env (map (accrued now) (table s)) (serial s) []).
Proof.
  destruct s as [t n fs]. simpl. intros Hnd -> Hacc.
  unfold applyInterest, pool_connect. rewrite bind_run. simpl.
  unfold try_catch, query_select. rewrite !bind_run. simpl.
  rewrite for_each_accrue.
  - do 2 f_equal. apply map_ext_in. intros r Hr%list_elem_of_In.
    destruct (is_open r) eqn:Hopen.
    + rewrite bool_decide_eq_true_2; [done|].
      apply list_elem_of_In, in_map, list_elem_of_In.
      by apply list_elem_of_filter.
    + unfold accrued. rewrite Hopen. simpl. by destruct (bool_decide _).
  - apply NoDup_fmap_2_strong; [|eapply NoDup_filter, NoDup_fmap_1, Hnd].
    intros x y Hx%list_elem_of_filter Hy%list_elem_of_filter Hid.
    destruct Hx as [_ Hx], Hy as [_ Hy]. by eapply unique_by_id.
  - intros x r Hx%list_elem_of_filter Hr Hid. destruct Hx as [_ Hx].
    by eapply unique_by_id.
  - intros x Hx%list_elem_of_filter. destruct Hx as [Hopen Hx]. split.
    + done.
    + by apply Hacc.
Qed.

End AccrualFacts.

Section AccrualClaims.
Import Ledger Spec Scenario.

Lemma compound_1000 :
  JS.to_int (compound 1 1000) = Some 1050 /\
  JS.to_int (compound 2 1000) = Some 1103.
Proof. split; vm_compute; reflexivity. Qed.

(** C3.  A debt with [amount_remaining = 1000] whose [last_interest_at]
    lies two whole weeks (and less than three) before [now]: the loop
    takes 1000 to 1050 to 1103, and a run of [applyInterest] that meets
    no fault, on a table whose due amounts the server accepts, leaves in
    its place the row with [amount_remaining = 1103] and
    [last_interest_at] advanced by exactly 14 days, whatever the part of
    the third week that has elapsed; the other columns are kept. *)
Theorem C3_two_weeks_of_interest (s : env) (now : Z) (i : nat) (d : debt) :
  NoDup (map debt_id (table s)) ->
  faults s = [] ->
  (forall x, x ∈ table s -> accruable now x) ->
  table s !! i = Some d ->
  debt_status d = Open ->
  amount_remaining d = 1000 ->
  14 * MS_PER_DAY <= now - last_interest_at d < 21 * MS_PER_DAY ->
  JS.to_int (compound 1 1000) = Some 1050 /\
  JS.to_int (compound 2 1000) = Some 1103 /\
  table (exec (applyInterest now) s) !! i =
    Some (Debt (debt_id d) (borrower_id d) (admin_id d) (amount_initial d)
            1103 (created_at d) (last_interest_at d + 14 * MS_PER_DAY)
            Open (note d)).
Proof.
  intros Hnd Hf Hacc Hi Hopen Hamt Hwin.
  destruct compound_1000 as [H1 H2]. split; [exact H1|]. split; [exact H2|].
  assert (Hw : weeksPassed now d = 2).
  { rewrite weeksPassed_forward by (unfold MS_PER_DAY in *; lia).
    symmetry.
    apply Z.div_unique with (now - last_interest_at d - 14 * MS_PER_DAY);
      unfold MS_PER_DAY in *; lia. }
  assert (Hd' : accrued now d =
    Debt (debt_id d) (borrower_id d) (admin_id d) (amount_initial d)
      1103 (created_at d) (last_interest_at d + 14 * MS_PER_DAY)
      Open (note d)).
  { unfold accrued, is_open, newAmount, newDate.
    rewrite Hw, Hamt, bool_decide_eq_true_2 by done.
    change (Z.to_nat 2) with 2%nat. change (true && (0 <? 2)) with true.
    cbv iota. rewrite H2. change (in_integer 1103) with true. cbv iota.
    unfold set_interest. rewrite Hopen. f_equal; unfold MS_PER_DAY; lia. }
  unfold exec. rewrite applyInterest_nil by done. cbn [snd table].
  change (map (accrued now) (table s)) with (accrued now <$> table s).
  by rewrite list_lookup_fmap, Hi, <- Hd'.
Qed.

Lemma C3_two_weeks_of_interest_witness :
  table (exec (applyInterest (16 * MS_PER_DAY + 5)) c3_env) !! 1%nat =
  Some (Debt 7 "1001" "9" 1000 1103 0 (14 * MS_PER_DAY) Open
          "Verified by Mudae").
Proof.
  refine (proj2 (proj2
    (C3_two_weeks_of_interest c3_env (16 * MS_PER_DAY + 5) 1 c3_debt
       _ _ _ _ _ _ _))).
  - compute_done.
  - reflexivity.
  - intros x Hx _ _.
    apply elem_of_cons in Hx as [-> | Hx];
      [|apply elem_of_cons in Hx as [-> | Hx]; [|by apply elem_of_nil in Hx]].
    + exists 42. by vm_compute.
    + exists 1103. by vm_compute.
  - reflexivity.
  - reflexivity.
  - reflexivity.
  - unfold MS_PER_DAY, c3_debt. simpl. lia.
Defined.

(** C4, as the code has it, for one debt [d] at position [i] of a table
    with unique ids, whatever the other debts are and whatever the
    oracle does.
    (1) When [now] is less than one whole week away from
    [last_interest_at d], before or after it, the row is left as it is.
    (2) At any [now], for a balance that is not negative, the row that
    [applyInterest] leaves has the same id, a balance that is not
    smaller and a date that is not earlier.
    (3) For [now] not before [last_interest_at d]: a second run at
    [now2], not before [now] and inside the same elapsed week of [d],
    leaves the row as the first run left it, provided the first run
    wrote it, or met no fault on a table whose due amounts the server
    accepts. *)
Theorem C4_accrual_idle_within_a_week (s : env) (now : Z) (i : nat)
    (d : debt) :
  NoDup (map debt_id (table s)) ->
  table s !! i = Some d ->
  let s1 := exec (applyInterest now) s in
  (Z.abs (now - last_interest_at d) < 7 * MS_PER_DAY ->
   table s1 !! i = Some d) /\
  (0 <= amount_remaining d <= 2147483647 ->
   exists d', table s1 !! i = Some d' /\ debt_id d' = debt_id d /\
              amount_remaining d <= amount_remaining d' /\
              last_interest_at d <= last_interest_at d') /\
  (forall (now2 : Z) (fs : list bool),
     last_interest_at d <= now <= now2 ->
     (now - last_interest_at d) / (7 * MS_PER_DAY) =
     (now2 - last_interest_at d) / (7 * MS_PER_DAY) ->
     table s1 !! i <> Some d \/
     faults s = [] /\ (forall x, x ∈ table s -> accruable now x) ->
     table (exec (applyInterest now2) (refault fs s1)) !! i = table s1 !! i).
Proof.
  intros Hnd Hi s1.
  pose proof (applyInterest_at now s i d Hnd Hi) as Hrow. fold s1 in Hrow.
  split; [|split].
  - intros Hidle.
    rewrite (accrued_idle now d) in Hrow by (by apply weeksPassed_zero).
    by destruct Hrow.
  - intros Hpos. destruct Hrow as [Hrow|Hrow].
    + exists d. split; [done|]. split; [done|]. lia.
    + exists (accrued now d). split; [done|].
      split; [apply accrued_id|]. split.
      * apply accrued_amount_grows.
        change (2 ^ 53) with 9007199254740992. lia.
      * apply accrued_date_forward.
  - intros now2 fs Hle Hweek Hfirst.
    assert (Hwritten : table s1 !! i = Some (accrued now d)).
    { destruct Hfirst as [Hne|[Hf Hacc]].
      - by destruct Hrow.
      - unfold s1, exec. rewrite applyInterest_nil by done. cbn [snd table].
        change (map (accrued now) (table s))
          with (accrued now <$> table s).
        by rewrite list_lookup_fmap, Hi. }
    assert (Hnd1 : NoDup (map debt_id (table (refault fs s1))))
      by (unfold s1; simpl; by rewrite applyInterest_ids).
    destruct (applyInterest_at now2 (refault fs s1) i (accrued now d) Hnd1
                Hwritten) as [H2|H2]; rewrite H2, Hwritten; [done|].
    by rewrite accrued_again.
Qed.

(** On day 16 the debt that is four days old is left as it is, while
    the debt beside it is charged two weeks; a second run a second
    later, which meets no fault, leaves the charged row as it is. *)
Lemma C4_accrual_idle_within_a_week_witness :
  table (exec (applyInterest (16 * MS_PER_DAY + 5)) c4_mixed) !! 1%nat
  = Some c4_idle /\
  table (exec (applyInterest (16 * MS_PER_DAY + 5)) c4_mixed) !! 2%nat
  = Some (Debt 7 "1001" "9" 1000 1103 0 (14 * MS_PER_DAY) Open
            "Verified by Mudae") /\
  table (exec (applyInterest (16 * MS_PER_DAY + 1005))
           (refault [] (exec (applyInterest (16 * MS_PER_DAY + 5)) c4_mixed)))
    !! 2%nat
  = Some (Debt 7 "1001" "9" 1000 1103 0 (14 * MS_PER_DAY) Open
            "Verified by Mudae").
Proof.
  assert (Hnd : NoDup (map debt_id (table c4_mixed))) by compute_done.
  pose proof (C4_accrual_idle_within_a_week c4_mixed (16 * MS_PER_DAY + 5) 1
                c4_idle Hnd eq_refl) as Hidle.
  pose proof (C4_accrual_idle_within_a_week c4_mixed (16 * MS_PER_DAY + 5) 2
                c3_debt Hnd eq_refl) as Hdue.
  cbv zeta in Hidle, Hdue.
  destruct Hidle as (Hidle & _ & _). destruct Hdue as (_ & _ & Htwice).
  assert (Hfirst :
    table (exec (applyInterest (16 * MS_PER_DAY + 5)) c4_mixed) !! 2%nat
    = Some (Debt 7 "1001" "9" 1000 1103 0 (14 * MS_PER_DAY) Open
              "Verified by Mudae")) by (vm_compute; reflexivity).
  split; [|split].
  - apply Hidle. vm_compute. reflexivity.
  - exact Hfirst.
  - rewrite <- Hfirst. apply Htwice.
    + vm_compute. split; discriminate.
    + vm_compute. reflexivity.
    + left. rewrite Hfirst. discriminate.
Defined.

(** C4 as stated fails: with [now] eight days before [last_interest_at]
    less than a week has elapsed, yet the debt is charged a week of
    interest and its date moves a week further on. *)
Lemma C4_counterexample :
  c4_now - last_interest_at c4_debt < 7 * MS_PER_DAY /\
  table c4_env =
    [Debt 1 "1001" "9" 1000 1000 (108 * MS_PER_DAY) (108 * MS_PER_DAY)
       Open ""] /\
  table (exec (applyInterest c4_now) c4_env) =
    [Debt 1 "1001" "9" 1000 1050 (108 * MS_PER_DAY) (115 * MS_PER_DAY)
       Open ""].
Proof. repeat split; vm_compute; reflexivity. Qed.

End AccrualClaims.

Section RepaymentFacts.
Import Ledger Spec Scenario.

Lemma insert_by_created_at_perm (d : debt) (l : list debt) :
  insert_by_created_at d l ≡ₚ d :: l.
Proof.
  induction l as [|x l IH]; simpl; [done|].
  destruct (created_at x <=? created_at d); [|done].
  rewrite IH. apply perm_swap.
Qed.

Lemma order_by_created_at_perm (l : list debt) : order_by_created_at l ≡ₚ l.
Proof.
  unfold order_by_created_at. rewrite <- (reverse_Permutation l) at 2.
  induction (reverse l) as [|x r IH]; simpl; [done|].
  by rewrite insert_by_created_at_perm, IH.
Qed.

Lemma total_remaining_perm (l1 l2 : list debt) :
  l1 ≡ₚ l2 -> total_remaining l1 = total_remaining l2.
Proof.
  unfold total_remaining.
  induction 1; simpl; lia.
Qed.

Lemma set_paid_id (d : debt) : debt_id (set_paid d) = debt_id d.
Proof. reflexivity. Qed.

(** A payment above the total pays every debt of the list in full; what
    is left of it is dropped with the local [remaining]. *)
Lemma pay_loop_overpaid (l : list debt) :
  forall (t : list debt) (n amount : Z) (logs : list string),
  Forall (fun d => 0 <= amount_remaining d) l ->
  total_remaining l < amount ->
  pay_loop l amount logs (Env t n []) =
  (Ok (logs ++ map log_paid l),
   Env (map (fun r => if bool_decide (debt_id r ∈ map debt_id l)
                      then set_paid r else r) t) n []).
Proof.
  induction l as [|x l IH]; intros t n amount logs Hpos Hover.
  - simpl. rewrite app_nil_r. do 2 f_equal. rewrite <- (map_id t) at 1.
    apply map_ext_in. by intros r _.
  - apply Forall_cons in Hpos as [Hx Hpos].
    unfold total_remaining in Hover. simpl in Hover.
    fold (total_remaining l) in Hover.
    assert (0 <= total_remaining l).
    { clear -Hpos. induction Hpos; unfold total_remaining in *; simpl; lia. }
    simpl pay_loop.
    destruct (amount <=? 0) eqn:E0; [apply Z.leb_le in E0; lia|].
    destruct (amount_remaining x <=? amount) eqn:E1;
      [|apply Z.leb_gt in E1; lia].
    rewrite bind_run, query_update_nil.
    rewrite IH by (done || lia).
    rewrite <- app_assoc. simpl. do 2 f_equal. rewrite map_map.
    apply map_ext_in. intros r _.
    destruct (debt_id r =? debt_id x) eqn:E.
    + apply Z.eqb_eq in E. rewrite set_paid_id.
      rewrite (bool_decide_eq_true_2 (debt_id r ∈ debt_id x :: _))
        by (rewrite E; left).
      by destruct (bool_decide _).
    + apply Z.eqb_neq in E.
      destruct (bool_decide (debt_id r ∈ map debt_id l)) eqn:B.
      * apply bool_decide_eq_true in B.
        rewrite bool_decide_eq_true_2; [done|]. by right.
      * apply bool_decide_eq_false in B.
        rewrite bool_decide_eq_false_2; [done|].
        intros [?|?]%elem_of_cons; done.
Qed.

Lemma owes_by_id (t : list debt) (b : string) (l : list debt) (r : debt) :
  NoDup (map debt_id t) ->
  l ≡ₚ filter (fun d => owes b d = true) t ->
  r ∈ t ->
  debt_id r ∈ map debt_id l <-> owes b r = true.
Proof.
  intros Hnd Hl Hr. split.
  - intros Hin. apply list_elem_of_In, in_map_iff in Hin as [x [Hid Hx]].
    apply list_elem_of_In in Hx. rewrite Hl in Hx.
    apply list_elem_of_filter in Hx as [Hox Hx].
    apply list_elem_of_lookup in Hx as [i Hi], Hr as [j Hj].
    assert (i = j) as ->; [|congruence].
    eapply NoDup_lookup; [exact Hnd| |]; rewrite list_lookup_fmap.
    + by rewrite Hi.
    + by rewrite Hj, Hid.
  - intros Ho. apply list_elem_of_In, in_map, list_elem_of_In.
    rewrite Hl. by apply list_elem_of_filter.
Qed.

Lemma payDebt_nil (borrowerId : string) (amount : Z) (t : list debt)
    (n : Z) :
  payDebt borrowerId amount (Env t n []) =
  pay_loop
    (order_by_created_at (filter (fun d => owes borrowerId d = true) t))
    amount [] (Env t n []).
Proof. reflexivity. Qed.

(** C6.  A payment strictly above the total that the borrower owes, on
    balances that are not negative and in a run that meets no fault:
    every open debt of the borrower is left with status [Paid] and
    [amount_remaining = 0], its other columns kept; every other row and
    the sequence are untouched; the outcome names one full payment per
    debt, each with the balance of that debt (in the order of the
    [SELECT], of which nothing is used here).  Nothing depends on the
    amount: every payment above the total leaves the same state, so the
    surplus is recorded nowhere. *)
Theorem C6_overpayment_discarded (s : env) (borrowerId : string)
    (amount : Z) :
  NoDup (map debt_id (table s)) ->
  faults s = [] ->
  (forall d, d ∈ table s -> owes borrowerId d = true ->
             0 <= amount_remaining d) ->
  total_remaining (filter (fun d => owes borrowerId d = true) (table s))
    < amount ->
  let s' := exec (payDebt borrowerId amount) s in
  table s' =
    map (fun d => if owes borrowerId d
                  then Debt (debt_id d) (borrower_id d) (admin_id d)
                         (amount_initial d) 0 (created_at d)
                         (last_interest_at d) Paid (note d)
                  else d) (table s) /\
  serial s' = serial s /\
  (exists logs,
     result (payDebt borrowerId amount) s = Ok logs /\
     logs ≡ₚ map log_paid
               (filter (fun d => owes borrowerId d = true) (table s))) /\
  (forall amount',
     total_remaining (filter (fun d => owes borrowerId d = true) (table s))
       < amount' ->
     exec (payDebt borrowerId amount') s = s').
Proof.
  destruct s as [t n fs]. simpl. intros Hnd -> Hpos Hover.
  assert (Hpay : forall a,
    total_remaining (filter (fun d => owes borrowerId d = true) t) < a ->
    payDebt borrowerId a (Env t n []) =
    (Ok (map log_paid
           (order_by_created_at
              (filter (fun d => owes borrowerId d = true) t))),
     Env (map (fun d => if owes borrowerId d then set_paid d else d) t)
         n [])).
  { intros a Ha. rewrite payDebt_nil, pay_loop_overpaid.
    - simpl. do 2 f_equal. apply map_ext_in. intros r Hr%list_elem_of_In.
      pose proof (owes_by_id t borrowerId _ r Hnd
                    (order_by_created_at_perm _) Hr) as Hiff.
      destruct (owes borrowerId r) eqn:Ho.
      + rewrite bool_decide_eq_true_2; [done|]. by apply Hiff.
      + rewrite bool_decide_eq_false_2; [done|].
        intros Hin%Hiff. discriminate.
    - rewrite order_by_created_at_perm. apply Forall_forall.
      intros d [Ho Hd]%list_elem_of_filter. by apply Hpos.
    - by rewrite (total_remaining_perm _ _ (order_by_created_at_perm _)). }
  unfold exec, result. rewrite (Hpay amount Hover). cbn [fst snd table serial].
  split; [done|]. split; [done|]. split.
  - eexists. split; [done|].
    change (map log_paid) with (fmap (M := list) log_paid).
    by rewrite order_by_created_at_perm.
  - intros a' Ha'. by rewrite (Hpay a' Ha').
Qed.

Lemma C6_overpayment_discarded_witness :
  table (exec (payDebt "1001" 1400) c5_env) =
    [Debt 2 "1001" "9" 800 0 2000 2000 Paid ""; c5_other;
     Debt 1 "1001" "9" 500 0 1000 1000 Paid ""; c5_settled] /\
  serial (exec (payDebt "1001" 1400) c5_env) = 5 /\
  exec (payDebt "1001" 9000) c5_env = exec (payDebt "1001" 1400) c5_env.
Proof.
  assert (Hsum : total_remaining
            (filter (fun d => owes "1001" d = true) (table c5_env)) = 1300)
    by reflexivity.
  destruct (C6_overpayment_discarded c5_env "1001" 1400)
    as (Htable & Hserial & _ & Hany).
  - compute_done.
  - reflexivity.
  - intros d Hd _. unfold c5_env in Hd. simpl in Hd.
    repeat (apply elem_of_cons in Hd as [-> | Hd]; [vm_compute; discriminate|]).
    by apply elem_of_nil in Hd.
  - rewrite Hsum. lia.
  - split; [exact Htable|]. split; [exact Hserial|].
    apply Hany. rewrite Hsum. lia.
Defined.

(** C5.  The borrower's open debts are exactly [A] (500 remaining) and
    [B] (800 remaining), [A] created before [B], wherever they stand in
    the table; a payment of 700 in a run that meets no fault leaves in
    the place of [A] the row with status [Paid] and
    [amount_remaining = 0], in the place of [B] the row with status
    [Open] and [amount_remaining = 600], each with its other columns
    kept, touches no other row, and returns the outcome of [A], paid in
    full, and then that of [B], reduced by 200. *)
Theorem C5_fifo_two_debts (s : env) (borrowerId : string) (A B : debt) :
  NoDup (map debt_id (table s)) ->
  faults s = [] ->
  filter (fun d => owes borrowerId d = true) (table s) ≡ₚ [A; B] ->
  amount_remaining A = 500 ->
  amount_remaining B = 800 ->
  created_at A < created_at B ->
  let A' := Debt (debt_id A) (borrower_id A) (admin_id A) (amount_initial A)
              0 (created_at A) (last_interest_at A) Paid (note A) in
  let B' := Debt (debt_id B) (borrower_id B) (admin_id B) (amount_initial B)
              600 (created_at B) (last_interest_at B) Open (note B) in
  payDebt borrowerId 700 s =
    (Ok ["✅ Debt #" +:+ JS.toString (debt_id A) +:+ " paid fully (500k).";
         "📉 Debt #" +:+ JS.toString (debt_id B) +:+
         " reduced by 200k (Remaining: 600k)."],
     Env (map (fun d => if debt_id d =? debt_id A then A'
                        else if debt_id d =? debt_id B then B' else d)
            (table s))
         (serial s) []) /\
  A' ∈ table (exec (payDebt borrowerId 700) s) /\
  B' ∈ table (exec (payDebt borrowerId 700) s).
Proof.
  destruct s as [t n fs]. simpl. intros Hnd -> Hperm HA HB Hlt.
  assert (HinA : A ∈ t /\ owes borrowerId A = true).
  { assert (H : A ∈ filter (fun d => owes borrowerId d = true) t)
      by (rewrite Hperm; left).
    apply list_elem_of_filter in H as [? ?]. done. }
  assert (HinB : B ∈ t /\ owes borrowerId B = true).
  { assert (H : B ∈ filter (fun d => owes borrowerId d = true) t)
      by (rewrite Hperm; right; left).
    apply list_elem_of_filter in H as [? ?]. done. }
  destruct HinA as [HAt HAo], HinB as [HBt HBo].
  assert (HBopen : debt_status B = Open).
  { unfold owes, is_open in HBo. apply andb_true_iff in HBo as [_ HBo].
    by apply bool_decide_eq_true in HBo. }
  assert (Hne : debt_id A <> debt_id B).
  { intros Hid. assert (A = B) as -> by (by eapply unique_by_id). lia. }
  assert (Hsorted :
    order_by_created_at (filter (fun d => owes borrowerId d = true) t)
    = [A; B]).
  { symmetry in Hperm. apply Permutation_length_2_inv in Hperm.
    unfold order_by_created_at.
    destruct Hperm as [-> | ->]; simpl.
    - destruct (created_at A <=? created_at B) eqn:E; [done|].
      apply Z.leb_gt in E. lia.
    - destruct (created_at B <=? created_at A) eqn:E; [|done].
      apply Z.leb_le in E. lia. }
  assert (H500 : JS.toString 500 = "500") by (vm_compute; reflexivity).
  assert (H200 : JS.toString 200 = "200") by (vm_compute; reflexivity).
  assert (H600 : JS.toString 600 = "600") by (vm_compute; reflexivity).
  assert (Hrun : payDebt borrowerId 700 (Env t n []) =
    (Ok ["✅ Debt #" +:+ JS.toString (debt_id A) +:+ " paid fully (500k).";
         "📉 Debt #" +:+ JS.toString (debt_id B) +:+
         " reduced by 200k (Remaining: 600k)."],
     Env (map (fun d =>
            if debt_id d =? debt_id A
            then Debt (debt_id A) (borrower_id A) (admin_id A)
                   (amount_initial A) 0 (created_at A) (last_interest_at A)
                   Paid (note A)
            else if debt_id d =? debt_id B
                 then Debt (debt_id B) (borrower_id B) (admin_id B)
                        (amount_initial B) 600 (created_at B)
                        (last_interest_at B) Open (note B)
                 else d) t) n [])).
  { rewrite payDebt_nil, Hsorted. simpl pay_loop. rewrite HA, HB.
    change (700 <=? 0) with false. change (500 <=? 700) with true.
    cbv iota. rewrite bind_run, query_update_nil.
    change (700 - 500) with 200. change (200 <=? 0) with false.
    change (800 <=? 200) with false. cbv iota. cbv zeta.
    rewrite bind_run, query_update_nil. change (800 - 200) with 600.
    unfold mret, M_ret. cbn [app]. f_equal.
    - unfold log_paid, log_reduced. rewrite HA, H500, H200, H600.
      reflexivity.
    - f_equal. rewrite map_map. apply map_ext_in.
      intros r Hr%list_elem_of_In.
      destruct (debt_id r =? debt_id A) eqn:E.
      + apply Z.eqb_eq in E.
        assert (r = A) as -> by (by eapply unique_by_id).
        simpl. apply Z.eqb_neq in Hne as ->. reflexivity.
      + destruct (debt_id r =? debt_id B) eqn:E'; [|done].
        apply Z.eqb_eq in E'.
        assert (r = B) as -> by (by eapply unique_by_id).
        unfold set_remaining. by rewrite HBopen. }
  split; [exact Hrun|]. unfold exec. rewrite Hrun. cbn [snd table].
  split.
  - apply list_elem_of_In, in_map_iff. exists A.
    rewrite Z.eqb_refl. split; [done|by apply list_elem_of_In].
  - apply list_elem_of_In, in_map_iff. exists B.
    apply not_eq_sym, Z.eqb_neq in Hne. rewrite Hne, Z.eqb_refl.
    split; [done|by apply list_elem_of_In].
Qed.

Lemma C5_fifo_two_debts_witness :
  payDebt "1001" 700 c5_env =
    (Ok ["✅ Debt #1 paid fully (500k).";
         "📉 Debt #2 reduced by 200k (Remaining: 600k)."],
     Env [Debt 2 "1001" "9" 800 600 2000 2000 Open ""; c5_other;
          Debt 1 "1001" "9" 500 0 1000 1000 Paid ""; c5_settled] 5 []).
Proof.
  refine (proj1 (C5_fifo_two_debts c5_env "1001" c5_A c5_B _ _ _ _ _ _)).
  - compute_done.
  - reflexivity.
  - apply perm_swap.
  - reflexivity.
  - reflexivity.
  - reflexivity.
Defined.

End RepaymentFacts.

Section CleanRuns.
Import Ledger Spec.

Lemma for_each_accrue_nil (now : Z) (l : list debt) :
  forall (t : list debt) (n : Z),
  exists o t', for_each l (accrue now) (Env t n []) = (o, Env t' n []).
Proof.
  induction l as [|x l IH]; intros t n; [by exists (Ok tt), t|].
  simpl. rewrite bind_run. unfold accrue.
  destruct (0 <? weeksPassed now x).
  - unfold update_interest. destruct (JS.to_int _) as [a|].
    + destruct (in_integer a); [|by exists Throw, t].
      rewrite query_update_nil. apply IH.
    + by exists Throw, t.
  - apply IH.
Qed.

(** With an exhausted oracle [applyInterest] returns, and leaves the
    sequence and the oracle as they were. *)
Lemma applyInterest_clean (now : Z) (s : env) :
  faults s = [] ->
  applyInterest now s =
  (Ok tt, Env (table (exec (applyInterest now) s)) (serial s) []).
Proof.
  destruct s as [t n fs]. simpl. intros ->.
  unfold exec, applyInterest, pool_connect. rewrite !bind_run. simpl.
  unfold try_catch, query_select. rewrite !bind_run. simpl.
  destruct (for_each_accrue_nil now (filter (fun d => is_open d = true) t) t n)
    as (o & t' & ->).
  by destruct o as [[]|].
Qed.

End CleanRuns.

(** ** src/index.js *)

Section IndexJsFacts.
Import Ledger Discord IndexJs Spec.


Lemma index_with_faults_ledger (fs : list bool) (w : world) :
  ledger (with_faults fs w) = ledger w /\
  pendingActions (with_faults fs w) = pendingActions w /\
  replies (with_faults fs w) = replies w /\
  isTrackingEnabled (with_faults fs w) = isTrackingEnabled w.
Proof. done. Qed.

Lemma index_fetch_run (r : reaction) (w : world) :
  exists fs, fetch r w = (Ok (negb (fetch_rejects r (outside w))),
                          with_faults fs w).
Proof.
  destruct w as [[t n fs] tr pa re]. unfold fetch, fetch_rejects. simpl.
  destruct (partial r); [|by exists fs].
  destruct fs as [|[] fs]; [by exists []|by exists fs|by exists fs].
Qed.

(** A reaction that finds no entry under its message changes nothing
    but the oracle. *)
Lemma index_reaction_miss (now : Z) (r : reaction) (w : world) :
  pendingActions w !! on_message r = None ->
  exists fs, messageReactionAdd now r w = (Ok tt, with_faults fs w).
Proof.
  intros Hnone. unfold messageReactionAdd, mbind, M_bind, mret, M_ret.
  destruct (index_fetch_run r w) as [fs ->]. exists fs.
  destruct (negb (negb _)); [done|].
  destruct (negb (String.eqb _ _)); [done|].
  destruct (negb (is_checkmark _)); [done|].
  simpl. destruct (negb (isTrackingEnabled w)); [done|]. by rewrite Hnone.
Qed.

(** A confirmation that passes the tests of listener 2: the handler
    returns normally in the state that the [try] block reached, be it by
    returning or by throwing, with the entry deleted. *)
Lemma index_reaction_hit (now : Z) (r : reaction) (w : world) (a : action) :
  fetch_rejects r (outside w) = false ->
  user_id r = MUDAE_ID ->
  is_checkmark (emoji_name r) = true ->
  isTrackingEnabled w = true ->
  pendingActions w !! on_message r = Some a ->
  messageReactionAdd now r w =
  (Ok tt, pending_delete (on_message r)
            (exec (execute now r a) (exec (fetch r) w))).
Proof.
  intros Hfetch Huser Hmark Htrack Hsome.
  unfold messageReactionAdd, mbind, M_bind. unfold exec at 2.
  destruct (index_fetch_run r w) as [fs ->]. rewrite Hfetch, Huser, Hmark.
  rewrite String.eqb_refl. cbn [negb snd].
  destruct (index_with_faults_ledger fs w) as (_ & -> & _ & ->).
  rewrite Htrack, Hsome. cbn [negb].
  unfold try_finally. by rewrite exec_try_catch_skip.
Qed.

Lemma index_db_frame {A} (m : Db A) (w : IndexJs.world) :
  IndexJs.isTrackingEnabled (IndexJs.db m w).2 = IndexJs.isTrackingEnabled w /\
  IndexJs.pendingActions (IndexJs.db m w).2 = IndexJs.pendingActions w /\
  IndexJs.replies (IndexJs.db m w).2 = IndexJs.replies w /\
  IndexJs.outside (IndexJs.db m w).2 = (m (IndexJs.outside w)).2 /\
  (IndexJs.db m w).1 = (m (IndexJs.outside w)).1.
Proof. unfold IndexJs.db. by destruct (m (IndexJs.outside w)). Qed.

(** [message.reply]: rejected, or the text is delivered; the ledger is
    not read. *)
Lemma index_reply_cases (to text : string) (w : IndexJs.world) :
  exists fs,
    IndexJs.reply to text w = (Throw, IndexJs.with_faults fs w) \/
    IndexJs.reply to text w =
      (Ok tt,
       IndexJs.World (refault fs (IndexJs.outside w))
         (IndexJs.isTrackingEnabled w) (IndexJs.pendingActions w)
         (IndexJs.replies w ++ [(to, text)])).
Proof.
  unfold IndexJs.reply, IndexJs.db. rewrite bind_run.
  destruct (call_cases (IndexJs.outside w)) as [fs [-> | ->]];
    exists fs; [by right|by left].
Qed.

Lemma index_db_call_cases (w : IndexJs.world) :
  exists fs, IndexJs.db call w = (Ok tt, IndexJs.with_faults fs w) \/
             IndexJs.db call w = (Throw, IndexJs.with_faults fs w).
Proof.
  unfold IndexJs.db.
  destruct (call_cases (IndexJs.outside w)) as [fs [-> | ->]]; eauto.
Qed.

Lemma index_reply_frame (to text : string) (w : IndexJs.world) :
  let w' := exec (IndexJs.reply to text) w in
  IndexJs.ledger w' = IndexJs.ledger w /\
  IndexJs.isTrackingEnabled w' = IndexJs.isTrackingEnabled w /\
  IndexJs.pendingActions w' = IndexJs.pendingActions w.
Proof.
  unfold exec. by destruct (index_reply_cases to text w) as [fs [-> | ->]].
Qed.

(** The verbs of the two regular expressions start with different
    letters. *)
Lemma alt_give_not_take (s r : string) :
  JS.alt giveVerbs s = Some r -> JS.alt takeVerbs s = None.
Proof.
  destruct s as [|b s]; [done|]. unfold giveVerbs, takeVerbs.
  cbn [JS.alt JS.lit].
  destruct (Ascii.eqb (JS.lower "g") (JS.lower b)) eqn:E; [|done].
  intros _. apply Ascii.eqb_eq in E. by rewrite <- E.
Qed.

Lemma give_not_take (content : string) (captures : string * string) :
  giveRegex content = Some captures -> takeRegex content = None.
Proof.
  unfold giveRegex, takeRegex, JS.trigger. intros H.
  destruct (JS.lit "$" content) as [s1|]; [|done].
  cbn [mbind option_bind] in *.
  destruct (JS.alt giveVerbs s1) as [s2|] eqn:Hgive; [|done].
  by rewrite (alt_give_not_take s1 s2 Hgive).
Qed.

End IndexJsFacts.
Section IndexJsTriggers.
Import Ledger Discord IndexJs Spec.
Variable ADMIN_IDS : list string.

(** Listener 1 does nothing, or sets the entry under the id of the
    message. *)
Lemma index_messageCreate_cases (now : Z) (m : message) (w : world) :
  messageCreate ADMIN_IDS now m w = (Ok tt, w) \/
  exists a, messageCreate ADMIN_IDS now m w = pending_set (message_id m) a w.
Proof.
  unfold messageCreate, register.
  destruct (author_bot m); [by left|].
  destruct (negb (bool_decide _)); [by left|].
  destruct (negb (isTrackingEnabled w)); [by left|].
  destruct (JS.includes _ _); [by left|].
  destruct (giveRegex _) as [g|].
  - destruct (JS.parseInt g.2); [right; eauto|by left].
  - destruct (takeRegex _) as [k|]; [|by left].
    destruct (JS.parseInt k.2); [right; eauto|by left].
Qed.


End IndexJsTriggers.

(** ** The revisions with two tables *)

Section SplitFacts.
Import Ledger Discord Split Spec.
Variable ADMIN_IDS : list string.

Lemma onAdminMessage_bot (now : Z) (m : message) (w : world) :
  author_bot m = true -> onAdminMessage ADMIN_IDS now m w = (Ok tt, w).
Proof. unfold onAdminMessage. by intros ->. Qed.

(** Listener 1 touches the two pending tables only. *)
Lemma onAdminMessage_outside (now : Z) (m : message) (w : world) :
  let w' := exec (onAdminMessage ADMIN_IDS now m) w in
  outside w' = outside w /\ replies w' = replies w /\
  isTrackingEnabled w' = isTrackingEnabled w.
Proof.
  unfold exec, onAdminMessage, entry.
  destruct (author_bot m); [done|].
  destruct (bool_decide _); [|done].
  destruct (negb (isTrackingEnabled w)); [done|].
  destruct (JS.includes _ _); [done|].
  destruct (giveRegex _) as [g|].
  - simpl. by destruct (JS.parseInt g.2).
  - destruct (takeRegex _) as [k|]; [|done].
    simpl. by destruct (JS.parseInt k.2).
Qed.

Lemma part001_message_miss (now : Z) (m : message) (w : world) :
  pendingRepayments w !! channel_id m = None ->
  Part001.onMudaeMessage now m w = (Ok tt, w).
Proof.
  intros Hnone. unfold Part001.onMudaeMessage.
  destruct (negb (String.eqb _ _)); [done|]. by rewrite Hnone.
Qed.

Lemma part001_message_hit (now : Z) (m : message) (w : world) (p : pending) :
  author_id m = MUDAE_ID ->
  pendingRepayments w !! channel_id m = Some p ->
  JS.includes (JS.toLowerCase (content m)) (JS.toString (amount p)) = true ->
  JS.includes (JS.toLowerCase (content m)) "removed" = true ->
  Part001.onMudaeMessage now m w =
  (Ok tt, repayments_delete (channel_id m) (exec (Part001.repay now m p) w)).
Proof.
  intros Hauthor Hsome Hamount Hkey. unfold Part001.onMudaeMessage.
  rewrite Hauthor, String.eqb_refl, Hsome. cbn [negb].
  cbv zeta. rewrite Hamount, Hkey. cbn [andb].
  unfold try_finally. by rewrite exec_try_catch_skip.
Qed.

Lemma part001_messageCreate_bot (now : Z) (m : message) (w : world) :
  author_bot m = true ->
  Part001.messageCreate ADMIN_IDS now m w = Part001.onMudaeMessage now m w.
Proof.
  intros Hbot. unfold Part001.messageCreate, mbind, M_bind.
  by rewrite onAdminMessage_bot.
Qed.

End SplitFacts.

(** ** Confirmation is applied at most once, and the entry never stays *)

Section Confirmation.
Import Ledger Discord Spec.

(** C1.  A confirmation that matches a pending entry deletes it, and the
    same signal emitted again, at any time and under any oracle, finds no
    entry: it changes neither the ledger nor the pending table and sends
    nothing.  First for the reaction listener of [src/index.js], then for
    the Mudae-message listener of [src/unnamed/part_001]. *)
Theorem C1_confirmation_applied_at_most_once :
  (forall (now : Z) (r : reaction) (w : IndexJs.world) (a : IndexJs.action),
     fetch_rejects r (IndexJs.outside w) = false ->
     user_id r = MUDAE_ID ->
     is_checkmark (emoji_name r) = true ->
     IndexJs.isTrackingEnabled w = true ->
     IndexJs.pendingActions w !! on_message r = Some a ->
     let w1 := exec (IndexJs.messageReactionAdd now r) w in
     IndexJs.pendingActions w1 !! on_message r = None /\
     forall (now' : Z) (fs : list bool),
       let w2 := exec (IndexJs.messageReactionAdd now' r)
                   (IndexJs.with_faults fs w1) in
       IndexJs.ledger w2 = IndexJs.ledger w1 /\
       IndexJs.pendingActions w2 = IndexJs.pendingActions w1 /\
       IndexJs.replies w2 = IndexJs.replies w1) /\
  (forall (ADMIN_IDS : list string) (now : Z) (m : message)
          (w : Split.world) (p : Split.pending),
     author_bot m = true ->
     author_id m = MUDAE_ID ->
     Split.pendingRepayments w !! channel_id m = Some p ->
     JS.includes (JS.toLowerCase (content m))
       (JS.toString (Split.amount p)) = true ->
     JS.includes (JS.toLowerCase (content m)) "removed" = true ->
     let w1 := exec (Part001.messageCreate ADMIN_IDS now m) w in
     Split.pendingRepayments w1 !! channel_id m = None /\
     forall (now' : Z) (fs : list bool),
       let w2 := exec (Part001.messageCreate ADMIN_IDS now' m)
                   (Split.with_faults fs w1) in
       Split.ledger w2 = Split.ledger w1 /\
       Split.pendingRepayments w2 = Split.pendingRepayments w1 /\
       Split.pendingLoans w2 = Split.pendingLoans w1 /\
       Split.replies w2 = Split.replies w1).
Proof.
  split.
  - intros now r w a Hfetch Huser Hmark Htrack Hsome w1.
    assert (Hgone : IndexJs.pendingActions w1 !! on_message r = None).
    { unfold w1, exec.
      rewrite (index_reaction_hit now r w a) by done.
      apply lookup_delete_eq. }
    split; [exact Hgone|]. intros now' fs w2.
    destruct (index_reaction_miss now' r (IndexJs.with_faults fs w1))
      as [fs' Hmiss]; [exact Hgone|].
    unfold w2, exec. by rewrite Hmiss.
  - intros ADMIN_IDS now m w p Hbot Hauthor Hsome Hamount Hkey w1.
    assert (Hgone : Split.pendingRepayments w1 !! channel_id m = None).
    { unfold w1, exec.
      rewrite part001_messageCreate_bot by done.
      rewrite (part001_message_hit now m w p) by done.
      apply lookup_delete_eq. }
    split; [exact Hgone|]. intros now' fs w2.
    unfold w2, exec. rewrite part001_messageCreate_bot by done.
    by rewrite part001_message_miss.
Qed.

Lemma C1_confirmation_applied_at_most_once_witness :
  (let w1 := exec (IndexJs.messageReactionAdd 6000 IndexScenario.checkmark)
               IndexScenario.awaiting in
   IndexJs.pendingActions w1 !! "900" = None /\
   IndexJs.ledger
     (exec (IndexJs.messageReactionAdd 7000 IndexScenario.checkmark) w1)
   = IndexJs.ledger w1) /\
  (let w1 := exec (Part001.messageCreate SplitScenario.admins 6000
                     SplitScenario.removed_100) SplitScenario.awaiting in
   Split.pendingRepayments w1 !! "77" = None /\
   Split.ledger
     (exec (Part001.messageCreate SplitScenario.admins 7000
              SplitScenario.removed_100) w1)
   = Split.ledger w1).
Proof.
  destruct C1_confirmation_applied_at_most_once as [Hindex Hloose]. split.
  - destruct (Hindex 6000 IndexScenario.checkmark IndexScenario.awaiting
                (IndexJs.Action IndexJs.LOAN "9" "1001" 100 5000))
      as [Hgone Hagain]; try reflexivity.
    split; [exact Hgone|]. exact (proj1 (Hagain 7000 [])).
  - destruct (Hloose SplitScenario.admins 6000 SplitScenario.removed_100
                SplitScenario.awaiting (Split.Pending "9" "1001" 100 1000))
      as [Hgone Hagain]; try reflexivity.
    split; [exact Hgone|]. exact (proj1 (Hagain 7000 [])).
Defined.

(** C10.  Once a confirmation has matched an entry, the handler returns
    normally in the state that its [try] block reached, whether the
    block returned or threw, with the entry deleted; the same signal
    emitted again finds nothing and leaves the ledger as it is.  First
    for the reaction listener of [src/index.js], then for the
    Mudae-message listener of [src/unnamed/part_001]. *)
Theorem C10_entry_deleted_when_ledger_call_throws :
  (forall (now : Z) (r : reaction) (w : IndexJs.world) (a : IndexJs.action),
     fetch_rejects r (IndexJs.outside w) = false ->
     user_id r = MUDAE_ID ->
     is_checkmark (emoji_name r) = true ->
     IndexJs.isTrackingEnabled w = true ->
     IndexJs.pendingActions w !! on_message r = Some a ->
     let block := IndexJs.execute now r a (exec (IndexJs.fetch r) w) in
     let w1 := exec (IndexJs.messageReactionAdd now r) w in
     result (IndexJs.messageReactionAdd now r) w = Ok tt /\
     w1 = IndexJs.pending_delete (on_message r) block.2 /\
     IndexJs.pendingActions w1 !! on_message r = None /\
     forall (now' : Z) (fs : list bool),
       IndexJs.ledger (exec (IndexJs.messageReactionAdd now' r)
                         (IndexJs.with_faults fs w1))
       = IndexJs.ledger w1) /\
  (forall (now : Z) (m : message) (w : Split.world) (p : Split.pending),
     author_id m = MUDAE_ID ->
     Split.pendingRepayments w !! channel_id m = Some p ->
     JS.includes (JS.toLowerCase (content m))
       (JS.toString (Split.amount p)) = true ->
     JS.includes (JS.toLowerCase (content m)) "removed" = true ->
     let block := Part001.repay now m p w in
     let w1 := exec (Part001.onMudaeMessage now m) w in
     result (Part001.onMudaeMessage now m) w = Ok tt /\
     w1 = Split.repayments_delete (channel_id m) block.2 /\
     Split.pendingRepayments w1 !! channel_id m = None /\
     forall (now' : Z) (fs : list bool),
       Split.ledger (exec (Part001.onMudaeMessage now' m)
                       (Split.with_faults fs w1))
       = Split.ledger w1).
Proof.
  split.
  - intros now r w a Hfetch Huser Hmark Htrack Hsome block w1.
    pose proof (index_reaction_hit now r w a Hfetch Huser Hmark Htrack Hsome)
      as Hhit.
    assert (Hw1 : w1 = IndexJs.pending_delete (on_message r) block.2)
      by (unfold w1, exec; by rewrite Hhit).
    assert (Hgone : IndexJs.pendingActions w1 !! on_message r = None)
      by (rewrite Hw1; apply lookup_delete_eq).
    split; [unfold result; by rewrite Hhit|].
    split; [exact Hw1|]. split; [exact Hgone|]. intros now' fs.
    destruct (index_reaction_miss now' r (IndexJs.with_faults fs w1))
      as [fs' Hmiss]; [exact Hgone|].
    unfold exec. by rewrite Hmiss.
  - intros now m w p Hauthor Hsome Hamount Hkey block w1.
    pose proof (part001_message_hit now m w p Hauthor Hsome Hamount Hkey)
      as Hhit.
    assert (Hw1 : w1 = Split.repayments_delete (channel_id m) block.2)
      by (unfold w1, exec; by rewrite Hhit).
    assert (Hgone : Split.pendingRepayments w1 !! channel_id m = None)
      by (rewrite Hw1; apply lookup_delete_eq).
    split; [unfold result; by rewrite Hhit|].
    split; [exact Hw1|]. split; [exact Hgone|]. intros now' fs.
    unfold exec. by rewrite part001_message_miss.
Qed.

(** A run of each handler in which a ledger call throws: the [INSERT] of
    [logDebt] in the first, the [pool.connect] of [payDebt] in the
    second.  No debt is created or reduced, the entry is gone, and the
    signal emitted again under a silent oracle changes nothing. *)
Lemma C10_entry_deleted_when_ledger_call_throws_witness :
  (let w := IndexScenario.awaiting_insert_fails in
   let a := IndexJs.Action IndexJs.LOAN "9" "1001" 100 5000 in
   let w1 := exec (IndexJs.messageReactionAdd 6000 IndexScenario.checkmark) w in
   result (IndexJs.execute 6000 IndexScenario.checkmark a) w = Throw /\
   result (IndexJs.messageReactionAdd 6000 IndexScenario.checkmark) w = Ok tt /\
   IndexJs.pendingActions w1 !! "900" = None /\
   IndexJs.ledger w1 = ([], 1) /\
   IndexJs.ledger
     (exec (IndexJs.messageReactionAdd 7000 IndexScenario.checkmark) w1)
   = ([], 1)) /\
  (let w := SplitScenario.awaiting_connect_fails in
   let p := Split.Pending "9" "1001" 100 1000 in
   let w1 := exec (Part001.onMudaeMessage 6000 SplitScenario.removed_100) w in
   result (Part001.repay 6000 SplitScenario.removed_100 p) w = Throw /\
   result (Part001.onMudaeMessage 6000 SplitScenario.removed_100) w = Ok tt /\
   Split.pendingRepayments w1 !! "77" = None /\
   Split.ledger w1 = ([SplitScenario.owed], 2) /\
   Split.ledger
     (exec (Part001.onMudaeMessage 7000 SplitScenario.removed_100) w1)
   = ([SplitScenario.owed], 2)).
Proof.
  destruct C10_entry_deleted_when_ledger_call_throws as [Hindex Hloose].
  split.
  - destruct (Hindex 6000 IndexScenario.checkmark
                IndexScenario.awaiting_insert_fails
                (IndexJs.Action IndexJs.LOAN "9" "1001" 100 5000))
      as (Hok & Hw1 & Hgone & Hagain); try reflexivity.
    cbv zeta. split; [reflexivity|]. split; [exact Hok|].
    split; [exact Hgone|]. split; [reflexivity|].
    specialize (Hagain 7000 []). cbv zeta in Hagain.
    etransitivity; [exact Hagain|reflexivity].
  - destruct (Hloose 6000 SplitScenario.removed_100
                SplitScenario.awaiting_connect_fails
                (Split.Pending "9" "1001" 100 1000))
      as (Hok & Hw1 & Hgone & Hagain); try reflexivity.
    cbv zeta. split; [reflexivity|]. split; [exact Hok|].
    split; [exact Hgone|]. split; [reflexivity|].
    specialize (Hagain 7000 []). cbv zeta in Hagain.
    etransitivity; [exact Hagain|reflexivity].
Defined.

End Confirmation.

(** ** Triggers *)

Section Triggers.
Import Ledger Discord Spec.

(** C2, as the code has it.  In the three revisions that keep a pending
    table, the listener that registers a trigger calls nothing outside
    the process: for every message the table of debts, the sequence and
    the oracle are what they were, and nothing is sent. *)
Theorem C2_trigger_registration_leaves_ledger :
  forall (ADMIN_IDS : list string) (now : Z) (m : message),
  (forall w : IndexJs.world,
     let w' := exec (IndexJs.messageCreate ADMIN_IDS now m) w in
     IndexJs.outside w' = IndexJs.outside w /\
     IndexJs.replies w' = IndexJs.replies w) /\
  (forall w : Split.world,
     let w' := exec (Split.onAdminMessage ADMIN_IDS now m) w in
     Split.outside w' = Split.outside w /\
     Split.replies w' = Split.replies w).
Proof.
  intros ADMIN_IDS now m. split; intros w w'.
  - unfold w', exec.
    destruct (index_messageCreate_cases ADMIN_IDS now m w) as [-> | [a ->]];
      done.
  - by destruct (onAdminMessage_outside ADMIN_IDS now m w) as (? & ? & _).
Qed.

(** C2 as stated fails in the revision without a pending table
    ([src/unnamed/part_001], second document): the trigger message itself
    creates the debt. *)
Lemma C2_counterexample :
  giveRegex (content LegacyScenario.give_trigger) = Some ("1001", "100") /\
  Legacy.ledger LegacyScenario.start = ([], 1) /\
  Legacy.ledger
    (exec (Legacy.messageCreate ["9"] 5000 LegacyScenario.give_trigger)
       LegacyScenario.start)
  = ([Debt 1 "1001" "9" 100 100 5000 5000 Open "Auto-detected"], 2).
Proof. repeat split; vm_compute; reflexivity. Qed.

(** What a confirmed entry does in [src/index.js] when no call is
    rejected by the oracle: a loan is recorded after accrual, unless its
    amount is outside [INTEGER]; a repayment is [payDebt] after accrual. *)
Lemma index_execute_clean (now : Z) (r : reaction)
    (w : IndexJs.world) (a : IndexJs.action) :
  faults (IndexJs.outside w) = [] ->
  let s := IndexJs.outside w in
  let w' := exec (IndexJs.execute now r a) w in
  IndexJs.pendingActions w' = IndexJs.pendingActions w /\
  IndexJs.ledger w' =
    match IndexJs.type a with
    | IndexJs.LOAN =>
        if in_integer (IndexJs.amount a) then
          (table (exec (applyInterest now) s) ++
           [Debt (serial s) (IndexJs.userId a) (IndexJs.adminId a)
              (IndexJs.amount a) (IndexJs.amount a) now now Open
              "Verified by Mudae"],
           serial s + 1)
        else contents (exec (applyInterest now) s)
    | IndexJs.REPAY =>
        contents (exec (payDebt (IndexJs.userId a) (IndexJs.amount a))
                    (exec (applyInterest now) s))
    end.
Proof.
  intros Hf s w'. unfold w', exec, IndexJs.execute.
  assert (Hfirst : IndexJs.db (applyInterest now) w =
    (Ok tt,
     IndexJs.World (exec (applyInterest now) s)
       (IndexJs.isTrackingEnabled w) (IndexJs.pendingActions w)
       (IndexJs.replies w))).
  { unfold IndexJs.db. fold s. rewrite (applyInterest_clean now s Hf).
    unfold exec. by rewrite (applyInterest_clean now s Hf). }
  set (s1 := exec (applyInterest now) s) in *.
  destruct (IndexJs.type a).
  - rewrite bind_run, Hfirst, bind_run.
    pose proof (index_db_frame
                  (logDebt now (IndexJs.userId a) (IndexJs.adminId a)
                     (IndexJs.amount a) "Verified by Mudae")
                  (IndexJs.World s1 (IndexJs.isTrackingEnabled w)
                     (IndexJs.pendingActions w) (IndexJs.replies w)))
      as (_ & Hp & _ & Ho & Hr).
    cbn [IndexJs.outside IndexJs.pendingActions] in Hp, Ho, Hr.
    assert (Hlog :
      logDebt now (IndexJs.userId a) (IndexJs.adminId a) (IndexJs.amount a)
        "Verified by Mudae" s1 =
      if in_integer (IndexJs.amount a) then
        (Ok (serial s),
         Env (table s1 ++
              [Debt (serial s) (IndexJs.userId a) (IndexJs.adminId a)
                 (IndexJs.amount a) (IndexJs.amount a) now now Open
                 "Verified by Mudae"]) (serial s + 1) [])
      else (Throw, s1)).
    { unfold s1, exec. rewrite (applyInterest_clean now s Hf). cbn [snd].
      unfold logDebt, pool_connect, query_insert. rewrite !bind_run.
      cbn. rewrite andb_diag. by destruct (in_integer (IndexJs.amount a)). }
    rewrite Hlog in Ho, Hr.
    destruct (IndexJs.db _ (IndexJs.World s1 _ _ _)) as [o w1].
    cbn [fst snd] in Hp, Ho, Hr.
    destruct (in_integer (IndexJs.amount a)); cbn [fst snd] in Ho, Hr;
      subst o.
    + match goal with
      | |- context [IndexJs.reply ?to ?t w1] =>
          destruct (index_reply_frame to t w1) as (Hl & _ & Hp')
      end.
      unfold exec in Hl, Hp'. split; [congruence|].
      rewrite Hl. unfold IndexJs.ledger. by rewrite Ho.
    + cbn [snd]. split; [done|]. unfold IndexJs.ledger. by rewrite Ho.
  - rewrite bind_run, Hfirst, bind_run.
    pose proof (index_db_frame
                  (payDebt (IndexJs.userId a) (IndexJs.amount a))
                  (IndexJs.World s1 (IndexJs.isTrackingEnabled w)
                     (IndexJs.pendingActions w) (IndexJs.replies w)))
      as (_ & Hp & _ & Ho & _).
    cbn [IndexJs.outside IndexJs.pendingActions] in Hp, Ho.
    destruct (IndexJs.db _ (IndexJs.World s1 _ _ _)) as [[logs|] w1];
      cbn [snd] in Hp, Ho |- *.
    + match goal with
      | |- context [if ?b then IndexJs.reply ?to ?t1 else IndexJs.reply ?to ?t2] =>
          replace (if b then IndexJs.reply to t1 else IndexJs.reply to t2)
            with (IndexJs.reply to (if b then t1 else t2))
            by (by destruct b);
          destruct (index_reply_frame to (if b then t1 else t2) w1)
            as (Hl & _ & Hp')
      end.
      unfold exec in Hl, Hp'. split; [congruence|].
      rewrite Hl. unfold IndexJs.ledger, exec. by rewrite Ho.
    + split; [done|]. unfold IndexJs.ledger, exec. by rewrite Ho.
Qed.

(** C8.  Two messages under one key in [src/index.js], the second a
    trigger, loan or repayment, of an amount below 2^53 (where
    [parseInt] is exact): the world after both is the world after the
    second alone, so the first leaves no trace; the table holds the
    second's entry under the key and is otherwise what it was; the
    ledger is untouched.  Mudae's checkmark, in a run in which the
    oracle rejects nothing, then deletes the entry and applies the
    second's amount and nothing else: after a loan trigger it appends,
    after accrual, one debt of that amount (and nothing when the amount
    is outside [INTEGER]); after a repayment trigger the ledger is the
    one that [payDebt] of that amount leaves after accrual. *)
Theorem C8_last_trigger_wins (ADMIN_IDS : list string) (now1 now2 : Z)
    (m1 m2 : message) (w : IndexJs.world) (kind : IndexJs.action_type)
    (user digits : string) (n : Z) :
  message_id m1 = message_id m2 ->
  author_bot m2 = false ->
  author_id m2 ∈ ADMIN_IDS ->
  IndexJs.isTrackingEnabled w = true ->
  JS.includes (JS.toLowerCase (content m2)) "#exempt" = false ->
  match kind with
  | IndexJs.LOAN => giveRegex (content m2)
  | IndexJs.REPAY => takeRegex (content m2)
  end = Some (user, digits) ->
  JS.parseInt digits = Some n ->
  n < 2 ^ 53 ->
  let a2 := IndexJs.Action kind (author_id m2) user n now2 in
  let w2 := exec (IndexJs.messageCreate ADMIN_IDS now2 m2)
              (exec (IndexJs.messageCreate ADMIN_IDS now1 m1) w) in
  w2 = exec (IndexJs.messageCreate ADMIN_IDS now2 m2) w /\
  IndexJs.pendingActions w2 = <[message_id m2 := a2]> (IndexJs.pendingActions w) /\
  IndexJs.outside w2 = IndexJs.outside w /\
  forall (now3 : Z) (r : reaction),
    partial r = false ->
    user_id r = MUDAE_ID ->
    is_checkmark (emoji_name r) = true ->
    on_message r = message_id m2 ->
    faults (IndexJs.outside w) = [] ->
    let s := IndexJs.outside w in
    let w3 := exec (IndexJs.messageReactionAdd now3 r) w2 in
    IndexJs.pendingActions w3 =
      delete (message_id m2) (IndexJs.pendingActions w) /\
    IndexJs.ledger w3 =
      match kind with
      | IndexJs.LOAN =>
          if in_integer n then
            (table (exec (applyInterest now3) s) ++
             [Debt (serial s) user (author_id m2) n n now3 now3 Open
                "Verified by Mudae"],
             serial s + 1)
          else contents (exec (applyInterest now3) s)
      | IndexJs.REPAY =>
          contents (exec (payDebt user n) (exec (applyInterest now3) s))
      end.
Proof.
  intros Hkey Hbot Hadmin Htrack Hex Hmatch Hint Hexact a2 w2.
  assert (Hsecond : forall w0, IndexJs.isTrackingEnabled w0 = true ->
    IndexJs.messageCreate ADMIN_IDS now2 m2 w0 =
    IndexJs.pending_set (message_id m2) a2 w0).
  { intros w0 H0. unfold IndexJs.messageCreate, IndexJs.register.
    rewrite Hbot, (bool_decide_eq_true_2 _ Hadmin), H0, Hex. cbn [negb].
    destruct kind.
    - rewrite Hmatch. cbn [snd fst]. by rewrite Hint.
    - destruct (giveRegex (content m2)) as [g|] eqn:Hgive.
      + by rewrite (give_not_take _ _ Hgive) in Hmatch.
      + rewrite Hmatch. cbn [snd fst]. by rewrite Hint. }
  assert (Hw2 : w2 = exec (IndexJs.pending_set (message_id m2) a2) w).
  { unfold w2, exec at 1 2.
    destruct (index_messageCreate_cases ADMIN_IDS now1 m1 w) as [-> | [a1 ->]].
    - by rewrite Hsecond.
    - rewrite Hsecond by done. rewrite Hkey. unfold exec. simpl.
      by rewrite insert_insert_eq. }
  clearbody w2. subst w2.
  split; [unfold exec; by rewrite Hsecond|].
  split; [done|]. split; [done|].
  intros now3 r Hpartial Huser Hmark Hon Hf s w3.
  set (w2 := exec (IndexJs.pending_set (message_id m2) a2) w) in *.
  assert (Hhit : IndexJs.messageReactionAdd now3 r w2 =
    (Ok tt, IndexJs.pending_delete (on_message r)
              (exec (IndexJs.execute now3 r a2) (exec (IndexJs.fetch r) w2)))).
  { apply index_reaction_hit; try done.
    - unfold fetch_rejects. by rewrite Hpartial.
    - rewrite Hon. apply lookup_insert_eq. }
  assert (Hfetch : exec (IndexJs.fetch r) w2 = w2)
    by (unfold IndexJs.fetch; by rewrite Hpartial).
  assert (Hw3 : w3 = IndexJs.pending_delete (message_id m2)
                       (exec (IndexJs.execute now3 r a2) w2)).
  { unfold w3, exec at 1. by rewrite Hhit, Hfetch, Hon. }
  destruct (index_execute_clean now3 r w2 a2 Hf) as [Hp Hl].
  rewrite Hw3. split.
  - cbn [IndexJs.pending_delete IndexJs.pendingActions]. rewrite Hp.
    unfold w2, exec. simpl. apply delete_insert_eq.
  - exact Hl.
Qed.

(** A loan trigger overwritten by a loan trigger, and a loan trigger
    overwritten by a repayment trigger, each confirmed. *)
Lemma C8_last_trigger_wins_witness :
  IndexJs.ledger
    (exec (IndexJs.messageReactionAdd 3000 IndexScenario.checkmark)
       (exec (IndexJs.messageCreate IndexScenario.admins 2000
                IndexScenario.second_trigger)
          (exec (IndexJs.messageCreate IndexScenario.admins 1000
                   IndexScenario.first_trigger) IndexScenario.start)))
  = ([Debt 1 "1001" "9" 250 250 3000 3000 Open "Verified by Mudae"], 2) /\
  IndexJs.ledger
    (exec (IndexJs.messageReactionAdd 3000 IndexScenario.checkmark)
       (exec (IndexJs.messageCreate IndexScenario.admins 2000
                IndexScenario.take_trigger)
          (exec (IndexJs.messageCreate IndexScenario.admins 1000
                   IndexScenario.first_trigger) IndexScenario.owing)))
  = ([Debt 1 "1001" "9" 500 380 0 0 Open ""], 2) /\
  IndexJs.pendingActions
    (exec (IndexJs.messageReactionAdd 3000 IndexScenario.checkmark)
       (exec (IndexJs.messageCreate IndexScenario.admins 2000
                IndexScenario.take_trigger)
          (exec (IndexJs.messageCreate IndexScenario.admins 1000
                   IndexScenario.first_trigger) IndexScenario.owing)))
  = ∅.
Proof.
  destruct (C8_last_trigger_wins IndexScenario.admins 1000 2000
              IndexScenario.first_trigger IndexScenario.second_trigger
              IndexScenario.start IndexJs.LOAN "1001" "250" 250)
    as (_ & _ & _ & Hloan); try reflexivity.
  { compute_done. }
  destruct (C8_last_trigger_wins IndexScenario.admins 1000 2000
              IndexScenario.first_trigger IndexScenario.take_trigger
              IndexScenario.owing IndexJs.REPAY "1001" "120" 120)
    as (_ & _ & _ & Hrepay); try reflexivity.
  { compute_done. }
  destruct (Hloan 3000 IndexScenario.checkmark) as [_ Hl1]; try reflexivity.
  destruct (Hrepay 3000 IndexScenario.checkmark) as [Hp2 Hl2];
    try reflexivity.
  split; [exact Hl1|]. split; [exact Hl2|exact Hp2].
Defined.

End Triggers.

(** ** The tests that guard the handlers *)

Section Guards.
Import Ledger Discord Spec.

Lemma span_fst_idem (p : ascii -> bool) (s : string) :
  (JS.span p (JS.span p s).1).1 = (JS.span p s).1.
Proof.
  induction s as [|c s IH]; [done|]. simpl.
  destruct (p c) eqn:E; [|done].
  destruct (JS.span p s) as [a b]. simpl in *. rewrite E.
  destruct (JS.span p a) as [a' b']. simpl in *. by rewrite IH.
Qed.

Lemma digits_parseInt (s ds rest : string) :
  JS.digits s = Some (ds, rest) -> is_Some (JS.parseInt ds).
Proof.
  unfold JS.digits, JS.parseInt. intros H.
  pose proof (span_fst_idem JS.is_digit s) as Hidem.
  destruct (JS.span JS.is_digit s) as [a b]. simpl in Hidem.
  destruct a as [|c a]; [done|]. injection H as <- <-.
  rewrite Hidem. eauto.
Qed.

(** The capture [(\d+)] of a trigger always parses: the branch of
    [register] and [entry] for NaN is never taken. *)
Lemma trigger_amount (verbs : list string) (content user amount : string) :
  JS.trigger verbs content = Some (user, amount) ->
  is_Some (JS.parseInt amount).
Proof.
  unfold JS.trigger. intros H.
  destruct (JS.lit "$" content) as [s1|]; [|done]. cbn [mbind option_bind] in H.
  destruct (JS.alt verbs s1) as [s2|]; [|done]. cbn [mbind option_bind] in H.
  destruct (JS.spaces s2) as [s3|]; [|done]. cbn [mbind option_bind] in H.
  destruct (JS.lit "<@" s3) as [s4|]; [|done]. cbn [mbind option_bind] in H.
  destruct (JS.digits _) as [[u s6]|]; [|done]. cbn [mbind option_bind] in H.
  destruct (JS.lit ">" s6) as [s7|]; [|done]. cbn [mbind option_bind] in H.
  destruct (JS.spaces s7) as [s8|]; [|done]. cbn [mbind option_bind] in H.
  destruct (JS.digits s8) as [[a r]|] eqn:Hd; [|done]. cbn [mbind option_bind] in H.
  injection H as _ <-. by eapply digits_parseInt.
Qed.

(** With the flag off, [src/index.js] registers nothing and honours no
    reaction. *)
Lemma index_tracking_off (ADMIN_IDS : list string) (now : Z) (m : message)
    (r : reaction) (w : IndexJs.world) :
  IndexJs.isTrackingEnabled w = false ->
  IndexJs.messageCreate ADMIN_IDS now m w = (Ok tt, w) /\
  exists fs, IndexJs.messageReactionAdd now r w =
             (Ok tt, IndexJs.with_faults fs w).
Proof.
  intros Hoff. split.
  - unfold IndexJs.messageCreate. rewrite Hoff.
    destruct (author_bot m); [done|]. by destruct (negb (bool_decide _)).
  - unfold IndexJs.messageReactionAdd, mbind, M_bind.
    destruct (index_fetch_run r w) as [fs ->]. exists fs.
    destruct (negb (negb _)); [done|].
    destruct (negb (String.eqb _ _)); [done|].
    destruct (negb (is_checkmark _)); [done|].
    simpl. by rewrite Hoff.
Qed.

(** With the flag off, [src/unnamed/part_000] registers nothing and
    honours no Mudae message. *)
Lemma part000_tracking_off (ADMIN_IDS : list string) (now : Z) (m : message)
    (w : Split.world) :
  Split.isTrackingEnabled w = false ->
  Part000.messageCreate ADMIN_IDS now m w = (Ok tt, w).
Proof.
  intros Hoff. unfold Part000.messageCreate, mbind, M_bind.
  assert (Split.onAdminMessage ADMIN_IDS now m w = (Ok tt, w)) as ->.
  { unfold Split.onAdminMessage. rewrite Hoff.
    destruct (author_bot m); [done|]. by destruct (bool_decide _). }
  unfold Part000.onMudaeMessage. rewrite Hoff.
  by destruct (negb (String.eqb _ _)).
Qed.

(** With the flag off, listener 1 of the revisions with two tables
    registers nothing. *)
Lemma split_tracking_off_trigger (ADMIN_IDS : list string) (now : Z)
    (m : message) (w : Split.world) :
  Split.isTrackingEnabled w = false ->
  Split.onAdminMessage ADMIN_IDS now m w = (Ok tt, w).
Proof.
  intros Hoff. unfold Split.onAdminMessage. rewrite Hoff.
  destruct (author_bot m); [done|]. by destruct (bool_decide _).
Qed.

(** [src/unnamed/part_000] compares the amount it parsed with the
    pending one: any other amount leaves the world as it is. *)
Lemma part000_other_amount (now : Z) (m : message) (w : Split.world)
    (p : Split.pending) (capture : string) :
  Split.pendingRepayments w !! channel_id m = Some p ->
  Part000.mudaeRegex (content m) = Some capture ->
  JS.parseInt (Part000.remove_commas capture) <> Some (Split.amount p) ->
  Part000.onMudaeMessage now m w = (Ok tt, w).
Proof.
  intros Hsome Hmatch Hne. unfold Part000.onMudaeMessage.
  destruct (negb (String.eqb _ _)); [done|].
  destruct (negb (Split.isTrackingEnabled w)); [done|].
  rewrite Hsome, Hmatch. cbv zeta.
  by rewrite bool_decide_eq_false_2.
Qed.

(** The loose parsing of [src/unnamed/part_001] consumes the entry
    exactly when the lowered text includes the digits of the pending
    amount and the word [removed]. *)
Lemma part001_consumes_iff (now : Z) (m : message) (w : Split.world)
    (p : Split.pending) :
  author_id m = MUDAE_ID ->
  Split.pendingRepayments w !! channel_id m = Some p ->
  let text := JS.toLowerCase (content m) in
  (JS.includes text (JS.toString (Split.amount p)) && JS.includes text "removed"
   = true ->
   Split.pendingRepayments (exec (Part001.onMudaeMessage now m) w)
     !! channel_id m = None) /\
  (JS.includes text (JS.toString (Split.amount p)) && JS.includes text "removed"
   = false ->
   Part001.onMudaeMessage now m w = (Ok tt, w)).
Proof.
  intros Hauthor Hsome text. split; intros Htest.
  - apply andb_true_iff in Htest as [Ha Hk].
    unfold exec. rewrite (part001_message_hit now m w p) by done.
    apply lookup_delete_eq.
  - unfold Part001.onMudaeMessage.
    rewrite Hauthor, String.eqb_refl, Hsome. cbn [negb]. cbv zeta.
    fold text. by rewrite Htest.
Qed.

(** C7 fails in [src/unnamed/part_001].  A repayment is registered while
    tracking is on, tracking is switched off, and Mudae's message comes:
    listener 2 of that revision does not test the flag, and the debt is
    reduced and the entry consumed while the flag is off.  Listener 2 of
    [src/unnamed/part_000] tests it: there the same events leave the
    ledger and the entry alone. *)
Theorem C7_tracking_off_confirmation_honoured :
  let off := SplitScenario.switched_off Part001.messageCreate in
  let after := exec (Part001.messageCreate SplitScenario.admins 3000
                       SplitScenario.removed_100) off in
  let off0 := SplitScenario.switched_off Part000.messageCreate in
  let after0 := exec (Part000.messageCreate SplitScenario.admins 3000
                        SplitScenario.removed_100) off0 in
  (Split.isTrackingEnabled off = false /\
   Split.pendingRepayments off !! "77"
     = Some (Split.Pending "9" "1001" 100 1000) /\
   Split.ledger off = ([SplitScenario.owed], 2) /\
   Split.isTrackingEnabled after = false /\
   Split.ledger after = ([set_remaining 400 SplitScenario.owed], 2) /\
   Split.pendingRepayments after !! "77" = None) /\
  (off0 = off /\
   Split.ledger after0 = ([SplitScenario.owed], 2) /\
   Split.pendingRepayments after0 !! "77"
     = Some (Split.Pending "9" "1001" 100 1000)).
Proof.
  cbv zeta.
  split; [repeat split; vm_compute; reflexivity|].
  split; [reflexivity|].
  unfold exec at 1 2. rewrite part000_tracking_off by reflexivity.
  split; vm_compute; reflexivity.
Qed.

(** C9 fails in [src/unnamed/part_001].  A repayment of 100 is pending
    and Mudae reports a removal of 1000: the text includes the digits
    [100], so the loose parsing consumes the entry and repays 100.  In
    [src/unnamed/part_000] the amount parsed from the same message, 1000,
    is compared with 100, and nothing happens. *)
Theorem C9_loose_parsing_takes_other_amount :
  let m := SplitScenario.removed_1000 in
  let w := SplitScenario.awaiting in
  let after := exec (Part001.messageCreate SplitScenario.admins 3000 m) w in
  let after0 := exec (Part000.messageCreate SplitScenario.admins 3000 m) w in
  (Split.pendingRepayments w !! channel_id m
     = Some (Split.Pending "9" "1001" 100 1000) /\
   Part000.mudaeRegex (content m) = Some "1000" /\
   JS.includes (JS.toLowerCase (content m)) (JS.toString 100) = true) /\
  (Split.ledger after = ([set_remaining 400 SplitScenario.owed], 2) /\
   Split.pendingRepayments after !! channel_id m = None) /\
  after0 = w.
Proof.
  cbv zeta. split; [repeat split; vm_compute; reflexivity|].
  split; [split; vm_compute; reflexivity|].
  unfold exec, Part000.messageCreate, mbind, M_bind.
  rewrite onAdminMessage_bot by reflexivity.
  by rewrite (part000_other_amount 3000 SplitScenario.removed_1000
                SplitScenario.awaiting (Split.Pending "9" "1001" 100 1000)
                "1000").
Qed.

End Guards.

(** * Further properties of the code *)

(** ** The ledger functions under any fault schedule *)

Section LedgerLaws.
Import Ledger Spec Laws.


Lemma remapped_refl (Q : debt -> debt -> Prop) (s : env) (fs : list bool) :
  (forall r, Q r r) -> remapped Q s (refault fs s).
Proof.
  intros Hrefl. split; [done|]. exists (fun r => r). split; [|done].
  simpl. by rewrite map_id.
Qed.

Lemma remapped_trans (Q : debt -> debt -> Prop) (s1 s2 s3 : env) :
  (forall x y z, Q x y -> Q y z -> Q x z) ->
  remapped Q s1 s2 -> remapped Q s2 s3 -> remapped Q s1 s3.
Proof.
  intros Htrans [Hn1 (g1 & Ht1 & Hg1)] [Hn2 (g2 & Ht2 & Hg2)].
  split; [congruence|]. exists (fun r => g2 (g1 r)). split.
  - by rewrite Ht2, Ht1, map_map.
  - intros r. by eapply Htrans.
Qed.

Lemma remapped_update (Q : debt -> debt -> Prop) (f : debt -> debt) (i : Z)
    (s : env) :
  (forall r, Q r r) -> (forall r, debt_id r = i -> Q r (f r)) ->
  remapped Q s (exec (query_update f i) s).
Proof.
  intros Hrefl Hf. unfold query_update. rewrite exec_bind.
  destruct (call_cases s) as [fs [-> | ->]]; [|by apply remapped_refl].
  split; [done|].
  exists (fun d => if debt_id d =? i then f d else d). split; [done|].
  intros r. destruct (debt_id r =? i) eqn:E; [|done].
  by apply Hf, Z.eqb_eq.
Qed.


Lemma same_identity_refl (r : debt) : same_identity r r.
Proof. by repeat split. Qed.

Lemma same_identity_trans (x y z : debt) :
  same_identity x y -> same_identity y z -> same_identity x z.
Proof.
  intros (?&?&?&?&?&?) (?&?&?&?&?&?). repeat split; congruence.
Qed.

Lemma accrual_step_refl (ids : list Z) (r : debt) : accrual_step ids r r.
Proof. split; [apply same_identity_refl|done]. Qed.

Lemma accrual_step_trans (ids : list Z) (x y z : debt) :
  accrual_step ids x y -> accrual_step ids y z -> accrual_step ids x z.
Proof.
  intros (Hi1 & Hs1 & Hf1) (Hi2 & Hs2 & Hf2).
  split; [by eapply same_identity_trans|]. split; [congruence|].
  intros Hout. assert (y = x) as -> by auto. by apply Hf2.
Qed.

Lemma accrual_step_more (x : Z) (ids : list Z) (r r' : debt) :
  accrual_step ids r r' -> accrual_step (x :: ids) r r'.
Proof.
  intros (Hi & Hs & Hf). split; [done|]. split; [done|].
  intros Hout. apply Hf. intros Hin. apply Hout. by right.
Qed.

Lemma payment_step_refl (ids : list Z) (r : debt) : payment_step ids r r.
Proof. split; [apply same_identity_refl|done]. Qed.

Lemma payment_step_trans (ids : list Z) (x y z : debt) :
  payment_step ids x y -> payment_step ids y z -> payment_step ids x z.
Proof.
  intros (Hi1 & Hs1 & Hf1) (Hi2 & Hs2 & Hf2).
  split; [by eapply same_identity_trans|]. split; [congruence|].
  intros Hout. assert (y = x) as -> by auto. by apply Hf2.
Qed.

Lemma payment_step_more (x : Z) (ids : list Z) (r r' : debt) :
  payment_step ids r r' -> payment_step (x :: ids) r r'.
Proof.
  intros (Hi & Hs & Hf). split; [done|]. split; [done|].
  intros Hout. apply Hf. intros Hin. apply Hout. by right.
Qed.

Lemma remapped_more (Q Q' : debt -> debt -> Prop) (s s' : env) :
  (forall r r', Q r r' -> Q' r r') -> remapped Q s s' -> remapped Q' s s'.
Proof. intros Hsub [Hn (g & Ht & Hg)]. split; [done|]. eauto. Qed.

Lemma accrue_remapped (now : Z) (x : debt) (s : env) :
  remapped (accrual_step [debt_id x]) s (exec (accrue now x) s).
Proof.
  unfold accrue. destruct (0 <? weeksPassed now x).
  - assert (Hthrow : remapped (accrual_step [debt_id x]) s
                       (exec ((call;; throw) : Db unit) s)).
    { rewrite exec_bind.
      destruct (call_cases s) as [fs [-> | ->]];
        apply remapped_refl, accrual_step_refl. }
    unfold update_interest. destruct (JS.to_int _) as [a|]; [|exact Hthrow].
    destruct (in_integer a); [|exact Hthrow].
    apply remapped_update; [apply accrual_step_refl|].
    intros r Hid. split; [by repeat split|]. split; [done|].
    intros Hout. exfalso. apply Hout. rewrite Hid. by left.
  - destruct s as [t n fs].
    apply (remapped_refl _ (Env t n fs) fs), accrual_step_refl.
Qed.

Lemma for_each_accrue_remapped (now : Z) (l : list debt) :
  forall s, remapped (accrual_step (map debt_id l)) s
              (exec (for_each l (accrue now)) s).
Proof.
  induction l as [|x l IH]; intros s.
  - destruct s as [t n fs].
    apply (remapped_refl _ (Env t n fs) fs), accrual_step_refl.
  - simpl for_each. rewrite exec_bind.
    pose proof (accrue_remapped now x s) as Hx. unfold exec in Hx.
    destruct (accrue now x s) as [[[]|] s1]; simpl in Hx.
    + eapply remapped_trans; [apply accrual_step_trans| |].
      * eapply remapped_more; [|exact Hx].
        intros r r' (Hi & Hs & Hf). split; [done|]. split; [done|].
        intros Hout. apply Hf. intros Hin%list_elem_of_singleton.
        apply Hout. rewrite Hin. by left.
      * eapply remapped_more; [|apply IH].
        intros r r'. apply accrual_step_more.
    + eapply remapped_more; [|exact Hx].
      intros r r' (Hi & Hs & Hf). split; [done|]. split; [done|].
      intros Hout. apply Hf. intros Hin%list_elem_of_singleton.
      apply Hout. rewrite Hin. by left.
Qed.

Lemma applyInterest_remapped (now : Z) (s : env) :
  remapped
    (accrual_step (map debt_id (filter (fun d => is_open d = true) (table s))))
    s (exec (applyInterest now) s).
Proof.
  unfold applyInterest, pool_connect. rewrite exec_bind.
  destruct (call_cases s) as [fs [-> | ->]];
    [|apply remapped_refl, accrual_step_refl].
  unfold exec, try_catch, query_select. rewrite bind_run.
  rewrite bind_run.
  destruct (call_cases (refault fs s)) as [fs' [-> | ->]];
    [|apply (remapped_refl _ s fs'), accrual_step_refl].
  pose proof (for_each_accrue_remapped now
                (filter (fun d => is_open d = true) (table s))
                (refault fs' (refault fs s))) as H. unfold exec in H.
  change (table (refault fs s)) with (table s).
  destruct (for_each _ _ _) as [[[]|] s']; exact H.
Qed.

(** X1.  [applyInterest] rejects only when its [pool.connect] does: a
    failing [SELECT] or [UPDATE] is caught and the function returns. *)
Theorem applyInterest_throws_only_on_connect (now : Z) (s : env) :
  result (applyInterest now) s =
  if default false (head (faults s)) then Throw else Ok tt.
Proof.
  unfold result, applyInterest, pool_connect. rewrite bind_run.
  destruct s as [t n [|[] fs]]; simpl; [|done|];
    unfold try_catch; by destruct (_ ≫= _) as [[[]|] s'].
Qed.



(** X2.  Whatever the oracle does, [applyInterest] keeps the rows in
    place and writes only [amount_remaining] and [last_interest_at]:
    every row keeps its id, borrower, lender, principal, creation date,
    note and status, a paid row is left exactly as it is, and the
    sequence does not move. *)
Theorem applyInterest_frame (now : Z) (s : env) :
  NoDup (map debt_id (table s)) ->
  let s' := exec (applyInterest now) s in
  serial s' = serial s /\
  Forall2 (fun r r' => same_identity r r' /\
                       debt_status r' = debt_status r /\
                       (debt_status r = Paid -> r' = r))
    (table s) (table s').
Proof.
  intros Hnd s'.
  destruct (applyInterest_remapped now s) as [Hn (g & Ht & Hg)].
  split; [exact Hn|]. fold s' in Ht. rewrite Ht.
  apply Forall2_map_in. intros r Hr.
  destruct (Hg r) as (Hi & Hs & Hf). split; [done|]. split; [done|].
  intros Hpaid. apply Hf.
  intros Hin. apply list_elem_of_In, in_map_iff in Hin as [x [Hid Hx]].
  apply list_elem_of_In, list_elem_of_filter in Hx as [Hopen Hx].
  assert (x = r) as -> by (by eapply unique_by_id).
  unfold is_open in Hopen. apply bool_decide_eq_true in Hopen. congruence.
Qed.

Lemma applyInterest_frame_witness :
  Forall2 (fun r r' => same_identity r r' /\
                       debt_status r' = debt_status r /\
                       (debt_status r = Paid -> r' = r))
    (table Scenario.c5_env)
    (table (exec (applyInterest (30 * MS_PER_DAY))
              (refault [false; false; false; true] Scenario.c5_env))).
Proof.
  apply (applyInterest_frame (30 * MS_PER_DAY)
           (refault [false; false; false; true] Scenario.c5_env)).
  compute_done.
Defined.

End LedgerLaws.

Section PaymentLaws.
Import Ledger Spec Laws.

(** In a run that meets no fault the loop of [payDebt] is [settle] on
    every row, and returns [outcomes]. *)
Lemma pay_loop_settle (l : list debt) :
  forall (t : list debt) (n remaining : Z) (logs : list string),
  pay_loop l remaining logs (Env t n []) =
  (Ok (logs ++ outcomes l remaining), Env (map (settle l remaining) t) n []).
Proof.
  induction l as [|d l IH]; intros t n remaining logs.
  - simpl. by rewrite app_nil_r, map_id.
  - simpl pay_loop. simpl settle. simpl outcomes.
    destruct (remaining <=? 0).
    + simpl. by rewrite app_nil_r, map_id.
    + destruct (amount_remaining d <=? remaining).
      * rewrite bind_run, query_update_nil, IH, map_map.
        by rewrite <- app_assoc.
      * cbv zeta. rewrite bind_run, query_update_nil.
        destruct l; simpl; by rewrite ?Z.leb_refl.
Qed.

Lemma settle_other (l : list debt) :
  forall (remaining : Z) (r : debt),
  debt_id r ∉ map debt_id l -> settle l remaining r = r.
Proof.
  induction l as [|d l IH]; intros remaining r Hout; [done|]. simpl.
  assert ((debt_id r =? debt_id d) = false) as ->.
  { apply Z.eqb_neq. intros E. apply Hout. rewrite E. by left. }
  destruct (remaining <=? 0); [done|].
  destruct (amount_remaining d <=? remaining); [|done].
  apply IH. intros Hin. apply Hout. by right.
Qed.

Lemma settle_id (l : list debt) :
  forall (remaining : Z) (r : debt),
  debt_id (settle l remaining r) = debt_id r.
Proof.
  induction l as [|d l IH]; intros remaining r; [done|]. simpl.
  destruct (remaining <=? 0); [done|].
  destruct (amount_remaining d <=? remaining).
  - rewrite IH. by destruct (debt_id r =? debt_id d).
  - by destruct (debt_id r =? debt_id d).
Qed.

Lemma total_update (f : debt -> debt) (x : debt) (t : list debt) :
  NoDup (map debt_id t) -> x ∈ t ->
  total_remaining (map (fun r => if debt_id r =? debt_id x then f r else r) t) =
  total_remaining t - amount_remaining x + amount_remaining (f x).
Proof.
  induction t as [|r t IH]; intros Hnd Hx; [by apply elem_of_nil in Hx|].
  simpl in Hnd. apply NoDup_cons in Hnd as [Hr Hnd].
  unfold total_remaining in *. simpl.
  apply elem_of_cons in Hx as [-> | Hx].
  - rewrite Z.eqb_refl.
    assert (map (fun r0 => if debt_id r0 =? debt_id r then f r0 else r0) t = t)
      as ->; [|lia].
    rewrite <- (map_id t) at 2. apply map_ext_in.
    intros y Hy. destruct (debt_id y =? debt_id r) eqn:E; [|done].
    apply Z.eqb_eq in E. exfalso. apply Hr. rewrite <- E.
    by apply list_elem_of_In, in_map.
  - assert ((debt_id r =? debt_id x) = false) as ->.
    { apply Z.eqb_neq. intros E. apply Hr. rewrite E.
      by apply list_elem_of_In, in_map, list_elem_of_In. }
    rewrite IH by done. lia.
Qed.

Lemma total_nonneg (l : list debt) :
  Forall (fun d => 0 <= amount_remaining d) l -> 0 <= total_remaining l.
Proof. induction 1; unfold total_remaining in *; simpl; lia. Qed.

Lemma settle_total (l : list debt) :
  forall (t : list debt) (remaining : Z),
  NoDup (map debt_id t) ->
  NoDup (map debt_id l) ->
  (forall x, x ∈ l -> x ∈ t) ->
  Forall (fun d => 0 <= amount_remaining d) l ->
  0 <= remaining ->
  total_remaining (map (settle l remaining) t) = total_remaining t - Z.min remaining (total_remaining l).
Proof.
  induction l as [|d l IH]; intros t remaining Hnt Hnl Hin Hpos Hrem.
  - simpl. rewrite map_id. change (total_remaining []) with 0. lia.
  - simpl in Hnl. apply NoDup_cons in Hnl as [Hd Hnl].
    apply Forall_cons in Hpos as [Hd0 Hpos].
    pose proof (total_nonneg l Hpos) as Hl0.
    assert (Htot : total_remaining (d :: l) = amount_remaining d + total_remaining l) by done.
    rewrite Htot. simpl settle.
    destruct (remaining <=? 0) eqn:E0.
    { apply Z.leb_le in E0. rewrite map_id. lia. }
    apply Z.leb_gt in E0.
    destruct (amount_remaining d <=? remaining) eqn:E1.
    + apply Z.leb_le in E1.
      rewrite <- (map_map (fun r => if debt_id r =? debt_id d
                                    then set_paid r else r)
                    (settle l (remaining - amount_remaining d))).
      rewrite IH.
      * rewrite total_update by (done || (apply Hin; by left)). simpl. lia.
      * by rewrite map_map, (map_ext _ debt_id)
          by (intros r; by destruct (debt_id r =? debt_id d)).
      * done.
      * intros x Hx. apply list_elem_of_In, in_map_iff. exists x.
        split; [|apply list_elem_of_In, Hin; by right].
        assert ((debt_id x =? debt_id d) = false) as ->; [|done].
        apply Z.eqb_neq. intros E. apply Hd. rewrite <- E.
        by apply list_elem_of_In, in_map, list_elem_of_In.
      * done.
      * lia.
    + apply Z.leb_gt in E1.
      rewrite total_update by (done || (apply Hin; by left)). simpl. lia.
Qed.

(** X5.  In a run that meets no fault, on balances of the borrower that
    are not negative, a payment that is not negative lowers the sum of
    all balances of the table by exactly the payment, or by all that the
    borrower owes when the payment is larger. *)
Theorem payDebt_conserves (s : env) (borrowerId : string) (amount : Z) :
  NoDup (map debt_id (table s)) ->
  faults s = [] ->
  (forall d, d ∈ table s -> owes borrowerId d = true ->
             0 <= amount_remaining d) ->
  0 <= amount ->
  total_remaining (table (exec (payDebt borrowerId amount) s)) =
  total_remaining (table s) -
  Z.min amount
    (total_remaining (filter (fun d => owes borrowerId d = true) (table s))).
Proof.
  destruct s as [t n fs]. simpl. intros Hnd -> Hpos Hamount.
  unfold exec. rewrite payDebt_nil, pay_loop_settle. simpl.
  pose proof (order_by_created_at_perm
                (filter (fun d => owes borrowerId d = true) t)) as Hperm.
  assert (Hsub : forall x,
            x ∈ order_by_created_at
                  (filter (fun d => owes borrowerId d = true) t) ->
            x ∈ t /\ owes borrowerId x = true).
  { intros x Hx. rewrite Hperm in Hx.
    by apply list_elem_of_filter in Hx as [? ?]. }
  rewrite settle_total.
  - f_equal. f_equal. apply (total_remaining_perm _ _ Hperm).
  - done.
  - apply (NoDup_fmap_2_strong debt_id).
    + intros x y Hx Hy. apply (unique_by_id t); [done| |]; by apply Hsub.
    + rewrite Hperm. apply NoDup_filter. by apply NoDup_fmap_1 in Hnd.
  - intros x Hx. by apply Hsub.
  - apply Forall_forall. intros d Hd. apply Hpos; by apply Hsub.
  - done.
Qed.

Lemma payDebt_conserves_witness :
  total_remaining (table (exec (payDebt "1001" 700) Scenario.c5_env)) =
  total_remaining (table Scenario.c5_env) - 700.
Proof.
  rewrite (payDebt_conserves Scenario.c5_env "1001" 700).
  - reflexivity.
  - compute_done.
  - reflexivity.
  - intros d Hd _. unfold Scenario.c5_env in Hd. simpl in Hd.
    repeat (apply elem_of_cons in Hd as [-> | Hd]; [vm_compute; discriminate|]).
    by apply elem_of_nil in Hd.
  - lia.
Defined.


Lemma insert_by_created_at_sorted (d : debt) (l : list debt) :
  StronglySorted by_created_at l ->
  StronglySorted by_created_at (insert_by_created_at d l).
Proof.
  induction 1 as [|x l Hsorted IH Hx]; simpl.
  - repeat constructor.
  - destruct (created_at x <=? created_at d) eqn:E.
    + apply Z.leb_le in E. constructor; [exact IH|].
      rewrite insert_by_created_at_perm. by constructor.
    + apply Z.leb_gt in E. constructor; [by constructor|].
      constructor; [unfold by_created_at; lia|].
      eapply Forall_impl; [exact Hx|].
      unfold by_created_at. intros z Hz. lia.
Qed.

Lemma order_by_created_at_sorted (l : list debt) :
  StronglySorted by_created_at (order_by_created_at l).
Proof.
  unfold order_by_created_at.
  induction (reverse l) as [|x r IH]; simpl; [constructor|].
  by apply insert_by_created_at_sorted.
Qed.

Lemma sorted_older_before (pre post : list debt) (A B : debt) :
  StronglySorted by_created_at (pre ++ B :: post) ->
  A ∈ pre ++ B :: post ->
  created_at A < created_at B ->
  A ∈ pre.
Proof.
  induction pre as [|x pre IH]; simpl; intros Hsorted HA Hlt.
  - apply StronglySorted_inv in Hsorted as [_ Hall].
    apply elem_of_cons in HA as [-> | HA]; [lia|].
    rewrite Forall_forall in Hall. specialize (Hall A HA).
    unfold by_created_at in Hall. lia.
  - apply StronglySorted_inv in Hsorted as [Hsorted _].
    apply elem_of_cons in HA as [-> | HA]; [by left|].
    right. by apply IH.
Qed.

Lemma settle_prefix_paid (pre : list debt) :
  forall (post : list debt) (y : debt) (remaining : Z),
  NoDup (map debt_id (pre ++ y :: post)) ->
  settle (pre ++ y :: post) remaining y <> y ->
  forall x, x ∈ pre -> settle (pre ++ y :: post) remaining x = set_paid x.
Proof.
  induction pre as [|d pre IH]; intros post y remaining Hnd Hy x Hx;
    [by apply elem_of_nil in Hx|].
  simpl in Hnd. apply NoDup_cons in Hnd as [Hd Hnd].
  assert (Hyd : (debt_id y =? debt_id d) = false).
  { apply Z.eqb_neq. intros E. apply Hd. rewrite <- E.
    apply list_elem_of_In, in_map, in_or_app. right. by left. }
  simpl in Hy |- *. rewrite Hyd in Hy.
  destruct (remaining <=? 0); [done|].
  destruct (amount_remaining d <=? remaining); [|done].
  apply elem_of_cons in Hx as [-> | Hx].
  - rewrite Z.eqb_refl. by apply settle_other.
  - assert ((debt_id x =? debt_id d) = false) as ->.
    { apply Z.eqb_neq. intros E. apply Hd. rewrite <- E.
      apply list_elem_of_In, in_map, in_or_app. left.
      by apply list_elem_of_In. }
    by apply IH.
Qed.

(** X6.  Oldest first, in general: in a run that meets no fault, of two
    open debts of the borrower the one created later is written only if
    the one created earlier is left paid in full: its row then has
    status [Paid] and [amount_remaining = 0], its other columns kept. *)
Theorem payDebt_oldest_first (s : env) (borrowerId : string) (amount : Z)
    (A B : debt) :
  NoDup (map debt_id (table s)) ->
  faults s = [] ->
  A ∈ table s -> B ∈ table s ->
  owes borrowerId A = true -> owes borrowerId B = true ->
  created_at A < created_at B ->
  let t' := table (exec (payDebt borrowerId amount) s) in
  B ∉ t' ->
  Debt (debt_id A) (borrower_id A) (admin_id A) (amount_initial A) 0
    (created_at A) (last_interest_at A) Paid (note A) ∈ t'.
Proof.
  destruct s as [t n fs]. simpl. intros Hnd -> HA HB HoA HoB Hlt.
  change (Debt (debt_id A) (borrower_id A) (admin_id A) (amount_initial A) 0
            (created_at A) (last_interest_at A) Paid (note A))
    with (set_paid A).
  unfold exec. rewrite payDebt_nil, pay_loop_settle. simpl.
  set (l := order_by_created_at
              (filter (fun d => owes borrowerId d = true) t)).
  pose proof (order_by_created_at_perm
                (filter (fun d => owes borrowerId d = true) t)) as Hperm.
  fold l in Hperm. intros HB'.
  assert (HlB : B ∈ l) by (rewrite Hperm; by apply list_elem_of_filter).
  assert (HlA : A ∈ l) by (rewrite Hperm; by apply list_elem_of_filter).
  apply list_elem_of_In, in_split in HlB as (pre & post & Hsplit).
  assert (Hsorted : StronglySorted by_created_at (pre ++ B :: post)).
  { rewrite <- Hsplit. apply order_by_created_at_sorted. }
  rewrite Hsplit in HlA.
  pose proof (sorted_older_before pre post A B Hsorted HlA Hlt) as Hpre.
  assert (Hnl : NoDup (map debt_id (pre ++ B :: post))).
  { rewrite <- Hsplit. apply (NoDup_fmap_2_strong debt_id).
    - intros x y Hx Hy. rewrite Hperm in Hx, Hy.
      apply list_elem_of_filter in Hx as [_ Hx], Hy as [_ Hy].
      by apply (unique_by_id t).
    - rewrite Hperm. apply NoDup_filter. by apply NoDup_fmap_1 in Hnd. }
  rewrite Hsplit in HB' |- *.
  rewrite <- (settle_prefix_paid pre post B amount Hnl) with (x := A).
  - by apply list_elem_of_In, in_map, list_elem_of_In.
  - intros Hsame. apply HB'. rewrite <- Hsame at 1.
    by apply list_elem_of_In, in_map, list_elem_of_In.
  - exact Hpre.
Qed.

Lemma payDebt_oldest_first_witness :
  Debt 1 "1001" "9" 500 0 1000 1000 Paid ""
    ∈ table (exec (payDebt "1001" 700) Scenario.c5_env).
Proof.
  apply (payDebt_oldest_first Scenario.c5_env "1001" 700
           Scenario.c5_A Scenario.c5_B).
  - compute_done.
  - reflexivity.
  - do 2 right. left.
  - left.
  - reflexivity.
  - reflexivity.
  - reflexivity.
  - vm_compute. intros H.
    repeat (apply elem_of_cons in H as [H | H]; [discriminate H|]).
    by apply elem_of_nil in H.
Defined.

Lemma pay_loop_remapped (l : list debt) :
  forall (s : env) (remaining : Z) (logs : list string),
  remapped (payment_step (map debt_id l)) s
    (exec (pay_loop l remaining logs) s).
Proof.
  induction l as [|d l IH]; intros s remaining logs.
  - destruct s as [t n fs].
    apply (remapped_refl _ (Env t n fs) fs), payment_step_refl.
  - assert (Hidle : remapped (payment_step (map debt_id (d :: l))) s s).
    { destruct s as [t n fs].
      apply (remapped_refl _ (Env t n fs) fs), payment_step_refl. }
    assert (Hstep : forall f, (forall r, debt_id (f r) = debt_id r /\
                                 same_identity r (f r) /\
                                 last_interest_at (f r) = last_interest_at r) ->
      forall k, remapped (payment_step (map debt_id (d :: l))) s
        (exec (query_update f (debt_id d);; pay_loop l k.1 k.2) s)).
    { intros f Hf k. rewrite exec_bind.
      pose proof (remapped_update (payment_step (map debt_id (d :: l))) f
                    (debt_id d) s (payment_step_refl _)) as Hup.
      unfold exec in Hup.
      destruct (query_update f (debt_id d) s) as [[[]|] s1]; simpl in Hup.
      - eapply remapped_trans; [apply payment_step_trans| |].
        + apply Hup. intros r Hid. destruct (Hf r) as (_ & Hi & Hl).
          split; [done|]. split; [done|].
          intros Hout. exfalso. apply Hout. rewrite Hid. by left.
        + eapply remapped_more; [|apply IH].
          intros r r'. apply payment_step_more.
      - apply Hup. intros r Hid. destruct (Hf r) as (_ & Hi & Hl).
        split; [done|]. split; [done|].
        intros Hout. exfalso. apply Hout. rewrite Hid. by left. }
    simpl pay_loop. destruct (remaining <=? 0); [exact Hidle|].
    destruct (amount_remaining d <=? remaining).
    + apply (Hstep set_paid (fun r => ltac:(by repeat split))
               (remaining - amount_remaining d, logs ++ [log_paid d])).
    + cbv zeta.
      apply (Hstep (set_remaining (amount_remaining d - remaining))
               (fun r => ltac:(by repeat split))
               (0, logs ++ [log_reduced d remaining
                              (amount_remaining d - remaining)])).
Qed.

Lemma payDebt_remapped (s : env) (borrowerId : string) (amount : Z) :
  remapped
    (payment_step
       (map debt_id (filter (fun d => owes borrowerId d = true) (table s))))
    s (exec (payDebt borrowerId amount) s).
Proof.
  unfold payDebt, pool_connect. rewrite exec_bind.
  destruct (call_cases s) as [fs [-> | ->]];
    [|apply remapped_refl, payment_step_refl].
  unfold query_select. rewrite exec_bind, bind_run.
  destruct (call_cases (refault fs s)) as [fs' [-> | ->]];
    [|apply (remapped_refl _ s fs'), payment_step_refl].
  change (table (refault fs s)) with (table s).
  pose proof (pay_loop_remapped
                (order_by_created_at
                   (filter (fun d => owes borrowerId d = true) (table s)))
                (refault fs' (refault fs s)) amount []) as H.
  eapply remapped_more; [|exact H].
  intros r r' (Hi & Hl & Hf). split; [done|]. split; [done|].
  intros Hout. apply Hf. intros Hin. apply Hout.
  apply list_elem_of_In, in_map_iff in Hin as [x [Hid Hx]].
  apply list_elem_of_In in Hx. rewrite order_by_created_at_perm in Hx.
  rewrite <- Hid. by apply list_elem_of_In, in_map, list_elem_of_In.
Qed.

(** X7.  Whatever the oracle does, [payDebt] keeps the rows in place and
    writes only [amount_remaining] and [status]: every row keeps its id,
    borrower, lender, principal, dates and note, the sequence does not
    move, and a row that is not an open debt of the borrower (a debt of
    someone else, or a paid one) is left exactly as it is. *)
Theorem payDebt_frame (s : env) (borrowerId : string) (amount : Z) :
  NoDup (map debt_id (table s)) ->
  let s' := exec (payDebt borrowerId amount) s in
  serial s' = serial s /\
  Forall2 (fun r r' => same_identity r r' /\
                       last_interest_at r' = last_interest_at r /\
                       (owes borrowerId r = false -> r' = r))
    (table s) (table s').
Proof.
  intros Hnd s'.
  destruct (payDebt_remapped s borrowerId amount) as [Hn (g & Ht & Hg)].
  fold s' in Hn, Ht.
  split; [exact Hn|]. rewrite Ht.
  apply Forall2_map_in. intros r Hr.
  destruct (Hg r) as (Hi & Hl & Hf). split; [done|]. split; [done|].
  intros Hnot. apply Hf.
  intros Hin. apply list_elem_of_In, in_map_iff in Hin as [x [Hid Hx]].
  apply list_elem_of_In, list_elem_of_filter in Hx as [Ho Hx].
  assert (x = r) as -> by (by eapply unique_by_id). congruence.
Qed.

Lemma payDebt_frame_witness :
  Forall2 (fun r r' => same_identity r r' /\
                       last_interest_at r' = last_interest_at r /\
                       (owes "1001" r = false -> r' = r))
    (table Scenario.c5_env)
    (table (exec (payDebt "1001" 700)
              (refault [false; false; false; true] Scenario.c5_env))).
Proof.
  apply (payDebt_frame (refault [false; false; false; true] Scenario.c5_env)
           "1001" 700).
  compute_done.
Defined.

(** X8.  A payment that is not positive, or a borrower without an open
    debt: [payDebt] writes nothing, whatever the oracle does, and when
    it returns its outcome is empty (the handlers then answer that the
    borrower has no active debts). *)
Theorem payDebt_nothing_to_pay (s : env) (borrowerId : string) (amount : Z) :
  amount <= 0 \/
  filter (fun d => owes borrowerId d = true) (table s) = [] ->
  contents (exec (payDebt borrowerId amount) s) = contents s /\
  (forall logs, result (payDebt borrowerId amount) s = Ok logs -> logs = []).
Proof.
  intros Hnothing.
  assert (Hloop : forall s0,
    table s0 = table s ->
    pay_loop (order_by_created_at
                (filter (fun d => owes borrowerId d = true) (table s0)))
      amount [] s0 = (Ok [], s0)).
  { intros s0 Hs0. rewrite Hs0. destruct Hnothing as [Hle | ->]; [|done].
    apply Z.leb_le in Hle.
    destruct (order_by_created_at _) as [|d l]; [done|]. simpl.
    by rewrite Hle. }
  unfold exec, result, payDebt, pool_connect. rewrite bind_run.
  destruct (call_cases s) as [fs [-> | ->]]; [|done].
  unfold query_select. rewrite !bind_run.
  destruct (call_cases (refault fs s)) as [fs' [-> | ->]]; [|done].
  rewrite Hloop by done. split; [done|]. by intros logs [= <-].
Qed.

Lemma payDebt_nothing_to_pay_witness :
  contents (exec (payDebt "1001" 0) Scenario.c5_env)
  = contents Scenario.c5_env /\
  result (payDebt "1001" 0) Scenario.c5_env = Ok [].
Proof.
  destruct (payDebt_nothing_to_pay Scenario.c5_env "1001" 0) as [Hsame _].
  - left. lia.
  - split; [exact Hsame|reflexivity].
Defined.

End PaymentLaws.

Section SequenceLaws.
Import Ledger Spec Laws.

Lemma remapped_well_formed (Q : debt -> debt -> Prop) (s s' : env) :
  (forall r r', Q r r' -> debt_id r' = debt_id r) ->
  remapped Q s s' -> well_formed s -> well_formed s'.
Proof.
  intros Hid [Hn (g & Ht & Hg)] [Hnd Hlt].
  assert (Hids : map debt_id (table s') = map debt_id (table s)).
  { rewrite Ht, map_map. apply map_ext. intros r. by apply (Hid r). }
  split; [by rewrite Hids|].
  rewrite Hn, Ht. apply Forall_forall. intros r' Hr'.
  apply list_elem_of_In, in_map_iff in Hr' as [r [<- Hr]].
  rewrite (Hid r (g r)) by done.
  rewrite Forall_forall in Hlt. by apply Hlt, list_elem_of_In.
Qed.

Lemma logDebt_cases (now : Z) (borrowerId adminId : string) (amount : Z)
    (note : string) (s : env) :
  exists fs,
    logDebt now borrowerId adminId amount note s = (Throw, refault fs s) \/
    logDebt now borrowerId adminId amount note s =
      (Ok (serial s),
       Env (table s ++
            [Debt (serial s) borrowerId adminId amount amount now now Open
               note])
           (serial s + 1) fs).
Proof.
  unfold logDebt, pool_connect, query_insert. rewrite bind_run.
  destruct (call_cases s) as [fs [-> | ->]]; [|eauto].
  rewrite bind_run.
  destruct (call_cases (refault fs s)) as [fs' [-> | ->]];
    [|exists fs'; by left].
  exists fs'. cbn. destruct (in_integer amount && in_integer amount);
    [by right|by left].
Qed.

(** X4.  [logDebt] is all or nothing.  When it returns, the id is the
    next of the sequence, which no row of a well-formed table has, one
    open row with [amount] as principal and as balance and [now] as both
    dates is appended, and the sequence advances by one; when it throws,
    the table and the sequence are what they were. *)
Theorem logDebt_fresh_or_nothing (now : Z) (borrowerId adminId : string)
    (amount : Z) (note : string) (s : env) :
  well_formed s ->
  let s' := exec (logDebt now borrowerId adminId amount note) s in
  match result (logDebt now borrowerId adminId amount note) s with
  | Ok i =>
      i = serial s /\
      (forall d, d ∈ table s -> debt_id d <> i) /\
      table s' =
        table s ++
        [Debt i borrowerId adminId amount amount now now Open note] /\
      serial s' = serial s + 1
  | Throw => contents s' = contents s
  end.
Proof.
  intros [_ Hlt] s'. unfold s', result, exec.
  destruct (logDebt_cases now borrowerId adminId amount note s)
    as [fs [-> | ->]]; [done|]. simpl.
  split; [done|]. split; [|done].
  intros d Hd. rewrite Forall_forall in Hlt. specialize (Hlt d Hd). lia.
Qed.

Lemma logDebt_fresh_or_nothing_witness :
  result (logDebt 9000 "1003" "9" 60 "Manual Entry") Scenario.c5_env = Ok 5 /\
  (forall d, d ∈ table Scenario.c5_env -> debt_id d <> 5).
Proof.
  pose proof (logDebt_fresh_or_nothing 9000 "1003" "9" 60 "Manual Entry"
                Scenario.c5_env) as H.
  assert (Hres : result (logDebt 9000 "1003" "9" 60 "Manual Entry")
                   Scenario.c5_env = Ok 5) by reflexivity.
  rewrite Hres in H. split; [exact Hres|].
  apply H. split; [compute_done|].
  repeat constructor.
Defined.

Lemma query_delete_cases (i : Z) (s : env) :
  exists fs,
    query_delete i s = (Throw, refault fs s) \/
    query_delete i s =
      (Ok tt, Env (filter (fun d => debt_id d <> i) (table s)) (serial s) fs).
Proof.
  unfold query_delete. rewrite bind_run.
  destruct (call_cases s) as [fs [-> | ->]]; eauto.
Qed.

Lemma well_formed_refault (fs : list bool) (s : env) :
  well_formed s -> well_formed (refault fs s).
Proof. done. Qed.

Lemma well_formed_filter (P : debt -> Prop) `{forall d, Decision (P d)}
    (t : list debt) (n : Z) (fs : list bool) :
  well_formed (Env t n fs) -> well_formed (Env (filter P t) n fs).
Proof.
  intros [Hnd Hlt]. split; simpl in *.
  - apply (sublist_NoDup _ (map debt_id t)); [done|].
    change (map debt_id) with (fmap (M := list) debt_id).
    apply fmap_sublist, sublist_filter.
  - apply Forall_forall. intros d [_ Hd]%list_elem_of_filter.
    rewrite Forall_forall in Hlt. by apply Hlt.
Qed.

(** X3.  The primary key holds by construction: from a well-formed
    ledger (ids unique and all below the sequence) every ledger function
    leaves a well-formed ledger, whatever the oracle does: accrual,
    creation, repayment and deletion. *)
Theorem ledger_stays_well_formed (s : env) :
  well_formed s ->
  (forall now, well_formed (exec (applyInterest now) s)) /\
  (forall now borrowerId adminId amount note,
     well_formed (exec (logDebt now borrowerId adminId amount note) s)) /\
  (forall borrowerId amount,
     well_formed (exec (payDebt borrowerId amount) s)) /\
  (forall i, well_formed (exec (query_delete i) s)).
Proof.
  intros Hwf. split; [|split; [|split]].
  - intros now.
    eapply remapped_well_formed; [|apply applyInterest_remapped|done].
    by intros r r' ((Hid & _) & _).
  - intros now borrowerId adminId amount note. unfold exec.
    destruct (logDebt_cases now borrowerId adminId amount note s)
      as [fs [-> | ->]]; [done|].
    destruct Hwf as [Hnd Hlt]. split; simpl.
    + rewrite map_app. simpl. apply NoDup_app. split; [done|].
      split; [|apply NoDup_singleton].
      intros i Hi Hi'%list_elem_of_singleton. subst i.
      apply list_elem_of_In, in_map_iff in Hi as [d [Hid Hd]].
      rewrite Forall_forall in Hlt.
      specialize (Hlt d (proj2 (list_elem_of_In _ _) Hd)). lia.
    + apply Forall_app. split; [|repeat constructor; simpl; lia].
      eapply Forall_impl; [exact Hlt|]. simpl. intros d Hd. lia.
  - intros borrowerId amount.
    eapply remapped_well_formed; [|apply payDebt_remapped|done].
    by intros r r' ((Hid & _) & _).
  - intros i. unfold exec.
    destruct (query_delete_cases i s) as [fs [-> | ->]]; [done|].
    destruct s as [t n fs0]. by apply well_formed_filter.
Qed.

Lemma ledger_stays_well_formed_witness :
  well_formed (exec (payDebt "1001" 700)
                 (exec (logDebt 9000 "1003" "9" 60 "Manual Entry")
                    Scenario.c5_env)).
Proof.
  assert (Hstart : well_formed Scenario.c5_env).
  { split; [compute_done|]. repeat constructor. }
  apply (ledger_stays_well_formed _),
        (ledger_stays_well_formed Scenario.c5_env Hstart).
Defined.

End SequenceLaws.

(** ** The cleanup timer *)

Section SweepLaws.
Import Ledger Discord Spec Laws.

Lemma expire_lookup {V} (old : V -> bool) (m b : gmap string V) (k : string) :
  map_fold (fun key data pending =>
              if old data then delete key pending else pending) b m !! k =
  match m !! k with
  | Some a => if old a then None else b !! k
  | None => b !! k
  end.
Proof.
  revert k.
  apply (map_fold_weak_ind
    (fun r m => forall k, r !! k = match m !! k with
                                   | Some a => if old a then None else b !! k
                                   | None => b !! k
                                   end)); [done|].
  intros i x m' r Hnone IH k.
  destruct (decide (i = k)) as [-> | Hne].
  - rewrite lookup_insert_eq. destruct (old x).
    + apply lookup_delete_eq.
    + by rewrite IH, Hnone.
  - rewrite lookup_insert_ne by done. destruct (old x); [|apply IH].
    rewrite lookup_delete_ne by done. apply IH.
Qed.

Lemma expire_lookup_self {V} (ts : V -> Z) (now : Z) (m : gmap string V)
    (k : string) (a : V) :
  map_fold (fun key data pending =>
              if 300000 <? now - ts data then delete key pending
              else pending) m m !! k = Some a <->
  m !! k = Some a /\ ~ expired now (ts a).
Proof.
  rewrite (expire_lookup (fun data => 300000 <? now - ts data)).
  unfold expired. destruct (m !! k) as [a'|] eqn:Hk;
    [|split; [done|by intros [? _]]].
  destruct (300000 <? now - ts a') eqn:E.
  - apply Z.ltb_lt in E. split; [done|]. intros [[= ->] Hyoung]. lia.
  - apply Z.ltb_ge in E. split.
    + intros [= ->]. split; [done|lia].
    + by intros [? _].
Qed.

(** X9.  The cleanup timer removes exactly the entries older than
    300000 ms and touches nothing else: an entry is in a pending table
    after the sweep if and only if it was there and its age is at most
    300000 ms; the ledger, the flag and the replies are what they were.
    First for [src/index.js], then for the two tables of [part_000] and
    [part_001]. *)
Theorem sweep_removes_only_expired (now : Z) (k : string) :
  (forall (w : IndexJs.world) (a : IndexJs.action),
     (IndexJs.pendingActions (IndexJs.sweep now w) !! k = Some a <->
      IndexJs.pendingActions w !! k = Some a /\
      ~ expired now (IndexJs.timestamp a)) /\
     IndexJs.outside (IndexJs.sweep now w) = IndexJs.outside w /\
     IndexJs.isTrackingEnabled (IndexJs.sweep now w)
       = IndexJs.isTrackingEnabled w /\
     IndexJs.replies (IndexJs.sweep now w) = IndexJs.replies w) /\
  (forall (w : Split.world) (p : Split.pending),
     (Split.pendingLoans (Split.sweep now w) !! k = Some p <->
      Split.pendingLoans w !! k = Some p /\
      ~ expired now (Split.timestamp p)) /\
     (Split.pendingRepayments (Split.sweep now w) !! k = Some p <->
      Split.pendingRepayments w !! k = Some p /\
      ~ expired now (Split.timestamp p)) /\
     Split.outside (Split.sweep now w) = Split.outside w /\
     Split.isTrackingEnabled (Split.sweep now w)
       = Split.isTrackingEnabled w /\
     Split.replies (Split.sweep now w) = Split.replies w).
Proof.
  split.
  - intros w a. split; [|done]. apply expire_lookup_self.
  - intros w p. split; [|split; [|done]]; apply expire_lookup_self.
Qed.

(** The entry of [IndexScenario.awaiting] is dated 5000: it outlives a
    sweep at 305000 and not one a millisecond later. *)
Lemma sweep_removes_only_expired_witness :
  IndexJs.pendingActions (IndexJs.sweep 305000 IndexScenario.awaiting)
    !! "900" = Some (IndexJs.Action IndexJs.LOAN "9" "1001" 100 5000) /\
  IndexJs.pendingActions (IndexJs.sweep 305001 IndexScenario.awaiting)
    !! "900" = None.
Proof.
  destruct (sweep_removes_only_expired 305000 "900") as [Hindex _].
  destruct (Hindex IndexScenario.awaiting
              (IndexJs.Action IndexJs.LOAN "9" "1001" 100 5000))
    as [Hiff _].
  split; [|reflexivity].
  apply Hiff. split; [reflexivity|]. unfold expired. simpl. lia.
Defined.

(** X10.  An entry of [src/index.js] that the sweep finds older than
    300000 ms is never applied: after the sweep Mudae's checkmark on its
    message, at any time and under any oracle, changes neither the
    ledger nor the replies. *)
Theorem expired_entry_never_confirmed (now now' : Z) (r : reaction)
    (w : IndexJs.world) (a : IndexJs.action) (fs : list bool) :
  IndexJs.pendingActions w !! on_message r = Some a ->
  expired now (IndexJs.timestamp a) ->
  let w' := exec (IndexJs.messageReactionAdd now' r)
              (IndexJs.with_faults fs (IndexJs.sweep now w)) in
  IndexJs.ledger w' = IndexJs.ledger w /\
  IndexJs.replies w' = IndexJs.replies w /\
  IndexJs.pendingActions w' !! on_message r = None.
Proof.
  intros Hsome Hold w'.
  assert (Hgone : IndexJs.pendingActions
                    (IndexJs.with_faults fs (IndexJs.sweep now w))
                    !! on_message r = None).
  { destruct (IndexJs.pendingActions
                (IndexJs.with_faults fs (IndexJs.sweep now w))
                !! on_message r) as [a'|] eqn:Hk; [|done].
    unfold IndexJs.with_faults, IndexJs.sweep in Hk. simpl in Hk.
    apply (expire_lookup_self IndexJs.timestamp) in Hk as [Hk Hyoung].
    rewrite Hsome in Hk. injection Hk as <-. done. }
  destruct (index_reaction_miss now' r _ Hgone) as [fs' Hmiss].
  unfold w', exec. rewrite Hmiss. by rewrite <- Hgone.
Qed.

Lemma expired_entry_never_confirmed_witness :
  IndexJs.ledger
    (exec (IndexJs.messageReactionAdd 400000 IndexScenario.checkmark)
       (IndexJs.sweep 305001 IndexScenario.awaiting)) = ([], 1) /\
  IndexJs.ledger
    (exec (IndexJs.messageReactionAdd 400000 IndexScenario.checkmark)
       IndexScenario.awaiting)
  = ([Debt 1 "1001" "9" 100 100 400000 400000 Open "Verified by Mudae"], 2).
Proof.
  split.
  - refine (proj1 (expired_entry_never_confirmed 305001 400000
                     IndexScenario.checkmark IndexScenario.awaiting
                     (IndexJs.Action IndexJs.LOAN "9" "1001" 100 5000) []
                     _ _)).
    + reflexivity.
    + unfold expired. simpl. lia.
  - reflexivity.
Defined.

End SweepLaws.

(** ** The listeners the claims do not cite *)

Section ListenerLaws.
Import Ledger Discord Spec Laws.

Lemma split_fetch_run (r : reaction) (w : Split.world) :
  exists fs, Split.fetch r w = (Ok (negb (fetch_rejects r (Split.outside w))),
                                Split.with_faults fs w).
Proof.
  destruct w as [[t n fs] tr pl pr re]. unfold Split.fetch, fetch_rejects.
  simpl. destruct (partial r); [|by exists fs].
  destruct fs as [|[] fs]; [by exists []|by exists fs|by exists fs].
Qed.

Lemma split_db_pending {A} (m : Db A) (w : Split.world) :
  Split.pendingLoans (Split.db m w).2 = Split.pendingLoans w /\
  Split.pendingRepayments (Split.db m w).2 = Split.pendingRepayments w /\
  Split.isTrackingEnabled (Split.db m w).2 = Split.isTrackingEnabled w.
Proof. unfold Split.db. by destruct (m (Split.outside w)). Qed.

Lemma split_reply_pending (to text : string) (w : Split.world) :
  Split.pendingLoans (Split.reply to text w).2 = Split.pendingLoans w /\
  Split.pendingRepayments (Split.reply to text w).2
    = Split.pendingRepayments w /\
  Split.isTrackingEnabled (Split.reply to text w).2
    = Split.isTrackingEnabled w.
Proof.
  unfold Split.reply. rewrite bind_run.
  pose proof (split_db_pending call w) as H.
  by destruct (Split.db call w) as [[[]|] w1].
Qed.

(** The [try] block of listener 3 writes neither pending table. *)
Lemma record_loan_pending (now : Z) (r : reaction) (a : Split.pending)
    (w : Split.world) :
  Split.pendingLoans (exec (Split.record_loan now r a) w)
    = Split.pendingLoans w /\
  Split.pendingRepayments (exec (Split.record_loan now r a) w)
    = Split.pendingRepayments w.
Proof.
  unfold exec, Split.record_loan. rewrite bind_run.
  pose proof (split_db_pending (applyInterest now) w) as (H1 & H2 & _).
  destruct (Split.db (applyInterest now) w) as [[[]|] w1]; simpl in *;
    [|done].
  rewrite bind_run.
  pose proof (split_db_pending
                (logDebt now (Split.userId a) (Split.adminId a)
                   (Split.amount a) "Verified by Mudae") w1) as (H3 & H4 & _).
  destruct (Split.db (logDebt _ _ _ _ _) w1) as [[i|] w2]; simpl in *;
    [|split; congruence].
  pose proof (split_reply_pending (on_message r)
                (loan_reply (Split.userId a) (Split.amount a) i) w2)
    as (H5 & H6 & _).
  split; congruence.
Qed.

(** X11.  The reaction listener of [part_000] and [part_001]: a
    checkmark of Mudae that matches a pending loan deletes the entry
    whether the ledger calls return or throw, never touches the pending
    repayments, and the same reaction again, at any time and under any
    oracle, changes neither ledger, tables nor replies. *)
Theorem split_reaction_confirms_once (now : Z) (r : reaction)
    (w : Split.world) (a : Split.pending) :
  fetch_rejects r (Split.outside w) = false ->
  user_id r = MUDAE_ID ->
  is_checkmark (emoji_name r) = true ->
  Split.isTrackingEnabled w = true ->
  Split.pendingLoans w !! on_message r = Some a ->
  let w1 := exec (Split.messageReactionAdd now r) w in
  result (Split.messageReactionAdd now r) w = Ok tt /\
  Split.pendingLoans w1 = delete (on_message r) (Split.pendingLoans w) /\
  Split.pendingRepayments w1 = Split.pendingRepayments w /\
  forall (now' : Z) (fs : list bool),
    let w2 := exec (Split.messageReactionAdd now' r)
                (Split.with_faults fs w1) in
    Split.ledger w2 = Split.ledger w1 /\
    Split.pendingLoans w2 = Split.pendingLoans w1 /\
    Split.pendingRepayments w2 = Split.pendingRepayments w1 /\
    Split.replies w2 = Split.replies w1.
Proof.
  intros Hfetch Huser Hmark Htrack Hsome w1.
  assert (Hrun : Split.messageReactionAdd now r w =
    (Ok tt, Split.loans_delete (on_message r)
              (exec (Split.record_loan now r a) (exec (Split.fetch r) w)))).
  { unfold Split.messageReactionAdd, mbind, M_bind. unfold exec at 2.
    destruct (split_fetch_run r w) as [fs ->].
    rewrite Hfetch, Huser, String.eqb_refl. cbn [negb snd].
    change (Split.isTrackingEnabled (Split.with_faults fs w))
      with (Split.isTrackingEnabled w).
    change (Split.pendingLoans (Split.with_faults fs w))
      with (Split.pendingLoans w).
    rewrite Htrack, Hmark, Hsome. cbn [negb].
    unfold try_finally. by rewrite exec_try_catch_skip. }
  assert (Hw1 : Split.pendingLoans w1
                = delete (on_message r) (Split.pendingLoans w) /\
                Split.pendingRepayments w1 = Split.pendingRepayments w).
  { unfold w1. unfold exec at 1 2. rewrite Hrun. cbn [snd].
    unfold Split.loans_delete.
    cbn [Split.pendingLoans Split.pendingRepayments].
    destruct (record_loan_pending now r a (exec (Split.fetch r) w))
      as [-> ->].
    unfold exec. by destruct (split_fetch_run r w) as [fs ->]. }
  destruct Hw1 as [Hloans Hrepay].
  split; [unfold result; by rewrite Hrun|].
  split; [done|]. split; [done|].
  intros now' fs w2. unfold w2, exec, Split.messageReactionAdd, mbind, M_bind.
  destruct (split_fetch_run r (Split.with_faults fs w1)) as [fs' ->].
  destruct (negb (negb _)); [done|].
  destruct (negb (String.eqb _ _)); [done|]. cbn [snd fst].
  change (Split.isTrackingEnabled
            (Split.with_faults fs' (Split.with_faults fs w1)))
    with (Split.isTrackingEnabled w1).
  change (Split.pendingLoans
            (Split.with_faults fs' (Split.with_faults fs w1)))
    with (Split.pendingLoans w1).
  destruct (negb (Split.isTrackingEnabled w1)); [done|].
  destruct (negb (is_checkmark _)); [done|].
  by rewrite Hloans, lookup_delete_eq.
Qed.

Lemma split_reaction_confirms_once_witness :
  Split.pendingLoans
    (exec (Split.messageReactionAdd 6000 IndexScenario.checkmark)
       LawScenario.awaiting_loan) !! "900" = None /\
  Split.ledger
    (exec (Split.messageReactionAdd 6000 IndexScenario.checkmark)
       LawScenario.awaiting_loan)
  = ([Debt 1 "1001" "9" 100 100 6000 6000 Open "Verified by Mudae"], 2) /\
  Split.ledger
    (exec (Split.messageReactionAdd 7000 IndexScenario.checkmark)
       (exec (Split.messageReactionAdd 6000 IndexScenario.checkmark)
          LawScenario.awaiting_loan))
  = ([Debt 1 "1001" "9" 100 100 6000 6000 Open "Verified by Mudae"], 2).
Proof.
  destruct (split_reaction_confirms_once 6000 IndexScenario.checkmark
              LawScenario.awaiting_loan (Split.Pending "9" "1001" 100 5000))
    as (Hok & Hloans & Hrepay & Hagain); try reflexivity.
  split; [by rewrite Hloans|]. split; [reflexivity|].
  exact (proj1 (Hagain 7000 [])).
Defined.

(** Listener 2 of [part_000]: what [repay] leaves of the two tables. *)
Lemma part000_repay_pending (now : Z) (m : message) (p : Split.pending)
    (w : Split.world) :
  Split.pendingLoans (exec (Part000.repay now m p) w)
    = Split.pendingLoans w /\
  Split.pendingRepayments (exec (Part000.repay now m p) w) =
    match result (Part000.repay now m p) w with
    | Ok _ => delete (channel_id m) (Split.pendingRepayments w)
    | Throw => Split.pendingRepayments w
    end.
Proof.
  unfold exec, result, Part000.repay. rewrite bind_run.
  pose proof (split_db_pending (applyInterest now) w) as (H1 & H2 & _).
  destruct (Split.db (applyInterest now) w) as [[[]|] w1]; simpl in *;
    [|done].
  rewrite bind_run.
  pose proof (split_db_pending (payDebt (Split.userId p) (Split.amount p)) w1)
    as (H3 & H4 & _).
  destruct (Split.db (payDebt _ _) w1) as [[logs|] w2]; simpl in *;
    [|split; congruence].
  rewrite bind_run.
  set (text := if (0 <? length logs)%nat
               then "💸 **Confirmed:**" +:+ newline +:+ join newline logs
               else no_debts_reply (Split.userId p)).
  assert (Hreply :
    (if (0 <? length logs)%nat
     then Split.reply (message_id m)
            ("💸 **Confirmed:**" +:+ newline +:+ join newline logs)
     else Split.reply (message_id m) (no_debts_reply (Split.userId p)))
    = Split.reply (message_id m) text)
    by (unfold text; by destruct (0 <? length logs)%nat).
  rewrite Hreply.
  pose proof (split_reply_pending (message_id m) text w2) as (H5 & H6 & _).
  destruct (Split.reply (message_id m) text w2) as [[[]|] w3]; simpl in *.
  - split; [congruence|]. by rewrite H6, H4, H2.
  - split; congruence.
Qed.

(** X12.  Listener 2 of [part_000] has no [try] around its ledger calls
    and deletes the entry on its last line: for a message of Mudae that
    matches a pending repayment, the entry is deleted when the handler
    returns and is still registered when a call throws, whatever was
    written before the throw; the pending loans are never touched. *)
Theorem part000_entry_outlives_throw (now : Z) (m : message)
    (w : Split.world) (p : Split.pending) (capture : string) :
  author_id m = MUDAE_ID ->
  Split.isTrackingEnabled w = true ->
  Split.pendingRepayments w !! channel_id m = Some p ->
  Part000.mudaeRegex (content m) = Some capture ->
  JS.parseInt (Part000.remove_commas capture) = Some (Split.amount p) ->
  Split.pendingLoans (exec (Part000.onMudaeMessage now m) w)
    = Split.pendingLoans w /\
  Split.pendingRepayments (exec (Part000.onMudaeMessage now m) w) =
    match result (Part000.onMudaeMessage now m) w with
    | Ok _ => delete (channel_id m) (Split.pendingRepayments w)
    | Throw => Split.pendingRepayments w
    end.
Proof.
  intros Hauthor Htrack Hsome Hmatch Hamount.
  assert (Hrun : Part000.onMudaeMessage now m w = Part000.repay now m p w).
  { unfold Part000.onMudaeMessage.
    rewrite Hauthor, String.eqb_refl, Htrack, Hsome, Hmatch. cbn [negb].
    by rewrite bool_decide_eq_true_2. }
  unfold exec, result. rewrite Hrun.
  apply part000_repay_pending.
Qed.

(** The reply is rejected after the payment was written: the handler
    throws, the balance is 400, the entry is still there, and Mudae's
    message once more takes another 100. *)
Lemma part000_entry_outlives_throw_witness :
  result (Part000.onMudaeMessage 6000 SplitScenario.removed_100)
    LawScenario.awaiting_reply_fails = Throw /\
  Split.pendingRepayments
    (exec (Part000.onMudaeMessage 6000 SplitScenario.removed_100)
       LawScenario.awaiting_reply_fails) !! "77"
  = Some (Split.Pending "9" "1001" 100 1000) /\
  Split.ledger
    (exec (Part000.onMudaeMessage 6000 SplitScenario.removed_100)
       LawScenario.awaiting_reply_fails)
  = ([set_remaining 400 SplitScenario.owed], 2) /\
  Split.ledger
    (exec (Part000.onMudaeMessage 7000 SplitScenario.removed_100)
       (exec (Part000.onMudaeMessage 6000 SplitScenario.removed_100)
          LawScenario.awaiting_reply_fails))
  = ([set_remaining 300 SplitScenario.owed], 2).
Proof.
  destruct (part000_entry_outlives_throw 6000 SplitScenario.removed_100
              LawScenario.awaiting_reply_fails
              (Split.Pending "9" "1001" 100 1000) "100")
    as [_ Hkept]; try reflexivity.
  split; [reflexivity|]. split; [by rewrite Hkept|].
  split; reflexivity.
Defined.

End ListenerLaws.

(** ** Who can change what *)

Section AccessLaws.
Import Ledger Discord Spec Laws.



(** X13.  [src/index.js]: someone who is neither an administrator nor
    Mudae changes nothing.  A message of theirs leaves the world as it
    is; a reaction of theirs at most consumes the oracle; a slash
    command of theirs, whichever it is, leaves the ledger, the flag and
    the pending table as they are and answers at most that they are not
    authorized. *)
Theorem index_outsider_changes_nothing (ADMIN_IDS : list string)
    (u : string) (now : Z) (w : IndexJs.world) :
  u ∉ ADMIN_IDS ->
  u <> MUDAE_ID ->
  (forall m, author_id m = u ->
     IndexJs.messageCreate ADMIN_IDS now m w = (Ok tt, w)) /\
  (forall r, user_id r = u ->
     exists fs, IndexJs.messageReactionAdd now r w
                = (Ok tt, IndexJs.with_faults fs w)) /\
  (forall c,
     let w' := exec (IndexJs.interactionCreate ADMIN_IDS now u c) w in
     IndexJs.ledger w' = IndexJs.ledger w /\
     IndexJs.isTrackingEnabled w' = IndexJs.isTrackingEnabled w /\
     IndexJs.pendingActions w' = IndexJs.pendingActions w /\
     (IndexJs.replies w' = IndexJs.replies w \/
      IndexJs.replies w' = IndexJs.replies w ++ [(u, "❌ Unauthorized.")])).
Proof.
  intros Hout Hmudae. split; [|split].
  - intros m Hm. unfold IndexJs.messageCreate.
    destruct (author_bot m); [done|].
    by rewrite Hm, bool_decide_eq_false_2.
  - intros r Hr. unfold IndexJs.messageReactionAdd, mbind, M_bind.
    destruct (index_fetch_run r w) as [fs ->]. exists fs.
    rewrite Hr, (proj2 (String.eqb_neq u MUDAE_ID) Hmudae).
    by destruct (negb (negb _)).
  - intros c w'. unfold w', exec, IndexJs.interactionCreate.
    rewrite bool_decide_eq_false_2 by done. cbn [negb].
    destruct (index_reply_cases u "❌ Unauthorized." w) as [fs [-> | ->]];
      simpl; auto.
Qed.

Lemma index_outsider_changes_nothing_witness :
  IndexJs.messageCreate IndexScenario.admins 6000
    LawScenario.borrower_trigger IndexScenario.awaiting
  = (Ok tt, IndexScenario.awaiting) /\
  IndexJs.ledger
    (exec (IndexJs.messageReactionAdd 6000 LawScenario.borrower_checkmark)
       IndexScenario.awaiting)
  = IndexJs.ledger IndexScenario.awaiting /\
  IndexJs.ledger
    (exec (IndexJs.interactionCreate IndexScenario.admins 6000 "1001"
             (IndexJs.Add "1001" (-500) None)) IndexScenario.awaiting)
  = IndexJs.ledger IndexScenario.awaiting.
Proof.
  destruct (index_outsider_changes_nothing IndexScenario.admins "1001" 6000
              IndexScenario.awaiting) as (Hmessage & Hreaction & Hcommand).
  - compute_done.
  - discriminate.
  - split; [by apply Hmessage|]. split.
    + destruct (Hreaction LawScenario.borrower_checkmark eq_refl) as [fs H].
      unfold exec. by rewrite H.
    + apply (Hcommand (IndexJs.Add "1001" (-500) None)).
Defined.

Lemma split_db_call_cases (w : Split.world) :
  exists fs, Split.db call w = (Ok tt, Split.with_faults fs w) \/
             Split.db call w = (Throw, Split.with_faults fs w).
Proof.
  unfold Split.db.
  destruct (call_cases (Split.outside w)) as [fs [-> | ->]]; eauto.
Qed.

(** X14.  The other revisions: someone who is neither an administrator
    nor Mudae changes nothing either.  In [part_000] and [part_001] a
    message of theirs leaves the world as it is, a reaction of theirs
    and their [/debt_toggle] at most consume the oracle; in the second
    document of [part_001] a message of theirs leaves the world as it
    is. *)
Theorem split_outsider_changes_nothing (ADMIN_IDS : list string)
    (u : string) (now : Z) :
  u ∉ ADMIN_IDS ->
  u <> MUDAE_ID ->
  (forall (w : Split.world) m, author_id m = u ->
     Part000.messageCreate ADMIN_IDS now m w = (Ok tt, w) /\
     Part001.messageCreate ADMIN_IDS now m w = (Ok tt, w)) /\
  (forall (w : Split.world) r, user_id r = u ->
     exists fs, Split.messageReactionAdd now r w
                = (Ok tt, Split.with_faults fs w)) /\
  (forall (w : Split.world) mode,
     exists fs, exec (Split.debt_toggle ADMIN_IDS u mode) w
                = Split.with_faults fs w) /\
  (forall (w : Legacy.world) m, author_id m = u ->
     Legacy.messageCreate ADMIN_IDS now m w = (Ok tt, w)).
Proof.
  intros Hout Hmudae.
  pose proof (proj2 (String.eqb_neq u MUDAE_ID) Hmudae) as Hneq.
  split; [|split; [|split]].
  - intros w m Hm.
    assert (Hadmin : Split.onAdminMessage ADMIN_IDS now m w = (Ok tt, w)).
    { unfold Split.onAdminMessage. destruct (author_bot m); [done|].
      by rewrite Hm, bool_decide_eq_false_2. }
    unfold Part000.messageCreate, Part001.messageCreate.
    rewrite !bind_run, Hadmin.
    unfold Part000.onMudaeMessage, Part001.onMudaeMessage.
    by rewrite Hm, Hneq.
  - intros w r Hr. unfold Split.messageReactionAdd, mbind, M_bind.
    destruct (split_fetch_run r w) as [fs ->]. exists fs.
    rewrite Hr, Hneq. by destruct (negb (negb _)).
  - intros w mode. unfold exec, Split.debt_toggle.
    rewrite bool_decide_eq_false_2 by done. cbn [negb].
    destruct (split_db_call_cases w) as [fs [-> | ->]]; by exists fs.
  - intros w m Hm. unfold Legacy.messageCreate.
    rewrite Hm, bool_decide_eq_false_2 by done.
    by rewrite orb_true_r.
Qed.

Lemma split_outsider_changes_nothing_witness :
  Part000.messageCreate SplitScenario.admins 6000
    LawScenario.borrower_removed SplitScenario.awaiting
  = (Ok tt, SplitScenario.awaiting) /\
  Part001.messageCreate SplitScenario.admins 6000
    LawScenario.borrower_removed SplitScenario.awaiting
  = (Ok tt, SplitScenario.awaiting) /\
  Legacy.messageCreate SplitScenario.admins 6000
    LawScenario.borrower_trigger LegacyScenario.start
  = (Ok tt, LegacyScenario.start).
Proof.
  destruct (split_outsider_changes_nothing SplitScenario.admins "1001" 6000)
    as (Hmessage & _ & _ & Hlegacy).
  - compute_done.
  - discriminate.
  - destruct (Hmessage SplitScenario.awaiting LawScenario.borrower_removed
                eq_refl) as [H0 H1].
    split; [exact H0|]. split; [exact H1|]. by apply Hlegacy.
Defined.

End AccessLaws.

(** ** The slash commands of [src/index.js] *)

Section CommandLaws.
Import Ledger Discord Spec Laws.


(** [DELETE] as a handler runs it: rejected, or the rows with the id
    are gone. *)
Lemma index_delete_cases (id : Z) (w : IndexJs.world) :
  exists fs,
    IndexJs.db (query_delete id) w = (Throw, IndexJs.with_faults fs w) \/
    IndexJs.db (query_delete id) w =
      (Ok tt,
       IndexJs.World
         (Env (filter (fun d => debt_id d <> id) (table (IndexJs.outside w)))
              (serial (IndexJs.outside w)) fs)
         (IndexJs.isTrackingEnabled w) (IndexJs.pendingActions w)
         (IndexJs.replies w)).
Proof.
  unfold IndexJs.db.
  destruct (query_delete_cases id (IndexJs.outside w)) as [fs [-> | ->]];
    eauto.
Qed.

Lemma debt_delete_cases (invoker : string) (id : Z) (w : IndexJs.world) :
  let w' := exec (IndexJs.debt_delete invoker id) w in
  let t := table (IndexJs.outside w) in
  let t' := table (IndexJs.outside w') in
  (t' = t \/ t' = filter (fun d => debt_id d <> id) t) /\
  serial (IndexJs.outside w') = serial (IndexJs.outside w) /\
  IndexJs.isTrackingEnabled w' = IndexJs.isTrackingEnabled w /\
  IndexJs.pendingActions w' = IndexJs.pendingActions w /\
  (result (IndexJs.debt_delete invoker id) w = Ok tt ->
   t' = filter (fun d => debt_id d <> id) t /\
   IndexJs.replies w' =
   IndexJs.replies w ++
   [(invoker, "🗑️ Deleted Debt #" +:+ JS.toString id +:+ ".")]).
Proof.
  intros w' t t'.
  unfold t', t, w', exec, result, IndexJs.debt_delete, pool_connect.
  rewrite bind_run.
  destruct (index_db_call_cases w) as [fs [-> | ->]];
    [|by repeat split; auto].
  rewrite bind_run.
  destruct (index_delete_cases id (IndexJs.with_faults fs w))
    as [fs' [-> | ->]]; [by repeat split; auto|].
  match goal with
  | |- context [IndexJs.reply ?to ?text ?w0] =>
      destruct (index_reply_cases to text w0) as [fs'' [-> | ->]]
  end; simpl; by repeat split; auto.
Qed.

Lemma debt_delete_frame (invoker : string) (id : Z) (w : IndexJs.world) :
  let w' := exec (IndexJs.debt_delete invoker id) w in
  serial (IndexJs.outside w') = serial (IndexJs.outside w) /\
  IndexJs.isTrackingEnabled w' = IndexJs.isTrackingEnabled w /\
  IndexJs.pendingActions w' = IndexJs.pendingActions w.
Proof.
  intros w'. by destruct (debt_delete_cases invoker id w) as (_ & ? & ? & ? & _).
Qed.

(** X15.  [/debt_delete id], whatever the oracle does: the rows with
    another id stay, in their order, and nothing is added; the sequence,
    the flag and the pending table are what they were.  When the command
    returns, no row with the id is left and the reply says that the debt
    was deleted, whether or not a row had the id. *)
Theorem debt_delete_removes_that_id_only (invoker : string) (id : Z)
    (w : IndexJs.world) :
  let w' := exec (IndexJs.debt_delete invoker id) w in
  let t := table (IndexJs.outside w) in
  let t' := table (IndexJs.outside w') in
  serial (IndexJs.outside w') = serial (IndexJs.outside w) /\
  IndexJs.isTrackingEnabled w' = IndexJs.isTrackingEnabled w /\
  IndexJs.pendingActions w' = IndexJs.pendingActions w /\
  (t' = t \/ t' = filter (fun d => debt_id d <> id) t) /\
  sublist t' t /\
  (forall d, d ∈ t -> debt_id d <> id -> d ∈ t') /\
  (result (IndexJs.debt_delete invoker id) w = Ok tt ->
   t' = filter (fun d => debt_id d <> id) t /\
   IndexJs.replies w' =
   IndexJs.replies w ++
   [(invoker, "🗑️ Deleted Debt #" +:+ JS.toString id +:+ ".")]).
Proof.
  intros w' t t'.
  pose proof (debt_delete_cases invoker id w) as Hcases.
  cbv zeta in Hcases. fold w' in Hcases. fold t t' in Hcases.
  destruct Hcases as (Ht & Hn & Hflag & Hpending & Hok).
  repeat split; try done.
  - destruct Ht as [-> | ->]; [done|apply sublist_filter].
  - intros d Hd Hid. destruct Ht as [-> | ->]; [done|].
    by apply list_elem_of_filter.
  - by apply Hok.
  - by apply Hok.
Qed.

(** Debt 3 is deleted and the others stay; for an id that no row has
    the reply is the same and the table is what it was. *)
Lemma debt_delete_removes_that_id_only_witness :
  table (IndexJs.outside
           (exec (IndexJs.debt_delete "9" 3) LawScenario.five_debts))
  = [Scenario.c5_B; Scenario.c5_A; Scenario.c5_settled] /\
  table (IndexJs.outside
           (exec (IndexJs.debt_delete "9" 99) LawScenario.five_debts))
  = table Scenario.c5_env /\
  IndexJs.replies (exec (IndexJs.debt_delete "9" 99) LawScenario.five_debts)
  = [("9", "🗑️ Deleted Debt #99.")].
Proof.
  destruct (debt_delete_removes_that_id_only "9" 99 LawScenario.five_debts)
    as (_ & _ & _ & _ & _ & _ & Hok).
  destruct (Hok eq_refl) as [Htable Hreplies].
  split; [reflexivity|]. split; [by rewrite Htable|exact Hreplies].
Defined.

Lemma index_select_cases (p : debt -> bool) (w : IndexJs.world) :
  exists fs,
    IndexJs.db (query_select p) w = (Throw, IndexJs.with_faults fs w) \/
    IndexJs.db (query_select p) w =
      (Ok (filter (fun d => p d = true) (table (IndexJs.outside w))),
       IndexJs.with_faults fs w).
Proof.
  unfold IndexJs.db, query_select. rewrite bind_run.
  destruct (call_cases (IndexJs.outside w)) as [fs [-> | ->]];
    exists fs; [by right|by left].
Qed.


(** X20.  What each slash command of [src/index.js] can write, whoever
    invokes it and whatever the oracle does.  None touches the pending
    table, and only [/debt_toggle] of an administrator moves the flag.
    [/debt_toggle] leaves the ledger as it is; [/debt_status] leaves
    the ledger that its [applyInterest] leaves; [/debt_add] leaves the
    ledger as it is or appends one open debt of the amount, lent by the
    invoker and dated now, whose note is [Manual Entry] when none or an
    empty one was given; [/debt_delete] leaves the sequence as it is. *)
Theorem commands_write_only_their_part (ADMIN_IDS : list string) (now : Z)
    (u : string) (c : IndexJs.command) (w : IndexJs.world) :
  let w' := exec (IndexJs.interactionCreate ADMIN_IDS now u c) w in
  let s := IndexJs.outside w in
  IndexJs.pendingActions w' = IndexJs.pendingActions w /\
  match c with
  | IndexJs.Toggle mode =>
      IndexJs.ledger w' = IndexJs.ledger w /\
      IndexJs.isTrackingEnabled w' =
        if bool_decide (u ∈ ADMIN_IDS) then String.eqb mode "on"
        else IndexJs.isTrackingEnabled w
  | IndexJs.Status =>
      IndexJs.isTrackingEnabled w' = IndexJs.isTrackingEnabled w /\
      (IndexJs.ledger w' = IndexJs.ledger w \/
       u ∈ ADMIN_IDS /\
       IndexJs.ledger w' = contents (exec (applyInterest now) s))
  | IndexJs.Add user amount note =>
      IndexJs.isTrackingEnabled w' = IndexJs.isTrackingEnabled w /\
      (IndexJs.ledger w' = IndexJs.ledger w \/
       u ∈ ADMIN_IDS /\
       exists text,
         (text = "Manual Entry" \/ note = Some text /\ text <> "") /\
         IndexJs.ledger w' =
         (table s ++ [Debt (serial s) user u amount amount now now Open text],
          serial s + 1))
  | IndexJs.Delete id =>
      IndexJs.isTrackingEnabled w' = IndexJs.isTrackingEnabled w /\
      serial (IndexJs.outside w') = serial s
  end.
Proof.
  intros w' s. unfold w', exec, IndexJs.interactionCreate.
  destruct (bool_decide (u ∈ ADMIN_IDS)) eqn:Hadmin; cbn [negb].
  2:{ destruct (index_reply_frame u "❌ Unauthorized." w) as (Hl & Hf & Hp).
      unfold exec in *. split; [done|]. destruct c; cbv iota; auto.
      split; [done|]. unfold IndexJs.ledger, contents in Hl.
      by injection Hl. }
  apply bool_decide_eq_true in Hadmin.
  destruct c as [|mode|user amount note|id].
  - (* debt_status *)
    unfold IndexJs.debt_status. rewrite bind_run.
    pose proof (index_db_frame (applyInterest now) w)
      as (Hf1 & Hp1 & _ & Ho1 & _).
    destruct (IndexJs.db (applyInterest now) w) as [[[]|] w1] eqn:E1;
      simpl in *.
    2:{ split; [done|]. split; [done|]. right. split; [done|].
        unfold IndexJs.ledger, exec, s. by rewrite Ho1. }
    rewrite bind_run. unfold pool_connect.
    destruct (index_db_call_cases w1) as [fs [-> | ->]].
    2:{ split; [done|]. split; [done|]. right. split; [done|].
        unfold IndexJs.ledger, exec, s. simpl. by rewrite Ho1. }
    rewrite bind_run.
    destruct (index_select_cases is_open (IndexJs.with_faults fs w1))
      as [fs' [-> | ->]].
    { split; [done|]. split; [done|]. right. split; [done|].
      unfold IndexJs.ledger, exec, s. simpl. by rewrite Ho1. }
    set (w2 := IndexJs.with_faults fs' (IndexJs.with_faults fs w1)).
    assert (Hw2 : IndexJs.pendingActions w2 = IndexJs.pendingActions w /\
                  IndexJs.isTrackingEnabled w2 = IndexJs.isTrackingEnabled w /\
                  IndexJs.ledger w2 = contents (exec (applyInterest now) s)).
    { unfold w2, IndexJs.ledger, exec, s. simpl. by rewrite Ho1. }
    destruct Hw2 as (Hp2 & Hf2 & Hl2). clearbody w2.
    match goal with
    | |- context [if ?b then IndexJs.reply ?to ?t1 w2
                  else IndexJs.reply ?to ?t2 w2] =>
        replace (if b then IndexJs.reply to t1 w2 else IndexJs.reply to t2 w2)
          with (IndexJs.reply to (if b then t1 else t2) w2)
          by (by destruct b);
        destruct (index_reply_frame to (if b then t1 else t2) w2)
          as (Hl3 & Hf3 & Hp3)
    end.
    unfold exec in *. split; [congruence|]. split; [congruence|].
    right. split; [done|]. congruence.
  - (* debt_toggle *)
    unfold IndexJs.debt_toggle.
    rewrite bool_decide_eq_true_2 by done. cbn [negb].
    rewrite bind_run.
    destruct (index_db_call_cases
                (IndexJs.set_tracking (String.eqb mode "on") w))
      as [fs [-> | ->]]; by simpl.
  - (* debt_add *)
    unfold IndexJs.debt_add. cbv zeta.
    set (text := match note with
                 | Some n => if String.eqb n "" then "Manual Entry" else n
                 | None => "Manual Entry"
                 end).
    assert (Htext : text = "Manual Entry" \/ note = Some text /\ text <> "").
    { unfold text. destruct note as [n|]; [|by left].
      destruct (String.eqb n "") eqn:E; [by left|].
      right. split; [done|]. by apply String.eqb_neq. }
    clearbody text. rewrite bind_run. unfold IndexJs.db.
    destruct (logDebt_cases now user u amount text (IndexJs.outside w))
      as [fs [-> | ->]]; [by auto|].
    match goal with
    | |- context [IndexJs.reply ?to ?t ?w0] =>
        destruct (index_reply_frame to t w0) as (Hl & Hf & Hp)
    end.
    unfold exec in *. split; [done|]. split; [done|].
    right. split; [done|]. exists text. split; [done|]. by rewrite Hl.
  - (* debt_delete *)
    destruct (debt_delete_frame u id w) as (Hn & Hf & Hp).
    unfold exec in *. by rewrite Hp, Hf, Hn.
Qed.

Lemma commands_write_only_their_part_witness :
  IndexJs.ledger
    (exec (IndexJs.interactionCreate IndexScenario.admins 6000 "9"
             (IndexJs.Add "1001" 250 (Some ""))) IndexScenario.awaiting)
  = ([Debt 1 "1001" "9" 250 250 6000 6000 Open "Manual Entry"], 2) /\
  IndexJs.pendingActions
    (exec (IndexJs.interactionCreate IndexScenario.admins 6000 "9"
             (IndexJs.Toggle "off")) IndexScenario.awaiting)
  = IndexJs.pendingActions IndexScenario.awaiting.
Proof.
  split; [reflexivity|].
  apply (commands_write_only_their_part IndexScenario.admins 6000 "9"
           (IndexJs.Toggle "off") IndexScenario.awaiting).
Defined.

End CommandLaws.

(** ** Ids over a whole history, and the days of [/debt_status] *)

Section HistoryLaws.
Import Ledger Discord Spec Laws.

(** The rows that are below the mark [n] come from rows of [s] with the
    same identity. *)
Lemma remapped_descends (Q : debt -> debt -> Prop) (s s' : env) :
  (forall r r', Q r r' -> same_identity r r') ->
  remapped Q s s' ->
  serial s <= serial s' /\
  forall r', r' ∈ table s' ->
             exists r, r ∈ table s /\ same_identity r r'.
Proof.
  intros HQ [Hn (g & Ht & Hg)]. split; [lia|].
  intros r' Hr'. rewrite Ht in Hr'.
  apply list_elem_of_In, in_map_iff in Hr' as [r [<- Hr]].
  exists r. split; [by apply list_elem_of_In|]. by apply HQ.
Qed.

Lemma perform_descends (o : operation) (s : env) :
  well_formed s ->
  well_formed (perform o s) /\
  serial s <= serial (perform o s) /\
  forall r', r' ∈ table (perform o s) -> debt_id r' < serial s ->
             exists r, r ∈ table s /\ same_identity r r'.
Proof.
  intros Hwf. destruct o as [now|now b a n note|b n|i]; simpl.
  - pose proof (applyInterest_remapped now s) as Hre.
    split; [eapply remapped_well_formed; [|exact Hre|done];
            by intros r r' ((Hid & _) & _)|].
    destruct (remapped_descends _ _ _ (fun r r' H => proj1 H) Hre)
      as [Hn Hrows].
    split; [done|]. intros r' Hr' _. by apply Hrows.
  - unfold exec.
    destruct (logDebt_cases now b a n note s) as [fs [-> | ->]]; simpl.
    + split; [done|]. split; [lia|]. intros r' Hr' _. exists r'.
      split; [done|apply same_identity_refl].
    + destruct Hwf as [Hnd Hlt]. split; [split; simpl|].
      * rewrite map_app. simpl. apply NoDup_app. split; [done|].
        split; [|apply NoDup_singleton].
        intros i Hi Hi'%list_elem_of_singleton. subst i.
        apply list_elem_of_In, in_map_iff in Hi as [d [Hid Hd]].
        rewrite Forall_forall in Hlt.
        specialize (Hlt d (proj2 (list_elem_of_In _ _) Hd)). lia.
      * apply Forall_app. split; [|repeat constructor; simpl; lia].
        eapply Forall_impl; [exact Hlt|]. simpl. intros d Hd. lia.
      * split; [lia|]. intros r' Hr' Hbelow.
        apply elem_of_app in Hr' as [Hr' | Hr'%list_elem_of_singleton].
        -- exists r'. split; [done|apply same_identity_refl].
        -- subst r'. simpl in Hbelow. lia.
  - pose proof (payDebt_remapped s b n) as Hre.
    split; [eapply remapped_well_formed; [|exact Hre|done];
            by intros r r' ((Hid & _) & _)|].
    destruct (remapped_descends _ _ _ (fun r r' H => proj1 H) Hre)
      as [Hn Hrows].
    split; [done|]. intros r' Hr' _. by apply Hrows.
  - unfold pool_connect. rewrite exec_bind.
    destruct (call_cases s) as [fs [-> | ->]].
    + unfold exec.
      destruct (query_delete_cases i (refault fs s)) as [fs' [-> | ->]];
        simpl.
      * split; [done|]. split; [lia|]. intros r' Hr' _. exists r'.
        split; [done|apply same_identity_refl].
      * split; [destruct s as [t n fs0]; by apply well_formed_filter|].
        split; [lia|]. intros r' [_ Hr']%list_elem_of_filter _.
        exists r'. split; [done|apply same_identity_refl].
    + split; [done|]. split; [simpl; lia|]. intros r' Hr' _. exists r'.
      split; [done|apply same_identity_refl].
Qed.

(** X16.  An id names one debt for ever.  From a well-formed ledger,
    after any sequence of accruals, creations, repayments and deletions,
    each under any oracle: the ledger is well formed, the sequence has
    not gone back, and a row whose id is below the sequence of the start
    is a row of the start with the same id, borrower, lender, principal,
    creation date and note.  So the id of a deleted debt, or any other
    id below the sequence that no row has, is never seen again. *)
Theorem id_names_one_debt_forever
    (steps : list (list bool * operation)) (s : env) :
  well_formed s ->
  let s' := history steps s in
  well_formed s' /\
  serial s <= serial s' /\
  (forall r', r' ∈ table s' -> debt_id r' < serial s ->
              exists r, r ∈ table s /\ same_identity r r') /\
  (forall i, i < serial s ->
             (forall r, r ∈ table s -> debt_id r <> i) ->
             forall r', r' ∈ table s' -> debt_id r' <> i).
Proof.
  intros Hwf s'.
  assert (Hmain : well_formed s' /\ serial s <= serial s' /\
    forall r', r' ∈ table s' -> debt_id r' < serial s ->
               exists r, r ∈ table s /\ same_identity r r').
  { unfold s'. clear s'. revert s Hwf.
    induction steps as [|[fs o] steps IH]; intros s Hwf.
    - simpl. split; [done|]. split; [lia|]. intros r' Hr' _. exists r'.
      split; [done|apply same_identity_refl].
    - simpl.
      destruct (perform_descends o (refault fs s)
                  (well_formed_refault fs s Hwf)) as (Hwf1 & Hn1 & Hrows1).
      destruct (IH _ Hwf1) as (Hwf2 & Hn2 & Hrows2).
      change (serial (refault fs s)) with (serial s) in *.
      change (table (refault fs s)) with (table s) in *.
      split; [done|]. split; [lia|]. intros r' Hr' Hbelow.
      destruct (Hrows2 r' Hr') as (r1 & Hr1 & Hsame1); [lia|].
      destruct (Hrows1 r1 Hr1) as (r & Hr & Hsame);
        [destruct Hsame1 as [Hid _]; lia|].
      exists r. split; [done|]. by eapply same_identity_trans. }
  destruct Hmain as (Hwf' & Hn & Hrows).
  split; [done|]. split; [done|]. split; [done|].
  intros i Hi Habsent r' Hr' Hid.
  destruct (Hrows r' Hr') as (r & Hr & Hsame); [lia|].
  destruct Hsame as [Hsame _]. apply (Habsent r Hr). lia.
Qed.

(** Debt 1 is deleted; a creation and a repayment later no row has id 1
    and the new debt has id 5. *)
Lemma id_names_one_debt_forever_witness :
  well_formed
    (history [([], Remove 1); ([], Lend 9000 "1003" "9" 60 "Manual Entry");
              ([], Repay "1001" 700)] Scenario.c5_env) /\
  (forall r', r' ∈ table
                (history [([], Lend 9000 "1003" "9" 60 "Manual Entry");
                          ([], Repay "1001" 700)]
                   (perform (Remove 1) Scenario.c5_env)) ->
              debt_id r' <> 1).
Proof.
  assert (Hstart : well_formed Scenario.c5_env).
  { split; [compute_done|]. repeat constructor. }
  split.
  - apply (id_names_one_debt_forever _ Scenario.c5_env Hstart).
  - assert (Hgone : well_formed (perform (Remove 1) Scenario.c5_env))
      by (split; [compute_done|repeat constructor]).
    apply (id_names_one_debt_forever
             [([], Lend 9000 "1003" "9" 60 "Manual Entry");
              ([], Repay "1001" 700)]
             (perform (Remove 1) Scenario.c5_env) Hgone).
    + reflexivity.
    + intros r Hr.
      repeat (apply elem_of_cons in Hr as [-> | Hr]; [discriminate|]).
      by apply elem_of_nil in Hr.
Defined.

(** What [Math.ceil] of the days left amounts to: seven minus the whole
    days elapsed. *)
Lemma daysUntil_elapsed (now : Z) (row : debt) :
  IndexJs.daysUntil now row =
  7 - (now - last_interest_at row) / MS_PER_DAY.
Proof.
  unfold IndexJs.daysUntil, MS_PER_DAY. cbv zeta.
  replace (- (last_interest_at row + 7 * (1000 * 60 * 60 * 24) - now))
    with (now - last_interest_at row + (-7) * (1000 * 60 * 60 * 24)) by lia.
  rewrite Z.div_add by lia. lia.
Qed.

(** After the run the clock is less than a week past the date of the
    row, when the row was written or needed no writing. *)
Lemma accrued_fresh (now now' : Z) (d : debt) :
  debt_status d = Open ->
  last_interest_at d <= now <= now' ->
  (now - last_interest_at d) / (7 * MS_PER_DAY) =
  (now' - last_interest_at d) / (7 * MS_PER_DAY) ->
  accrued now d <> d \/ weeksPassed now d = 0 \/ accruable now d ->
  0 <= now' - last_interest_at (accrued now d) < 7 * MS_PER_DAY.
Proof.
  intros Hopen Hle Hweek Hwritten.
  pose proof (weeksPassed_forward now d (proj1 Hle)) as Hw.
  pose proof (weeksPassed_nonneg now d) as Hw0.
  assert (Hday : 0 < 7 * MS_PER_DAY) by (unfold MS_PER_DAY; lia).
  pose proof (Z.mul_div_le (now' - last_interest_at d) _ Hday) as Hlo.
  pose proof (Z.mul_succ_div_gt (now' - last_interest_at d) _ Hday) as Hhi.
  rewrite <- Hweek, <- Hw in Hlo, Hhi.
  assert (Hidle : weeksPassed now d = 0 ->
                  0 <= now' - last_interest_at d < 7 * MS_PER_DAY) by lia.
  assert (Hopen' : is_open d = true)
    by (unfold is_open; by apply bool_decide_eq_true_2).
  unfold accrued in *. rewrite Hopen' in *. cbn [andb] in *.
  destruct (0 <? weeksPassed now d) eqn:Hdue;
    [apply Z.ltb_lt in Hdue|apply Z.ltb_ge in Hdue; apply Hidle; lia].
  assert (Hacc : forall a, accruable now d ->
            JS.to_int (newAmount now d) = a ->
            exists z, a = Some z /\ in_integer z = true).
  { intros a Ha <-. by apply Ha. }
  destruct (JS.to_int (newAmount now d)) as [a|] eqn:Ha.
  - destruct (in_integer a) eqn:Hr.
    + simpl. unfold newDate. lia.
    + destruct Hwritten as [Hne|[Hz|Hok]]; [done|lia|].
      destruct (Hacc _ Hok eq_refl) as (z & [= <-] & Hz). congruence.
  - destruct Hwritten as [Hne|[Hz|Hok]]; [done|lia|].
    by destruct (Hacc _ Hok eq_refl) as (z & ? & _).
Qed.

(** X17.  The days that [/debt_status] shows for an open debt [d] at
    position [i], whatever the other debts are.  [applyInterest] ran at
    [now], not before the date of [d], and the status is read at [now'],
    not before [now] and before the next week of [d] begins.  When the
    run wrote the row, or [d] was less than a week old, or the run met
    no fault on a table whose due amounts the server accepts, the row is
    still open and the number shown for it, seven minus the whole days
    since its [last_interest_at], is between 1 and 7. *)
Theorem status_days_between_1_and_7 (now now' : Z) (s : env) (i : nat)
    (d : debt) :
  NoDup (map debt_id (table s)) ->
  table s !! i = Some d ->
  debt_status d = Open ->
  last_interest_at d <= now <= now' ->
  (now - last_interest_at d) / (7 * MS_PER_DAY) =
  (now' - last_interest_at d) / (7 * MS_PER_DAY) ->
  let s1 := exec (applyInterest now) s in
  table s1 !! i <> Some d \/
  Z.abs (now - last_interest_at d) < 7 * MS_PER_DAY \/
  faults s = [] /\ (forall x, x ∈ table s -> accruable now x) ->
  exists r, table s1 !! i = Some r /\ debt_status r = Open /\
            IndexJs.daysUntil now' r
              = 7 - (now' - last_interest_at r) / MS_PER_DAY /\
            1 <= IndexJs.daysUntil now' r <= 7.
Proof.
  intros Hnd Hi Hopen Hle Hweek s1 Hwritten.
  pose proof (applyInterest_at now s i d Hnd Hi) as Hrow. fold s1 in Hrow.
  assert (Hr : table s1 !! i = Some (accrued now d) /\
               (accrued now d <> d \/ weeksPassed now d = 0 \/
                accruable now d)).
  { destruct Hwritten as [Hne|[Hidle|[Hf Hacc]]].
    - destruct Hrow as [Hrow|Hrow]; [done|]. split; [done|]. left.
      intros Heq. by rewrite Heq in Hrow.
    - pose proof (weeksPassed_zero now d Hidle) as Hz.
      rewrite (accrued_idle now d Hz) in *. split; [by destruct Hrow|auto].
    - split.
      + unfold s1, exec. rewrite applyInterest_nil by done. cbn [snd table].
        change (map (accrued now) (table s))
          with (accrued now <$> table s).
        by rewrite list_lookup_fmap, Hi.
      + right. right. apply Hacc. by eapply list_elem_of_lookup_2. }
  destruct Hr as [Hr Hok].
  exists (accrued now d). split; [done|].
  split; [by rewrite accrued_status|].
  split; [apply daysUntil_elapsed|].
  rewrite daysUntil_elapsed.
  pose proof (accrued_fresh now now' d Hopen Hle Hweek Hok) as Hfresh.
  set (e := now' - last_interest_at (accrued now d)) in *.
  assert (0 <= e / MS_PER_DAY < 7).
  { unfold MS_PER_DAY in *. split.
    - apply Z.div_pos; lia.
    - apply Z.div_lt_upper_bound; lia. }
  lia.
Qed.

(** Interest applied on day 16 to a table with a debt that is four days
    old and two that are due; the status read a second later shows five
    days for the debt charged two weeks, and three for the young one. *)
Lemma status_days_between_1_and_7_witness :
  (exists r,
     table (exec (applyInterest (16 * MS_PER_DAY + 5)) Scenario.c4_mixed)
       !! 2%nat = Some r /\ debt_status r = Open /\
     IndexJs.daysUntil (16 * MS_PER_DAY + 1005) r
       = 7 - (16 * MS_PER_DAY + 1005 - last_interest_at r) / MS_PER_DAY /\
     1 <= IndexJs.daysUntil (16 * MS_PER_DAY + 1005) r <= 7) /\
  IndexJs.daysUntil (16 * MS_PER_DAY + 1005)
    (Debt 7 "1001" "9" 1000 1103 0 (14 * MS_PER_DAY) Open "Verified by Mudae")
  = 5 /\
  IndexJs.daysUntil (16 * MS_PER_DAY + 1005) Scenario.c4_idle = 3.
Proof.
  split; [|split; reflexivity].
  apply (status_days_between_1_and_7 (16 * MS_PER_DAY + 5)
           (16 * MS_PER_DAY + 1005) Scenario.c4_mixed 2 Scenario.c3_debt).
  - compute_done.
  - reflexivity.
  - reflexivity.
  - vm_compute. split; discriminate.
  - vm_compute. reflexivity.
  - left. vm_compute. discriminate.
Defined.

End HistoryLaws.

(** ** What listener 1 registers *)

Section TriggerLaws.
Import Ledger Discord Spec Laws.

Lemma digits_value_span (s : string) :
  forall acc, 0 <= acc ->
  0 <= JS.digits_value acc (JS.span JS.is_digit s).1.
Proof.
  induction s as [|c s IH]; intros acc Hacc; [done|]. simpl.
  destruct (JS.is_digit c) eqn:E; [|done].
  destruct (JS.span JS.is_digit s) as [a b]. simpl in *.
  apply IH. unfold JS.is_digit in E.
  apply andb_true_iff in E as [E _]. apply Nat.leb_le in E. lia.
Qed.

Lemma parseInt_nonneg (s : string) (n : Z) :
  JS.parseInt s = Some n -> 0 <= n.
Proof.
  unfold JS.parseInt. intros H.
  pose proof (digits_value_span s 0 ltac:(lia)) as Hpos.
  destruct (JS.span JS.is_digit s).1; [done|].
  injection H as <-. exact Hpos.
Qed.



(** X18.  What listener 1 of [src/index.js] can put in the pending
    table.  An entry found after a message was either there before, or
    is the entry of that message: the author is an administrator and no
    bot, tracking is on, the entry is keyed by the message id, dated
    now, its amount is not negative, and it is a loan exactly when the
    text matches the give expression, which excludes the take
    expression. *)
Theorem index_registers_admin_triggers (ADMIN_IDS : list string) (now : Z)
    (m : message) (w : IndexJs.world) (k : string) (a : IndexJs.action) :
  IndexJs.pendingActions (exec (IndexJs.messageCreate ADMIN_IDS now m) w)
    !! k = Some a ->
  IndexJs.pendingActions w !! k = Some a \/
  (k = message_id m /\ author_bot m = false /\ author_id m ∈ ADMIN_IDS /\
   IndexJs.isTrackingEnabled w = true /\
   IndexJs.adminId a = author_id m /\ IndexJs.timestamp a = now /\
   0 <= IndexJs.amount a /\
   exists digits,
     JS.parseInt digits = Some (IndexJs.amount a) /\
     match IndexJs.type a with
     | IndexJs.LOAN =>
         giveRegex (content m) = Some (IndexJs.userId a, digits) /\
         takeRegex (content m) = None
     | IndexJs.REPAY =>
         giveRegex (content m) = None /\
         takeRegex (content m) = Some (IndexJs.userId a, digits)
     end).
Proof.
  unfold exec, IndexJs.messageCreate. intros H.
  destruct (author_bot m) eqn:Hbot; [by left|].
  destruct (bool_decide (author_id m ∈ ADMIN_IDS)) eqn:Hadmin; [|by left].
  apply bool_decide_eq_true in Hadmin. cbn [negb] in H.
  destruct (IndexJs.isTrackingEnabled w) eqn:Htrack; [|by left].
  cbn [negb] in H.
  destruct (JS.includes _ "#exempt"); [by left|].
  assert (Hentry : forall kind captures,
    IndexJs.pendingActions (IndexJs.register kind now m captures w).2 !! k
      = Some a ->
    IndexJs.pendingActions w !! k = Some a \/
    (k = message_id m /\ IndexJs.adminId a = author_id m /\
     IndexJs.timestamp a = now /\ IndexJs.type a = kind /\
     IndexJs.userId a = captures.1 /\
     JS.parseInt captures.2 = Some (IndexJs.amount a))).
  { intros kind captures. unfold IndexJs.register.
    destruct (JS.parseInt captures.2) as [n|]; [|by left]. simpl.
    destruct (decide (k = message_id m)) as [-> | Hk].
    - rewrite lookup_insert_eq. intros [= <-]. by right.
    - rewrite lookup_insert_ne by done. by left. }
  destruct (giveRegex (content m)) as [[user digits]|] eqn:Hgive.
  - destruct (Hentry _ _ H) as [Hold | (-> & Hadm & Hts & Hty & Hu & Hn)];
      [by left|right].
    simpl in Hu, Hn. repeat split; try done.
    + by eapply parseInt_nonneg.
    + exists digits. split; [done|]. rewrite Hty, Hu.
      split; [done|]. by eapply give_not_take.
  - destruct (takeRegex (content m)) as [[user digits]|] eqn:Htake;
      [|by left].
    destruct (Hentry _ _ H) as [Hold | (-> & Hadm & Hts & Hty & Hu & Hn)];
      [by left|right].
    simpl in Hu, Hn. repeat split; try done.
    + by eapply parseInt_nonneg.
    + exists digits. split; [done|]. by rewrite Hty, Hu.
Qed.

Lemma index_registers_admin_triggers_witness :
  IndexJs.pendingActions
    (exec (IndexJs.messageCreate IndexScenario.admins 5000
             IndexScenario.first_trigger) IndexScenario.start) !! "900"
  = Some (IndexJs.Action IndexJs.LOAN "9" "1001" 100 5000) /\
  takeRegex (content IndexScenario.first_trigger) = None.
Proof.
  assert (Hfound : IndexJs.pendingActions
    (exec (IndexJs.messageCreate IndexScenario.admins 5000
             IndexScenario.first_trigger) IndexScenario.start) !! "900"
    = Some (IndexJs.Action IndexJs.LOAN "9" "1001" 100 5000))
    by reflexivity.
  split; [exact Hfound|].
  destruct (index_registers_admin_triggers _ _ _ _ _ _ Hfound)
    as [Hold | (_ & _ & _ & _ & _ & _ & _ & digits & _ & _ & Hnone)];
    [discriminate Hold|exact Hnone].
Defined.

(** X19.  The same for the two tables of [part_000] and [part_001]: a
    pending loan found after a message was there before or comes from an
    administrator's give trigger and is keyed by the message id; a
    pending repayment was there before or comes from an administrator's
    take trigger and is keyed by the channel id.  Amounts are not
    negative, and one message writes at most one of the two tables. *)
Theorem split_registers_admin_triggers (ADMIN_IDS : list string) (now : Z)
    (m : message) (w : Split.world) (k : string) (p : Split.pending) :
  let w' := exec (Split.onAdminMessage ADMIN_IDS now m) w in
  let entry_of (key : string) (regex : string -> option (string * string)) :=
    k = key /\ author_bot m = false /\ author_id m ∈ ADMIN_IDS /\
    Split.isTrackingEnabled w = true /\
    Split.adminId p = author_id m /\ Split.timestamp p = now /\
    0 <= Split.amount p /\
    exists digits, regex (content m) = Some (Split.userId p, digits) /\
                   JS.parseInt digits = Some (Split.amount p) in
  (Split.pendingLoans w' !! k = Some p ->
   Split.pendingLoans w !! k = Some p \/ entry_of (message_id m) giveRegex) /\
  (Split.pendingRepayments w' !! k = Some p ->
   Split.pendingRepayments w !! k = Some p \/
   entry_of (channel_id m) takeRegex /\ giveRegex (content m) = None) /\
  (Split.pendingLoans w' = Split.pendingLoans w \/
   Split.pendingRepayments w' = Split.pendingRepayments w).
Proof.
  intros w' entry_of. unfold w', exec, Split.onAdminMessage.
  destruct (author_bot m) eqn:Hbot; [by auto|].
  destruct (bool_decide (author_id m ∈ ADMIN_IDS)) eqn:Hadmin; [|by auto].
  apply bool_decide_eq_true in Hadmin.
  destruct (Split.isTrackingEnabled w) eqn:Htrack; [|by auto].
  cbn [negb].
  destruct (JS.includes _ "#exempt"); [by auto|].
  destruct (giveRegex (content m)) as [[user digits]|] eqn:Hgive.
  - unfold Split.entry. cbn [snd fst].
    destruct (JS.parseInt digits) as [n|] eqn:Hn; [|by auto].
    cbn [mbind option_bind]. simpl.
    split; [|by auto].
    destruct (decide (k = message_id m)) as [-> | Hk].
    + rewrite lookup_insert_eq. intros [= <-]. right. unfold entry_of.
      simpl. repeat split; try done; [by eapply parseInt_nonneg|].
      by exists digits.
    + rewrite lookup_insert_ne by done. by left.
  - destruct (takeRegex (content m)) as [[user digits]|] eqn:Htake;
      [|by auto].
    unfold Split.entry. cbn [snd fst].
    destruct (JS.parseInt digits) as [n|] eqn:Hn; [|by auto].
    cbn [mbind option_bind]. simpl.
    split; [by auto|]. split; [|by auto].
    destruct (decide (k = channel_id m)) as [-> | Hk].
    + rewrite lookup_insert_eq. intros [= <-]. right. unfold entry_of.
      simpl. repeat split; try done; [by eapply parseInt_nonneg|].
      by exists digits.
    + rewrite lookup_insert_ne by done. by left.
Qed.

Lemma split_registers_admin_triggers_witness :
  Split.pendingRepayments
    (exec (Split.onAdminMessage SplitScenario.admins 1000
             SplitScenario.take_trigger) SplitScenario.start) !! "77"
  = Some (Split.Pending "9" "1001" 100 1000) /\
  giveRegex (content SplitScenario.take_trigger) = None.
Proof.
  assert (Hfound : Split.pendingRepayments
    (exec (Split.onAdminMessage SplitScenario.admins 1000
             SplitScenario.take_trigger) SplitScenario.start) !! "77"
    = Some (Split.Pending "9" "1001" 100 1000)) by reflexivity.
  split; [exact Hfound|].
  destruct (split_registers_admin_triggers SplitScenario.admins 1000
              SplitScenario.take_trigger SplitScenario.start "77"
              (Split.Pending "9" "1001" 100 1000)) as (_ & Hrepay & _).
  destruct (Hrepay Hfound) as [Hold | [_ Hnone]];
    [discriminate Hold|exact Hnone].
Defined.

End TriggerLaws.
